(** * Decomposable attention for natural language inference

    A shallow embedding of
    [scripts/natural_language_inference/decomposable_attention.py]
    (classes [NLIModel], [IntraSentenceAttention], [DecomposableAttention]).

    Numeric arrays are nested lists of real numbers: the development idealises
    the engine's 32-bit floats as [R].  The operators of the array engine that
    the script calls ([Embedding], [Dropout], [Dense], [batch_dot], [softmax],
    [transpose], [concat], [mean]) are not part of the script; they are
    modelled after their description, and each one that can reject its
    arguments returns a [result].  The three constructors and the three
    [hybrid_forward] methods are transcribed statement by statement, the
    latter in a state-and-error monad whose state is the engine (training flag
    and random generator), since [Dropout] draws random masks. *)

From Stdlib Require Import Reals Lra Lia List Permutation Bool Arith.
Import ListNotations.
Local Open Scope R_scope.

(** ** Arrays *)

Module Tensor.

Abbreviation vec := (list R) (only parsing).
Abbreviation mat := (list (list R)) (only parsing).
Abbreviation tensor2 := (list (list R)) (only parsing).
Abbreviation tensor3 := (list (list (list R))) (only parsing).

(** An array of rank [n]; [tensor 1], [tensor 2], [tensor 3] unfold to
    [vec], [mat], [tensor3]. *)
Fixpoint tensor (rank : nat) : Type :=
  match rank with
  | O => R
  | S r => list (tensor r)
  end.

Fixpoint zipWith {A B C : Type} (f : A -> B -> C) (l : list A) (l' : list B) : list C :=
  match l, l' with
  | x :: xs, y :: ys => f x y :: zipWith f xs ys
  | _, _ => []
  end.

Definition Rsum (l : list R) : R := fold_right Rplus 0 l.

Definition dot (u v : vec) : R := Rsum (zipWith Rmult u v).

(** Number of columns of a matrix, read off its first row. *)
Definition width (m : mat) : nat := length (hd [] m).

Definition column (j : nat) (m : mat) : vec := map (fun r => nth j r 0) m.

Definition transpose (m : mat) : mat := map (fun j => column j m) (seq 0 (width m)).

(** Modelled from the spec: the matrix product of the engine, here [a . b^T]:
    entry (i, j) is the inner product of row i of [a] and row j of [b]. *)
Definition matmul_nt (a b : mat) : mat := map (fun u => map (dot u) b) a.

(** Modelled from the spec: the engine's [softmax] over one row, which
    normalises the row to [exp x_i / sum_j exp x_j]. *)
Definition softmax_vec (v : vec) : vec :=
  let e := map exp v in map (fun x => x / Rsum e) e.

(** [x.softmax()]: softmax along the last axis of a rank-3 array. *)
Definition softmax (x : tensor3) : tensor3 := map (map softmax_vec) x.

(** Modelled from the spec: the engine's [x.transpose([0, 2, 1])], which
    transposes every batch element. *)
Definition transpose_021 (x : tensor3) : tensor3 := map transpose x.

(** Modelled from the spec: the engine's mean over the length axis, the mean of
    every column of a batch element. *)
Definition mean_rows (m : mat) : vec :=
  map (fun c => Rsum c / INR (length m)) (transpose m).

(** [x.mean(axis=1)] on a rank-3 array. *)
Definition mean_axis1 (x : tensor3) : tensor2 := map mean_rows x.

(** Modelled from the spec: the engine's ReLU activation. *)
Definition relu (x : R) : R := Rmax x 0.

(** Sum of [f 0 .. f (n-1)], for index-level statements. *)
Definition big_sum (n : nat) (f : nat -> R) : R := Rsum (map f (seq 0 n)).

(** Shape predicates.  [all_vectors n P x]: [P] holds of every vector (last
    axis) of the rank-[n+1] array [x]; [all_len n k x]: each has [k] entries. *)
Fixpoint all_vectors (n : nat) (P : vec -> Prop) : tensor (S n) -> Prop :=
  match n with
  | O => P
  | S r => Forall (all_vectors r P)
  end.

Definition all_len (n k : nat) : tensor (S n) -> Prop :=
  all_vectors n (fun v => length v = k).

(** [same_outer n x y]: [x] and [y] agree on every axis but the last. *)
Fixpoint same_outer (n : nat) : tensor (S n) -> tensor (S n) -> Prop :=
  match n with
  | O => fun _ _ => True
  | S r => Forall2 (same_outer r)
  end.

(** [same_shape n x y]: [x] and [y] agree on every axis. *)
Fixpoint same_shape (n : nat) : tensor n -> tensor n -> Prop :=
  match n with
  | O => fun _ _ => True
  | S r => Forall2 (same_shape r)
  end.

(** [x] has shape [[B, L]] / [[B, L, H]]. *)
Definition has_shape2 {A : Type} (B L : nat) (x : list (list A)) : Prop :=
  length x = B /\ Forall (fun r => length r = L) x.

Definition has_shape3 (B L H : nat) (x : tensor3) : Prop :=
  length x = B /\ Forall (has_shape2 L H) x.

End Tensor.
Import Tensor.

(** ** Failures of the array engine *)

Inductive error : Type :=
| IndexOutOfBounds     (* an [Embedding] index beyond the table *)
| DimensionMismatch.   (* operand shapes that do not fit *)

Inductive result (A : Type) : Type :=
| Ok (a : A)
| Err (e : error).
Arguments Ok {A} a.
Arguments Err {A} e.

Definition result_map {A B : Type} (f : A -> B) (r : result A) : result B :=
  match r with
  | Ok a => Ok (f a)
  | Err e => Err e
  end.

Fixpoint mapR {A B : Type} (f : A -> result B) (l : list A) : result (list B) :=
  match l with
  | [] => Ok []
  | x :: xs =>
      match f x with
      | Err e => Err e
      | Ok y =>
          match mapR f xs with
          | Err e => Err e
          | Ok ys => Ok (y :: ys)
          end
      end
  end.

(** Apply a vector operation along the last axis of a rank-[n+1] array. *)
Fixpoint on_vectors (n : nat) (f : vec -> result vec) : tensor (S n) -> result (tensor (S n)) :=
  match n with
  | O => f
  | S r => mapR (on_vectors r f)
  end.

(** *** Operators without randomness *)

(** Modelled from the spec: the shapes [F.batch_dot(lhs, rhs, transpose_b)]
    accepts.  Batch sizes must agree; with [transpose_b] the rows of both
    operands must have one length, without it the rows of [lhs] must be as
    long as [rhs] has rows.  Anything else is a dimension mismatch. *)
Definition batch_dot_shape_ok (lhs rhs : tensor3) (transpose_b : bool) : bool :=
  Nat.eqb (length lhs) (length rhs) &&
  forallb (fun p =>
    forallb (fun u =>
      if transpose_b
      then forallb (fun v => Nat.eqb (length u) (length v)) (snd p)
      else Nat.eqb (length u) (length (snd p))) (fst p))
    (combine lhs rhs).

(** Modelled from the spec: the engine's batched matrix product
    [F.batch_dot(lhs, rhs, transpose_b)], one product per batch element. *)
Definition batch_dot (lhs rhs : tensor3) (transpose_b : bool) : result tensor3 :=
  if batch_dot_shape_ok lhs rhs transpose_b
  then Ok (zipWith (fun a b => matmul_nt a (if transpose_b then b else transpose b)) lhs rhs)
  else Err DimensionMismatch.

(** Modelled from the spec: the shapes [F.concat(a, b, dim=-1)] accepts on
    rank-3 arrays ([dim=2] is the same axis): the two leading axes must
    agree. *)
Definition concat3_shape_ok (a b : tensor3) : bool :=
  Nat.eqb (length a) (length b) &&
  forallb (fun p => Nat.eqb (length (fst p)) (length (snd p))) (combine a b).

(** Modelled from the spec: the engine's concatenation along the last axis of
    rank-3 arrays. *)
Definition concat3 (a b : tensor3) : result tensor3 :=
  if concat3_shape_ok a b
  then Ok (zipWith (zipWith (@app R)) a b)
  else Err DimensionMismatch.

(** Modelled from the spec: the engine's [F.concat(a, b, dim=1)] on rank-2
    arrays. *)
Definition concat2 (a b : tensor2) : result tensor2 :=
  if Nat.eqb (length a) (length b)
  then Ok (zipWith (@app R) a b)
  else Err DimensionMismatch.

(** *** Layers *)

(** [nn.Embedding(input_dim, output_dim)]; the table has one row per index. *)
Record Embedding : Type := {
  input_dim : nat;
  output_dim : nat;
  emb_weight : mat
}.

(** Modelled from the spec: the engine's embedding lookup, which is not part of
    the script.  An index beyond the table has no row, and the lookup of a
    whole array fails with an index-out-of-bounds error. *)
Definition Embedding_lookup (e : Embedding) (i : nat) : option vec :=
  if Nat.ltb i (input_dim e) then nth_error (emb_weight e) i else None.

Definition Embedding_forward (e : Embedding) (x : list (list nat)) : result tensor3 :=
  mapR (mapR (fun i =>
    match Embedding_lookup e i with
    | Some v => Ok v
    | None => Err IndexOutOfBounds
    end)) x.

Inductive Activation : Type := relu_activation.

Definition activate (a : option Activation) (x : R) : R :=
  match a with
  | Some relu_activation => relu x
  | None => x
  end.

(** [nn.Dense(units, in_units, activation)]: weight of shape
    [[units, in_units]], bias of shape [[units]]. *)
Record Dense : Type := {
  units : nat;
  in_units : nat;
  activation : option Activation;
  weight : mat;
  bias : vec
}.

(** Modelled from the spec: the engine's fully-connected layer on one vector,
    the affine map followed by the activation, [act (x . W^T + b)]. *)
Definition Dense_fn (d : Dense) (x : vec) : vec :=
  map (activate (activation d)) (zipWith Rplus (map (dot x) (weight d)) (bias d)).

(** Modelled from the spec: a vector whose length is not [in_units] is a
    dimension mismatch. *)
Definition Dense_apply (d : Dense) (x : vec) : result vec :=
  if Nat.eqb (length x) (in_units d) then Ok (Dense_fn d x) else Err DimensionMismatch.

(** A dense layer on a rank-[n+1] array acts on the last axis ([flatten=False]).
    The predictor's layers keep the default [flatten=True] but receive rank-2
    input, on which flattening changes nothing: they are applied at [n = 1]. *)
Definition Dense_forward (n : nat) (d : Dense) (x : tensor (S n)) : result (tensor (S n)) :=
  on_vectors n (Dense_apply d) x.

(** [nn.Dropout(rate)]. *)
Record Dropout : Type := { rate : R }.

(** [nn.HybridSequential]: the layers in the order they were added. *)
Inductive Block : Type :=
| Dropout_block (d : Dropout)
| Dense_block (d : Dense).

Definition HybridSequential := list Block.

(** ** The three blocks of the script: attributes and constructors *)

(** Values of the learned parameters of one dense layer, and of a stack of
    three dense layers. *)
Record DenseParams : Type := { weight_value : mat; bias_value : vec }.

Record StackParams : Type := {
  layer1 : DenseParams;
  layer2 : DenseParams;
  layer3 : DenseParams
}.

Definition Dense_init (units in_units : nat) (activation : option Activation)
    (p : DenseParams) : Dense :=
  {| units := units; in_units := in_units; activation := activation;
     weight := weight_value p; bias := bias_value p |}.

Record IntraSentenceAttention : Type := {
  isa_hidden_size : nat;
  isa_dropout_layer : Dropout;
  intra_attn_emb : HybridSequential
}.

(** [IntraSentenceAttention.__init__] *)
Definition IntraSentenceAttention_init (inp_size hidden_size : nat) (dropout : R)
    (p : StackParams) : IntraSentenceAttention :=
  let dropout_layer := {| rate := dropout |} in
  {| isa_hidden_size := hidden_size;
     isa_dropout_layer := dropout_layer;
     intra_attn_emb :=
       [ Dropout_block dropout_layer;
         Dense_block (Dense_init hidden_size inp_size (Some relu_activation) (layer1 p));
         Dropout_block dropout_layer;
         Dense_block (Dense_init hidden_size hidden_size (Some relu_activation) (layer2 p));
         Dense_block (Dense_init hidden_size hidden_size None (layer3 p)) ] |}.

Record DecomposableAttention : Type := {
  da_dropout_layer : Dropout;
  f : HybridSequential;
  g : HybridSequential;
  h : HybridSequential;
  da_hidden_size : nat;
  da_inp_size : nat
}.

Record DecomposableParams : Type := {
  f_params : StackParams;
  g_params : StackParams;
  h_params : StackParams
}.

(** [DecomposableAttention.__init__] *)
Definition DecomposableAttention_init (inp_size hidden_size num_class : nat) (dropout : R)
    (p : DecomposableParams) : DecomposableAttention :=
  let dropout_layer := {| rate := dropout |} in
  {| da_dropout_layer := dropout_layer;
     f :=
       [ Dropout_block dropout_layer;
         Dense_block (Dense_init hidden_size inp_size (Some relu_activation) (layer1 (f_params p)));
         Dropout_block dropout_layer;
         Dense_block (Dense_init hidden_size hidden_size (Some relu_activation) (layer2 (f_params p)));
         Dense_block (Dense_init hidden_size hidden_size None (layer3 (f_params p))) ];
     g :=
       [ Dropout_block dropout_layer;
         Dense_block (Dense_init hidden_size (hidden_size * 2) (Some relu_activation) (layer1 (g_params p)));
         Dropout_block dropout_layer;
         Dense_block (Dense_init hidden_size hidden_size (Some relu_activation) (layer2 (g_params p)));
         Dense_block (Dense_init hidden_size hidden_size None (layer3 (g_params p))) ];
     h :=
       [ Dropout_block dropout_layer;
         Dense_block (Dense_init hidden_size (hidden_size * 2) (Some relu_activation) (layer1 (h_params p)));
         Dropout_block dropout_layer;
         Dense_block (Dense_init hidden_size hidden_size (Some relu_activation) (layer2 (h_params p)));
         Dense_block (Dense_init num_class hidden_size None (layer3 (h_params p))) ];
     da_hidden_size := hidden_size;
     da_inp_size := inp_size |}.

Record NLIModel : Type := {
  word_embed_size : nat;
  hidden_size : nat;
  dropout_layer : Dropout;
  word_emb : Embedding;
  lin_proj : Dense;
  intra_attention : IntraSentenceAttention;
  model : DecomposableAttention
}.

Record NLIParams : Type := {
  word_emb_params : mat;
  lin_proj_params : DenseParams;
  intra_attention_params : StackParams;
  model_params : DecomposableParams
}.

(** [NLIModel.__init__] *)
Definition NLIModel_init (vocab_size word_embed_size hidden_size : nat) (dropout : R)
    (p : NLIParams) : NLIModel :=
  {| word_embed_size := word_embed_size;
     hidden_size := hidden_size;
     dropout_layer := {| rate := dropout |};
     word_emb := {| input_dim := vocab_size; output_dim := word_embed_size;
                    emb_weight := word_emb_params p |};
     lin_proj := Dense_init hidden_size word_embed_size (Some relu_activation) (lin_proj_params p);
     intra_attention :=
       IntraSentenceAttention_init hidden_size hidden_size dropout (intra_attention_params p);
     model :=
       DecomposableAttention_init (hidden_size * 2) hidden_size 3 dropout (model_params p) |}.

(** The parameter values have the shapes their layers declare. *)
Definition DenseParams_shape (units in_units : nat) (p : DenseParams) : Prop :=
  has_shape2 units in_units (weight_value p) /\ length (bias_value p) = units.

Definition StackParams_shape (inp hidden out : nat) (p : StackParams) : Prop :=
  DenseParams_shape hidden inp (layer1 p) /\
  DenseParams_shape hidden hidden (layer2 p) /\
  DenseParams_shape out hidden (layer3 p).

Definition DecomposableParams_shape (inp_size hidden_size num_class : nat)
    (p : DecomposableParams) : Prop :=
  StackParams_shape inp_size hidden_size hidden_size (f_params p) /\
  StackParams_shape (hidden_size * 2) hidden_size hidden_size (g_params p) /\
  StackParams_shape (hidden_size * 2) hidden_size num_class (h_params p).

Definition NLIParams_shape (vocab_size word_embed_size hidden_size : nat)
    (p : NLIParams) : Prop :=
  has_shape2 vocab_size word_embed_size (word_emb_params p) /\
  DenseParams_shape hidden_size word_embed_size (lin_proj_params p) /\
  StackParams_shape hidden_size hidden_size hidden_size (intra_attention_params p) /\
  DecomposableParams_shape (hidden_size * 2) hidden_size 3 (model_params p).

(** ** The engine: training flag and random generator *)

Record engine_state (RNG : Type) : Type := { is_training : bool; rng : RNG }.
Arguments is_training {RNG} e.
Arguments rng {RNG} e.

(** ** A small model

    For instances of the statements below: vocabulary of 2, embeddings of
    width 1, hidden size 1, every dense weight 1 and every bias 0; the random
    generator is a counter that keeps the entries drawn at even counts. *)

Module Small.

Definition bernoulli (_ : R) (gen : nat) : bool * nat := (Nat.even gen, S gen).

Definition st0 : engine_state nat := {| is_training := true; rng := 0%nat |}.
Definition st1 : engine_state nat := {| is_training := false; rng := 7%nat |}.

Definition dense (units in_units : nat) : DenseParams :=
  {| weight_value := repeat (repeat 1 in_units) units; bias_value := repeat 0 units |}.

Definition stack (inp hid out : nat) : StackParams :=
  {| layer1 := dense hid inp; layer2 := dense hid hid; layer3 := dense out hid |}.

Definition params : NLIParams :=
  {| word_emb_params := [[1]; [2]];
     lin_proj_params := dense 1 1;
     intra_attention_params := stack 1 1 1;
     model_params :=
       {| f_params := stack 2 1 1; g_params := stack 2 1 1; h_params := stack 2 1 3 |} |}.

Definition attention : DecomposableAttention :=
  DecomposableAttention_init 2 1 3 0 (model_params params).

End Small.

Section Engine.

Variable RNG : Type.

(** One Bernoulli draw with the given success probability. *)
Variable bernoulli : R -> RNG -> bool * RNG.

Local Abbreviation engine := (engine_state RNG).

Definition M (A : Type) : Type := engine -> result (A * engine).

Definition ret {A : Type} (a : A) : M A := fun st => Ok (a, st).

Definition bind {A B : Type} (c : M A) (k : A -> M B) : M B :=
  fun st =>
    match c st with
    | Ok (a, st') => k a st'
    | Err e => Err e
    end.

Definition lift {A : Type} (r : result A) : M A :=
  fun st =>
    match r with
    | Ok a => Ok (a, st)
    | Err e => Err e
    end.

Notation "x <- c ;; k" := (bind c (fun x => k))
  (at level 61, c at next level, right associativity).

(** The value a run returns, without the final engine state. *)
Definition value {A : Type} (r : result (A * engine)) : result A := result_map fst r.

Fixpoint mapM {A B : Type} (f : A -> M B) (l : list A) : M (list B) :=
  match l with
  | [] => ret []
  | x :: xs => y <- f x ;; ys <- mapM f xs ;; ret (y :: ys)
  end.

Fixpoint elementwise (n : nat) (f : R -> M R) : tensor n -> M (tensor n) :=
  match n with
  | O => f
  | S r => mapM (elementwise r f)
  end.

(** Modelled from the spec: the engine's [Dropout] operator with probability
    [p].  In training mode every entry is kept with probability [1 - p] and
    scaled by [1 / (1 - p)], or zeroed; outside training mode the operator is
    the identity. *)
Definition dropout_entry (p : R) (x : R) : M R :=
  fun st =>
    let (keep, gen) := bernoulli (1 - p) (rng st) in
    Ok (if keep then x * / (1 - p) else 0,
        {| is_training := is_training st; rng := gen |}).

(** Modelled from the spec: [F.Dropout(x, p)] on a whole array, one draw per
    entry. *)
Definition F_Dropout (n : nat) (p : R) (x : tensor n) : M (tensor n) :=
  fun st => if is_training st then elementwise n (dropout_entry p) x st else Ok (x, st).

(** Modelled from the spec: the layer [nn.Dropout(rate)] applied to an array;
    the operator is called only for a positive rate, and rate 0 disables
    dropout. *)
Definition Dropout_forward (n : nat) (d : Dropout) (x : tensor n) : M (tensor n) :=
  if Rlt_dec 0 (rate d) then F_Dropout n (rate d) x else ret x.

Definition Block_forward (n : nat) (l : Block) (x : tensor (S n)) : M (tensor (S n)) :=
  match l with
  | Dropout_block d => Dropout_forward (S n) d x
  | Dense_block d => lift (Dense_forward n d x)
  end.

Fixpoint HybridSequential_forward (n : nat) (layers : HybridSequential) (x : tensor (S n))
    : M (tensor (S n)) :=
  match layers with
  | [] => ret x
  | l :: ls => y <- Block_forward n l x ;; HybridSequential_forward n ls y
  end.

(** ** The forward passes *)

(** [IntraSentenceAttention.hybrid_forward] *)
Definition IntraSentenceAttention_hybrid_forward (self : IntraSentenceAttention)
    (feature_a : tensor3) : M tensor3 :=
  tilde_a <- HybridSequential_forward 2 (intra_attn_emb self) feature_a ;;
  e_matrix <- lift (batch_dot tilde_a tilde_a true) ;;
  alpha <- lift (batch_dot (softmax e_matrix) tilde_a false) ;;
  ret alpha.

(** [DecomposableAttention.hybrid_forward] *)
Definition DecomposableAttention_hybrid_forward (self : DecomposableAttention)
    (a b : tensor3) : M tensor2 :=
  tilde_a <- HybridSequential_forward 2 (f self) a ;;
  tilde_b <- HybridSequential_forward 2 (f self) b ;;
  e <- lift (batch_dot tilde_a tilde_b true) ;;
  beta <- lift (batch_dot (softmax e) tilde_b false) ;;
  alpha <- lift (batch_dot (softmax (transpose_021 e)) tilde_a false) ;;
  concat1 <- lift (concat3 tilde_a beta) ;;
  feature1 <- HybridSequential_forward 2 (g self) concat1 ;;
  concat2' <- lift (concat3 tilde_b alpha) ;;
  feature2 <- HybridSequential_forward 2 (g self) concat2' ;;
  let feature1 := mean_axis1 feature1 in
  let feature2 := mean_axis1 feature2 in
  pooled <- lift (concat2 feature1 feature2) ;;
  yhat <- HybridSequential_forward 1 (h self) pooled ;;
  ret yhat.

(** [NLIModel.hybrid_forward] *)
Definition NLIModel_hybrid_forward (self : NLIModel) (sentence1 sentence2 : list (list nat))
    : M tensor2 :=
  emb1 <- lift (Embedding_forward (word_emb self) sentence1) ;;
  dropped1 <- Dropout_forward 3 (dropout_layer self) emb1 ;;
  feature1 <- lift (Dense_forward 2 (lin_proj self) dropped1) ;;
  attended1 <- IntraSentenceAttention_hybrid_forward (intra_attention self) feature1 ;;
  feature1 <- lift (concat3 feature1 attended1) ;;
  emb2 <- lift (Embedding_forward (word_emb self) sentence2) ;;
  dropped2 <- Dropout_forward 3 (dropout_layer self) emb2 ;;
  feature2 <- lift (Dense_forward 2 (lin_proj self) dropped2) ;;
  attended2 <- IntraSentenceAttention_hybrid_forward (intra_attention self) feature2 ;;
  feature2 <- lift (concat3 feature2 attended2) ;;
  pred <- DecomposableAttention_hybrid_forward (model self) feature1 feature2 ;;
  ret pred.

(** *** Fragments of the forward passes, named for the statements about them *)

(** The sentence-1 path of [NLIModel.hybrid_forward] (its first two
    statements) and the sentence-2 path (the next two), each reading the
    layers it names in the source. *)
Definition NLIModel_sentence1_path (self : NLIModel) (sentence1 : list (list nat)) : M tensor3 :=
  emb1 <- lift (Embedding_forward (word_emb self) sentence1) ;;
  dropped1 <- Dropout_forward 3 (dropout_layer self) emb1 ;;
  feature1 <- lift (Dense_forward 2 (lin_proj self) dropped1) ;;
  attended1 <- IntraSentenceAttention_hybrid_forward (intra_attention self) feature1 ;;
  lift (concat3 feature1 attended1).

Definition NLIModel_sentence2_path (self : NLIModel) (sentence2 : list (list nat)) : M tensor3 :=
  emb2 <- lift (Embedding_forward (word_emb self) sentence2) ;;
  dropped2 <- Dropout_forward 3 (dropout_layer self) emb2 ;;
  feature2 <- lift (Dense_forward 2 (lin_proj self) dropped2) ;;
  attended2 <- IntraSentenceAttention_hybrid_forward (intra_attention self) feature2 ;;
  lift (concat3 feature2 attended2).

(** The embedding and projection stage alone:
    [lin_proj(dropout_layer(word_emb(sentence)))]. *)
Definition NLIModel_project (self : NLIModel) (sentence : list (list nat)) : M tensor3 :=
  emb <- lift (Embedding_forward (word_emb self) sentence) ;;
  dropped <- Dropout_forward 3 (dropout_layer self) emb ;;
  lift (Dense_forward 2 (lin_proj self) dropped).

(** The attention statements of [DecomposableAttention.hybrid_forward]: the
    score matrix [e] and the two soft alignments [beta] and [alpha]. *)
Definition DecomposableAttention_attention (tilde_a tilde_b : tensor3)
    : result (tensor3 * tensor3 * tensor3) :=
  match batch_dot tilde_a tilde_b true with
  | Err err => Err err
  | Ok e =>
      match batch_dot (softmax e) tilde_b false with
      | Err err => Err err
      | Ok beta =>
          match batch_dot (softmax (transpose_021 e)) tilde_a false with
          | Err err => Err err
          | Ok alpha => Ok (e, beta, alpha)
          end
      end
  end.

(** The compare, aggregate and predict statements that follow them. *)
Definition DecomposableAttention_compare_aggregate (self : DecomposableAttention)
    (tilde_a tilde_b beta alpha : tensor3) : M tensor2 :=
  concat1 <- lift (concat3 tilde_a beta) ;;
  feature1 <- HybridSequential_forward 2 (g self) concat1 ;;
  concat2' <- lift (concat3 tilde_b alpha) ;;
  feature2 <- HybridSequential_forward 2 (g self) concat2' ;;
  let feature1 := mean_axis1 feature1 in
  let feature2 := mean_axis1 feature2 in
  pooled <- lift (concat2 feature1 feature2) ;;
  yhat <- HybridSequential_forward 1 (h self) pooled ;;
  ret yhat.

(** The attention weights of [IntraSentenceAttention.hybrid_forward]. *)
Definition IntraSentenceAttention_weights (tilde_a : tensor3) : result tensor3 :=
  result_map softmax (batch_dot tilde_a tilde_a true).

(** The two attention weight arrays of [DecomposableAttention.hybrid_forward]:
    [e.softmax()] and [e.transpose([0, 2, 1]).softmax()]. *)
Definition DecomposableAttention_weights (tilde_a tilde_b : tensor3)
    : result (tensor3 * tensor3) :=
  result_map (fun e => (softmax e, softmax (transpose_021 e)))
    (batch_dot tilde_a tilde_b true).

(** ** What the blocks compute on one batch element

    The functions below follow the equations of the method: a stack of dense
    layers is a map on vectors, attention is a softmax-weighted sum, and the
    model scores one pair of sentences at a time.  The forward passes above are
    compared with them. *)

Fixpoint map_vectors (n : nat) (fn : vec -> vec) : tensor (S n) -> tensor (S n) :=
  match n with
  | O => fn
  | S r => map (map_vectors r fn)
  end.

(** The dense layers of a stack, composed; dropout layers contribute nothing. *)
Fixpoint stack_fn (layers : HybridSequential) (v : vec) : vec :=
  match layers with
  | [] => v
  | Dropout_block _ :: ls => stack_fn ls v
  | Dense_block d :: ls => stack_fn ls (Dense_fn d v)
  end.

(** A stack maps vectors of length [inp] to vectors of length [out]: each
    dense layer reads what the one before it writes, and holds as many weight
    rows and biases as it has units. *)
Fixpoint stack_wf (inp out : nat) (layers : HybridSequential) : Prop :=
  match layers with
  | [] => inp = out
  | Dropout_block _ :: ls => stack_wf inp out ls
  | Dense_block d :: ls =>
      in_units d = inp /\ length (weight d) = units d /\ length (bias d) = units d /\
      stack_wf (units d) out ls
  end.

(** Length of what a stack returns on a vector of length [n]: a dense layer
    returns one entry per weight row that has a bias. *)
Fixpoint out_len (layers : HybridSequential) (n : nat) : nat :=
  match layers with
  | [] => n
  | Dropout_block _ :: ls => out_len ls n
  | Dense_block d :: ls => out_len ls (Nat.min (length (weight d)) (length (bias d)))
  end.

Definition fixed_width (layers : HybridSequential) : Prop :=
  forall n n', out_len layers n = out_len layers n'.

Definition dropout_disabled (layers : HybridSequential) : Prop :=
  Forall (fun l => match l with Dropout_block d => rate d = 0 | Dense_block _ => True end) layers.

(** Soft alignment of the vector [u] to the rows of [t]: the sum of the rows
    weighted by the softmax of their inner products with [u]. *)
Definition attend (u : vec) (t : mat) : vec :=
  map (dot (softmax_vec (map (dot u) t))) (transpose t).

(** Every row of [m] aligned to [m] itself. *)
Definition self_attend (m : mat) : mat := map (fun u => attend u m) m.

Definition intra_example (self : IntraSentenceAttention) (feature : mat) : mat :=
  self_attend (map (stack_fn (intra_attn_emb self)) feature).

(** Compare, aggregate and predict, from the attended features of one pair. *)
Definition compare_example (self : DecomposableAttention) (tilde_a tilde_b : mat) : vec :=
  let v1 := map (fun u => stack_fn (g self) (u ++ attend u tilde_b)) tilde_a in
  let v2 := map (fun v => stack_fn (g self) (v ++ attend v tilde_a)) tilde_b in
  stack_fn (h self) (mean_rows v1 ++ mean_rows v2).

Definition decomposable_example (self : DecomposableAttention) (a b : mat) : vec :=
  compare_example self (map (stack_fn (f self)) a) (map (stack_fn (f self)) b).

(** Every batch element has at least one position. *)
Definition nonempty {A : Type} (x : list (list A)) : Prop := Forall (fun m => m <> []) x.

Definition project_example (self : NLIModel) (sentence : list nat) : mat :=
  map (fun i => Dense_fn (lin_proj self) (nth i (emb_weight (word_emb self)) [])) sentence.

Definition encode_example (self : NLIModel) (sentence : list nat) : mat :=
  let feature := project_example self sentence in
  zipWith (@app R) feature (intra_example (intra_attention self) feature).

Definition NLI_example (self : NLIModel) (sentence1 sentence2 : list nat) : vec :=
  decomposable_example (model self) (encode_example self sentence1) (encode_example self sentence2).

(** Both halves of a pair have rows of length [k] and at least one row. *)
Definition pair_ok (k : nat) (am tm : mat) : Prop :=
  (Forall (fun v => length v = k) am /\ am <> []) /\
  (Forall (fun v => length v = k) tm /\ tm <> []).

(** A computation that neither reads nor writes the engine: it is one fixed
    result, whatever state it is run from. *)
Definition state_independent {A : Type} (c : M A) : Prop :=
  exists r : result A, forall st, c st = lift r st.

(** Entry [[n, i, k]] of a rank-3 array. *)
Definition entry3 (x : tensor3) (n i k : nat) : R := nth k (nth i (nth n x []) []) 0.

(** *** The attention equations, entry by entry

    Written from the equations of the method, with explicit indices: the score
    of positions [i] and [j] of batch element [n], the alignment [beta] of
    [rhs] to the positions of [lhs] (softmax over [j], the positions of
    [rhs]), and the alignment [alpha] of [lhs] to the positions of [rhs]
    (softmax over [i], the positions of [lhs]). *)
Definition spec_score (lhs rhs : tensor3) (H : nat) (n i j : nat) : R :=
  big_sum H (fun k => entry3 lhs n i k * entry3 rhs n j k).

Definition spec_beta (lhs rhs : tensor3) (H L2 : nat) (n i k : nat) : R :=
  big_sum L2 (fun j =>
    exp (spec_score lhs rhs H n i j) / big_sum L2 (fun j' => exp (spec_score lhs rhs H n i j'))
    * entry3 rhs n j k).

Definition spec_alpha (lhs rhs : tensor3) (H L1 : nat) (n j k : nat) : R :=
  big_sum L1 (fun i =>
    exp (spec_score lhs rhs H n i j) / big_sum L1 (fun i' => exp (spec_score lhs rhs H n i' j))
    * entry3 lhs n i k).

(** Every row (last axis) of an array of attention weights sums to 1. *)
Definition rows_sum_to_one (w : tensor3) : Prop :=
  Forall (Forall (fun row => Rsum row = 1)) w.

(** A computation whose only failure is a dimension mismatch. *)
Definition shape_errors_only {A : Type} (c : M A) : Prop :=
  forall st e, c st = Err e -> e = DimensionMismatch.

(** Every index of a token array is below [vocab_size]. *)
Definition tokens_in_range (vocab_size : nat) (x : list (list nat)) : Prop :=
  Forall (Forall (fun i => (i < vocab_size)%nat)) x.

(** An input the forward pass accepts: indices below [vocab_size], one batch
    size for both arguments, no empty sentence. *)
Definition valid_input (vocab_size : nat) (sentence1 sentence2 : list (list nat)) : Prop :=
  tokens_in_range vocab_size sentence1 /\ tokens_in_range vocab_size sentence2 /\
  length sentence1 = length sentence2 /\ nonempty sentence1 /\ nonempty sentence2.

(** A run from the engine state [st] returns, and [Q] holds of what it returns
    and of the engine state it leaves. *)
Definition returns {A : Type} (c : M A) (st : engine) (Q : A -> engine -> Prop) : Prop :=
  exists a st', c st = Ok (a, st') /\ Q a st'.

(** Two stacks with the same dense layers in the same places; their dropout
    layers may have different rates. *)
Definition same_dense_layers (layers layers' : HybridSequential) : Prop :=
  Forall2 (fun l l' =>
    match l, l' with
    | Dropout_block _, Dropout_block _ => True
    | Dense_block d, Dense_block d' => d = d'
    | _, _ => False
    end) layers layers'.

(** Outside training mode the computation [c] is one fixed result and leaves
    the engine as it is; [c0] is that same result from every engine state. *)
Definition evaluates_as {A : Type} (c c0 : M A) : Prop :=
  exists r : result A,
    (forall st, is_training st = false -> c st = lift r st) /\
    (forall st, c0 st = lift r st).

(** Every entry of a rank-3 array satisfies [P]. *)
Definition all_entries (P : R -> Prop) (x : tensor3) : Prop :=
  Forall (Forall (Forall P)) x.

(** ** The operators on small arrays *)

Example transpose_2x3 :
  transpose [[1; 2; 3]; [4; 5; 6]] = [[1; 4]; [2; 5]; [3; 6]].
Proof. reflexivity. Qed.

Example dot_2 : dot [1; 2] [3; 4] = 11.
Proof. unfold dot. simpl. lra. Qed.

Example batch_dot_scores :
  batch_dot [[[1; 2]; [0; 1]]] [[[3; 4]]] true = Ok [[[dot [1; 2] [3; 4]]; [dot [0; 1] [3; 4]]]].
Proof. reflexivity. Qed.

Example batch_dot_inner_mismatch :
  batch_dot [[[1; 2]]] [[[3]]] true = Err DimensionMismatch.
Proof. reflexivity. Qed.

Example batch_dot_batch_size_mismatch :
  batch_dot [[[1]]; [[2]]] [[[3]]] true = Err DimensionMismatch.
Proof. reflexivity. Qed.

Example concat3_rows :
  concat3 [[[1]; [2]]] [[[3; 4]; [5; 6]]] = Ok [[[1; 3; 4]; [2; 5; 6]]].
Proof. reflexivity. Qed.

Example concat3_length_mismatch :
  concat3 [[[1]; [2]]] [[[3; 4]]] = Err DimensionMismatch.
Proof. reflexivity. Qed.

Example softmax_vec_uniform : softmax_vec [0; 0] = [1 / 2; 1 / 2].
Proof. unfold softmax_vec. simpl. rewrite exp_0. repeat f_equal; field. Qed.

Example mean_rows_2x2 : mean_rows [[1; 2]; [3; 4]] = [2; 3].
Proof. unfold mean_rows. simpl. repeat f_equal; field. Qed.

Example Dense_fn_relu :
  Dense_fn {| units := 2; in_units := 1; activation := Some relu_activation;
              weight := [[1]; [-1]]; bias := [0; 0] |} [3] = [3; 0].
Proof.
  unfold Dense_fn, dot. simpl. unfold relu.
  rewrite Rmax_left by lra. rewrite Rmax_right by lra. repeat f_equal; lra.
Qed.

Example Dense_apply_wrong_width :
  Dense_apply {| units := 2; in_units := 1; activation := None;
                 weight := [[1]; [-1]]; bias := [0; 0] |} [3; 4] = Err DimensionMismatch.
Proof. reflexivity. Qed.

Example Embedding_forward_in_range :
  Embedding_forward {| input_dim := 2; output_dim := 1; emb_weight := [[1]; [2]] |}
    [[1; 0]; [1; 1]]%nat = Ok [[[2]; [1]]; [[2]; [2]]].
Proof. reflexivity. Qed.

Example Embedding_forward_beyond_table :
  Embedding_forward {| input_dim := 2; output_dim := 1; emb_weight := [[1]; [2]] |}
    [[1; 0]; [2; 1]]%nat = Err IndexOutOfBounds.
Proof. reflexivity. Qed.

(** ** Lists and sums *)

Lemma zipWith_length {A B C : Type} (fn : A -> B -> C) (l : list A) (l' : list B) :
  length (zipWith fn l l') = Nat.min (length l) (length l').
Proof.
  revert l'; induction l as [|x xs IH]; intros [|y ys]; simpl; auto.
Qed.

Lemma zipWith_map {A A' B B' C : Type} (fn : A' -> B' -> C) (p : A -> A') (q : B -> B')
    (l : list A) (l' : list B) :
  zipWith fn (map p l) (map q l') = zipWith (fun x y => fn (p x) (q y)) l l'.
Proof.
  revert l'; induction l as [|x xs IH]; intros [|y ys]; simpl; auto.
  now rewrite IH.
Qed.

Lemma zipWith_map_r {A B B' C : Type} (fn : A -> B' -> C) (q : B -> B')
    (l : list A) (l' : list B) :
  zipWith fn l (map q l') = zipWith (fun x y => fn x (q y)) l l'.
Proof.
  revert l'; induction l as [|x xs IH]; intros [|y ys]; simpl; auto.
  now rewrite IH.
Qed.

Lemma zipWith_diag {A C : Type} (fn : A -> A -> C) (l : list A) :
  zipWith fn l l = map (fun x => fn x x) l.
Proof.
  induction l as [|x xs IH]; simpl; auto. now rewrite IH.
Qed.

Lemma map_zipWith {A B C D : Type} (fn : A -> B -> C) (p : C -> D) (l : list A) (l' : list B) :
  map p (zipWith fn l l') = zipWith (fun x y => p (fn x y)) l l'.
Proof.
  revert l'; induction l as [|x xs IH]; intros [|y ys]; simpl; auto.
  now rewrite IH.
Qed.

Lemma zipWith_zipWith_l {A B C D : Type} (fn : C -> B -> D) (p : A -> B -> C)
    (l : list A) (l' : list B) :
  zipWith fn (zipWith p l l') l' = zipWith (fun x y => fn (p x y) y) l l'.
Proof.
  revert l'; induction l as [|x xs IH]; intros [|y ys]; simpl; auto.
  now rewrite IH.
Qed.

Lemma zipWith_zipWith_r {A B C D : Type} (fn : A -> C -> D) (p : A -> B -> C)
    (l : list A) (l' : list B) :
  zipWith fn l (zipWith p l l') = zipWith (fun x y => fn x (p x y)) l l'.
Proof.
  revert l'; induction l as [|x xs IH]; intros [|y ys]; simpl; auto.
  now rewrite IH.
Qed.

Lemma zipWith_zipWith {A B C D E : Type} (fn : C -> D -> E) (p : A -> B -> C) (q : A -> B -> D)
    (l : list A) (l' : list B) :
  zipWith fn (zipWith p l l') (zipWith q l l') = zipWith (fun x y => fn (p x y) (q x y)) l l'.
Proof.
  revert l'; induction l as [|x xs IH]; intros [|y ys]; simpl; auto.
  now rewrite IH.
Qed.

Lemma zipWith_ext_in {A B C : Type} (fn fn' : A -> B -> C) (l : list A) (l' : list B) :
  (forall x y, In x l -> In y l' -> fn x y = fn' x y) -> zipWith fn l l' = zipWith fn' l l'.
Proof.
  revert l'; induction l as [|x xs IH]; intros [|y ys] E; simpl; auto.
  rewrite E by (simpl; auto). f_equal. apply IH. intros; apply E; simpl; auto.
Qed.

Lemma nth_error_zipWith {A B C : Type} (fn : A -> B -> C) (l : list A) (l' : list B) (i : nat) :
  nth_error (zipWith fn l l') i =
  match nth_error l i, nth_error l' i with
  | Some x, Some y => Some (fn x y)
  | _, _ => None
  end.
Proof.
  revert l l'; induction i as [|i IH]; intros [|x xs] [|y ys]; simpl; auto.
  destruct (nth_error xs i); reflexivity.
Qed.

Lemma Forall2_same {A : Type} (P : A -> A -> Prop) (l : list A) :
  Forall (fun x => P x x) l -> Forall2 P l l.
Proof.
  induction 1; constructor; auto.
Qed.

Lemma Forall2_of_Forall {A B : Type} {P : A -> Prop} {Q : B -> Prop} {l : list A} {l' : list B} :
  length l = length l' -> Forall P l -> Forall Q l' -> Forall2 (fun x y => P x /\ Q y) l l'.
Proof.
  revert l'; induction l as [|x xs IH]; intros [|y ys] E Hl Hl'; simpl in E; try discriminate.
  - constructor.
  - inversion Hl; inversion Hl'; subst. constructor; auto.
Qed.

Lemma Forall2_map_l {A A' B : Type} (P : A' -> B -> Prop) (p : A -> A') (l : list A) (l' : list B) :
  Forall2 P (map p l) l' <-> Forall2 (fun x y => P (p x) y) l l'.
Proof.
  split.
  - revert l'; induction l as [|x xs IH]; intros l' E; inversion E; subst; constructor; auto.
  - induction 1; simpl; constructor; auto.
Qed.

Lemma Forall2_map_r {A B B' : Type} (P : A -> B' -> Prop) (q : B -> B') (l : list A) (l' : list B) :
  Forall2 P l (map q l') <-> Forall2 (fun x y => P x (q y)) l l'.
Proof.
  split.
  - revert l; induction l' as [|y ys IH]; intros l E; inversion E; subst; constructor; auto.
  - induction 1; simpl; constructor; auto.
Qed.

Lemma Forall2_impl {A B : Type} (P Q : A -> B -> Prop) (l : list A) (l' : list B) :
  (forall x y, P x y -> Q x y) -> Forall2 P l l' -> Forall2 Q l l'.
Proof.
  induction 2; constructor; auto.
Qed.

Lemma Forall2_conj {A B : Type} {P Q : A -> B -> Prop} {l : list A} {l' : list B} :
  Forall2 P l l' -> Forall2 Q l l' -> Forall2 (fun x y => P x y /\ Q x y) l l'.
Proof.
  induction 1; intros E; inversion E; subst; constructor; auto.
Qed.

Lemma Forall2_trans {A : Type} (P : A -> A -> Prop) (l1 l2 l3 : list A) :
  (forall x y z, P x y -> P y z -> P x z) -> Forall2 P l1 l2 -> Forall2 P l2 l3 -> Forall2 P l1 l3.
Proof.
  intros T E; revert l3; induction E; intros l3 E'; inversion E'; subst; constructor; eauto.
Qed.

Lemma Forall2_zipWith {A B C D : Type} (P : C -> D -> Prop) (fn : A -> B -> C)
    (l : list A) (l' : list B) (k : list D) :
  Forall2 (fun xy z => P (fn (fst xy) (snd xy)) z) (combine l l') k ->
  Forall2 P (zipWith fn l l') k.
Proof.
  revert l' k; induction l as [|x xs IH]; intros [|y ys] k E; simpl in *;
    inversion E; subst; constructor; auto.
Qed.

Lemma Rsum_perm {l l' : list R} : Permutation l l' -> Rsum l = Rsum l'.
Proof.
  induction 1; simpl; lra.
Qed.

Lemma Rsum_map_div {A : Type} (fn : A -> R) (c : R) (l : list A) :
  Rsum (map (fun x => fn x / c) l) = Rsum (map fn l) / c.
Proof.
  induction l as [|x xs IH]; simpl; [unfold Rdiv; lra | rewrite IH; unfold Rdiv; lra].
Qed.

Lemma Rsum_exp_pos (l : list R) : l <> [] -> 0 < Rsum (map exp l).
Proof.
  destruct l as [|x xs]; [congruence | intros _].
  simpl. assert (0 <= Rsum (map exp xs)).
  { induction xs as [|y ys IH]; simpl; [lra | pose proof (exp_pos y); lra]. }
  pose proof (exp_pos x). lra.
Qed.

Lemma dot_map_map {A : Type} (p q : A -> R) (l : list A) :
  dot (map p l) (map q l) = Rsum (map (fun x => p x * q x) l).
Proof.
  unfold dot. now rewrite zipWith_map, zipWith_diag.
Qed.

Lemma dot_comm (u v : vec) : dot u v = dot v u.
Proof.
  unfold dot. f_equal. revert v; induction u as [|x xs IH]; intros [|y ys]; simpl; auto.
  rewrite IH. f_equal. lra.
Qed.

Lemma softmax_vec_map {A : Type} (p : A -> R) (l : list A) :
  softmax_vec (map p l) =
  map (fun x => exp (p x) / Rsum (map (fun y => exp (p y)) l)) l.
Proof.
  unfold softmax_vec. now rewrite !map_map.
Qed.

Lemma softmax_vec_length (v : vec) : length (softmax_vec v) = length v.
Proof.
  unfold softmax_vec. now rewrite !length_map.
Qed.

Lemma softmax_vec_sum (v : vec) : v <> [] -> Rsum (softmax_vec v) = 1.
Proof.
  intros Hv. unfold softmax_vec. rewrite Rsum_map_div, map_id.
  pose proof (@Rsum_exp_pos v Hv). field. lra.
Qed.

(** ** Matrices *)

Lemma map_nth_seq {A B : Type} (fn : A -> B) (d : A) (l : list A) :
  map (fun j => fn (nth j l d)) (seq 0 (length l)) = map fn l.
Proof.
  induction l as [|x xs IH]; simpl; auto.
  f_equal. rewrite <- seq_shift, map_map. exact IH.
Qed.

Lemma dot_nil_r (u : vec) : dot u [] = 0.
Proof.
  destruct u; reflexivity.
Qed.

Lemma transpose_length (m : mat) : length (transpose m) = width m.
Proof.
  unfold transpose. now rewrite length_map, length_seq.
Qed.

Lemma transpose_rows (m : mat) : Forall (fun c => length c = length m) (transpose m).
Proof.
  unfold transpose. apply Forall_forall. intros c Hc.
  apply in_map_iff in Hc as (j & <- & _). unfold column. now rewrite length_map.
Qed.

Lemma width_uniform (k : nat) (m : mat) :
  Forall (fun r => length r = k) m -> m <> [] -> width m = k.
Proof.
  destruct m as [|r rs]; [congruence|]. intros Hm _. now inversion Hm.
Qed.

Lemma width_perm {k : nat} {m m' : mat} :
  Permutation m m' -> Forall (fun r => length r = k) m -> width m = width m'.
Proof.
  intros P Hm. destruct m as [|r rs].
  - apply Permutation_nil in P. now subst.
  - assert (Hm' : Forall (fun r => length r = k) m').
    { apply Forall_forall. intros x Hx. rewrite Forall_forall in Hm.
      apply Hm. eapply Permutation_in; [apply Permutation_sym, P | exact Hx]. }
    rewrite (@width_uniform k (r :: rs)), (@width_uniform k m'); auto; try congruence.
    intros ->. apply Permutation_sym, Permutation_nil in P. discriminate.
Qed.

Lemma width_map_const {A : Type} (fn : A -> vec) (k : nat) (l : list A) :
  (forall x, length (fn x) = k) -> l <> [] -> width (map fn l) = k.
Proof.
  intros E Hl. apply width_uniform.
  - apply Forall_forall. intros r Hr. apply in_map_iff in Hr as (x & <- & _). apply E.
  - destruct l; simpl; congruence.
Qed.

Lemma transpose_matmul_nt (a b' : mat) :
  a <> [] -> transpose (matmul_nt a b') = matmul_nt b' a.
Proof.
  intros Ha. unfold transpose, matmul_nt.
  assert (Hw : width (map (fun u => map (dot u) b') a) = length b').
  { apply width_map_const; auto. intros; now rewrite length_map. }
  rewrite Hw.
  rewrite <- (map_nth_seq (fun v => map (dot v) a) [] b').
  apply map_ext. intros j. unfold column. rewrite map_map.
  apply map_ext. intros u.
  rewrite <- (dot_nil_r u). rewrite map_nth. apply dot_comm.
Qed.

Lemma attend_formula (u : vec) (t : mat) :
  attend u t =
  map (fun j => Rsum (map (fun r =>
         exp (dot u r) / Rsum (map (fun r' => exp (dot u r')) t) * nth j r 0) t))
      (seq 0 (width t)).
Proof.
  unfold attend, transpose. rewrite map_map. apply map_ext. intros j.
  unfold column. rewrite softmax_vec_map. apply dot_map_map.
Qed.

Lemma attend_length (u : vec) (t : mat) : length (attend u t) = width t.
Proof.
  unfold attend. now rewrite length_map, transpose_length.
Qed.

Lemma attend_perm (k : nat) (u : vec) (t t' : mat) :
  Permutation t t' -> Forall (fun r => length r = k) t -> attend u t = attend u t'.
Proof.
  intros P Ht. rewrite !attend_formula, (width_perm P Ht).
  apply map_ext. intros j.
  rewrite (Rsum_perm (Permutation_map (fun r' => exp (dot u r')) P)).
  apply Rsum_perm, Permutation_map, P.
Qed.

Lemma mean_rows_length (m : mat) : length (mean_rows m) = width m.
Proof.
  unfold mean_rows. now rewrite length_map, transpose_length.
Qed.

Lemma mean_rows_perm (k : nat) (m m' : mat) :
  Permutation m m' -> Forall (fun r => length r = k) m -> mean_rows m = mean_rows m'.
Proof.
  intros P Hm. unfold mean_rows, transpose. rewrite !map_map, (width_perm P Hm).
  rewrite (Permutation_length P). apply map_ext. intros j. f_equal.
  apply Rsum_perm. unfold column. apply Permutation_map, P.
Qed.

(** Row [u] of [softmax(a . b^T) . b] is the soft alignment of [u] to [b]. *)
Lemma matmul_softmax_attend (a t : mat) :
  matmul_nt (map softmax_vec (matmul_nt a t)) (transpose t) = map (fun u => attend u t) a.
Proof.
  unfold matmul_nt at 1 2. rewrite !map_map. apply map_ext. intros u. reflexivity.
Qed.

(** ** Runs of the engine *)

Lemma returns_ret {A : Type} (a : A) (st : engine) (Q : A -> engine -> Prop) :
  Q a st -> returns (ret a) st Q.
Proof.
  intros HQ. exists a, st. split; [reflexivity | exact HQ].
Qed.

Lemma returns_bind {A B : Type} (c : M A) (k : A -> M B) (st : engine)
    (P : A -> engine -> Prop) (Q : B -> engine -> Prop) :
  returns c st P ->
  (forall a st', P a st' -> returns (k a) st' Q) ->
  returns (bind c k) st Q.
Proof.
  intros (a & st' & E & HP) Hk. destruct (Hk a st' HP) as (y & st'' & E' & HQ).
  exists y, st''. split; [|exact HQ]. unfold bind. now rewrite E.
Qed.

Lemma returns_lift {A : Type} (r : result A) (a : A) (st : engine) (Q : A -> engine -> Prop) :
  r = Ok a -> Q a st -> returns (lift r) st Q.
Proof.
  intros -> HQ. exists a, st. split; [reflexivity | exact HQ].
Qed.

Lemma returns_weaken {A : Type} (c : M A) (st : engine) (P Q : A -> engine -> Prop) :
  returns c st P -> (forall a st', P a st' -> Q a st') -> returns c st Q.
Proof.
  intros (a & st' & E & HP) I. exists a, st'. auto.
Qed.

Lemma returns_mapM {A B : Type} (fn : A -> M B) (P : A -> B -> Prop) (l : list A) (st : engine) :
  (forall x st0, returns (fn x) st0 (fun y _ => P x y)) ->
  returns (mapM fn l) st (fun ys _ => Forall2 P l ys).
Proof.
  intros Hf. revert st. induction l as [|x xs IH]; intros st; simpl.
  - apply returns_ret. constructor.
  - eapply returns_bind; [apply Hf|]. intros y st1 Hy.
    eapply returns_bind; [apply IH|]. intros ys st2 Hys.
    apply returns_ret. now constructor.
Qed.

Lemma returns_elementwise (n : nat) (fn : R -> M R) (x : tensor n) (st : engine) :
  (forall r st0, returns (fn r) st0 (fun _ _ => True)) ->
  returns (elementwise n fn x) st (fun y _ => same_shape n x y).
Proof.
  intros Hf. revert x st. induction n as [|n IH]; intros x st; simpl.
  - eapply returns_weaken; [apply Hf | auto].
  - apply returns_mapM. intros; apply IH.
Qed.

(** A dropout layer returns an array of the shape it received; with rate 0 it
    returns the array itself and leaves the engine untouched. *)
Lemma Dropout_forward_returns (n : nat) (d : Dropout) (x : tensor n) (st : engine) :
  returns (Dropout_forward n d x) st
    (fun y st' => same_shape n x y /\ (rate d = 0 -> y = x /\ st' = st)).
Proof.
  assert (Hrefl : forall k (t : tensor k), same_shape k t t).
  { induction k as [|k IH]; simpl; auto. intros t. apply Forall2_same, Forall_forall. auto. }
  unfold Dropout_forward. destruct (Rlt_dec 0 (rate d)) as [Hpos|Hnpos].
  - unfold F_Dropout, returns. destruct (is_training st) eqn:Htr.
    + destruct (@returns_elementwise n (dropout_entry (rate d)) x st) as (y & st' & E & Hy).
      { intros r st0. unfold returns, dropout_entry.
        destruct (bernoulli (1 - rate d) (rng st0)); eauto. }
      exists y, st'. repeat split; auto; lra.
    + exists x, st. repeat split; auto.
  - apply returns_ret. auto.
Qed.

Lemma mapR_ok {A B : Type} (fn : A -> result B) (p : A -> B) (l : list A) :
  Forall (fun x => fn x = Ok (p x)) l -> mapR fn l = Ok (map p l).
Proof.
  induction 1 as [|x xs E _ IH]; simpl; auto. now rewrite E, IH.
Qed.

Lemma on_vectors_ok (n : nat) (fn : vec -> result vec) (p : vec -> vec) (x : tensor (S n)) :
  all_vectors n (fun v => fn v = Ok (p v)) x -> on_vectors n fn x = Ok (map_vectors n p x).
Proof.
  revert x. induction n as [|n IH]; simpl; intros x Hx; auto.
  apply mapR_ok. eapply Forall_impl; [|exact Hx]. auto.
Qed.

Lemma all_vectors_impl (n : nat) (P Q : vec -> Prop) (x : tensor (S n)) :
  (forall v, P v -> Q v) -> all_vectors n P x -> all_vectors n Q x.
Proof.
  intros I. revert x. induction n as [|n IH]; simpl; intros x Hx; auto.
  eapply Forall_impl; [|exact Hx]. auto.
Qed.

Lemma all_vectors_map (n : nat) (P : vec -> Prop) (p : vec -> vec) (x : tensor (S n)) :
  all_vectors n (fun v => P (p v)) x -> all_vectors n P (map_vectors n p x).
Proof.
  revert x. induction n as [|n IH]; simpl; intros x Hx; auto.
  apply Forall_map. eapply Forall_impl; [|exact Hx]. auto.
Qed.

Lemma all_vectors_true (n : nat) (P : vec -> Prop) (x : tensor (S n)) :
  (forall v, P v) -> all_vectors n P x.
Proof.
  intros HP. revert x. induction n as [|n IH]; simpl; intros x; auto.
  apply Forall_forall. auto.
Qed.

Lemma map_vectors_compose (n : nat) (p q : vec -> vec) (x : tensor (S n)) :
  map_vectors n q (map_vectors n p x) = map_vectors n (fun v => q (p v)) x.
Proof.
  revert x. induction n as [|n IH]; simpl; intros x; auto.
  rewrite map_map. apply map_ext. auto.
Qed.

Lemma same_outer_refl (n : nat) (x : tensor (S n)) : same_outer n x x.
Proof.
  revert x. induction n as [|n IH]; simpl; intros x; auto.
  apply Forall2_same, Forall_forall. auto.
Qed.

Lemma same_outer_trans (n : nat) (x y z : tensor (S n)) :
  same_outer n x y -> same_outer n y z -> same_outer n x z.
Proof.
  revert x y z. induction n as [|n IH]; simpl; intros x y z Hxy Hyz; auto.
  eapply Forall2_trans; eauto.
Qed.

Lemma same_outer_map_vectors (n : nat) (p : vec -> vec) (x : tensor (S n)) :
  same_outer n x (map_vectors n p x).
Proof.
  revert x. induction n as [|n IH]; simpl; intros x; auto.
  apply Forall2_map_r, Forall2_same, Forall_forall. auto.
Qed.

Lemma same_shape_outer (n : nat) (x y : tensor (S n)) :
  same_shape (S n) x y -> same_outer n x y.
Proof.
  revert x y. induction n as [|n IH]; intros x y Hxy; [exact I|].
  simpl in *. eapply Forall2_impl; [|exact Hxy]. intros; now apply IH.
Qed.

Lemma same_shape_all_len (n k : nat) (x y : tensor (S n)) :
  same_shape (S n) x y -> all_len n k x -> all_len n k y.
Proof.
  unfold all_len. revert x y. induction n as [|n IH]; intros x y Hxy Hx.
  - simpl in *. now rewrite <- (Forall2_length Hxy).
  - change (Forall2 (same_shape (S n)) x y) in Hxy.
    change (Forall (all_vectors n (fun v => length v = k)) x) in Hx.
    change (Forall (all_vectors n (fun v => length v = k)) y).
    induction Hxy; inversion Hx; subst; constructor; eauto.
Qed.

Lemma Dense_fn_length (d : Dense) (v : vec) :
  length (weight d) = units d -> length (bias d) = units d ->
  length (Dense_fn d v) = units d.
Proof.
  intros Hw Hb. unfold Dense_fn. rewrite length_map, zipWith_length, length_map. lia.
Qed.

Lemma Dense_forward_ok (n : nat) (d : Dense) (x : tensor (S n)) :
  all_len n (in_units d) x ->
  Dense_forward n d x = Ok (map_vectors n (Dense_fn d) x).
Proof.
  intros Hx. apply on_vectors_ok. eapply all_vectors_impl; [|exact Hx].
  intros v Hv. simpl in Hv. unfold Dense_apply. now rewrite Hv, Nat.eqb_refl.
Qed.

Lemma dropout_disabled_tail {l : Block} {ls : HybridSequential} :
  dropout_disabled (l :: ls) -> dropout_disabled ls.
Proof.
  intros D. now inversion D.
Qed.

(** A well-formed stack returns on every array of input vectors of the right
    length; the result has output vectors of the right length on the same
    outer shape, and when dropout is disabled it is the stack's function
    applied to every vector, with the engine untouched. *)
Lemma HybridSequential_forward_returns (n inp out : nat) (layers : HybridSequential)
    (x : tensor (S n)) (st : engine) :
  stack_wf inp out layers -> all_len n inp x ->
  returns (HybridSequential_forward n layers x) st
    (fun y st' => all_len n out y /\ same_outer n x y /\
       (dropout_disabled layers -> y = map_vectors n (stack_fn layers) x /\ st' = st)).
Proof.
  revert inp x st. induction layers as [|l ls IH]; intros inp x st Hwf Hx; simpl in *.
  - subst. apply returns_ret. repeat split; auto using same_outer_refl.
    clear. revert x. induction n as [|n IH]; simpl; intros x; auto.
    rewrite <- (map_id x) at 1. apply map_ext. auto.
  - destruct l as [d|d]; simpl.
    + eapply returns_bind; [exact (Dropout_forward_returns (S n) d x st)|].
      intros y st1 (Hs & Hz).
      eapply returns_weaken; [apply (IH inp); eauto using same_shape_all_len|].
      intros z st2 (Hl & Ho & Hv). split; [exact Hl|]. split.
      * eapply same_outer_trans; [apply same_shape_outer; exact Hs | exact Ho].
      * intros D. inversion D as [|? ? Hr D']; subst.
        destruct (Hz Hr) as [-> ->]. auto.
    + destruct Hwf as (Hin & Hw & Hb & Hwf). subst inp.
      apply returns_bind with (P := fun y st' => y = map_vectors n (Dense_fn d) x /\ st' = st).
      { eapply returns_lift; [apply Dense_forward_ok; exact Hx|]. split; reflexivity. }
      intros y st1 [-> ->].
      eapply returns_weaken.
      { apply (IH (units d)); auto. apply all_vectors_map.
        apply all_vectors_true. intros; now apply Dense_fn_length. }
      intros z st2 (Hl & Ho & Hv). split; [exact Hl|]. split.
      * eapply same_outer_trans; [apply same_outer_map_vectors | exact Ho].
      * intros D. destruct (Hv (dropout_disabled_tail D)) as [-> ->].
        split; [apply map_vectors_compose | reflexivity].
Qed.

(** ** The operators on well-shaped arguments *)

Lemma forallb_combine {A B : Type} (p : A * B -> bool) (l : list A) (l' : list B) :
  Forall2 (fun x y => p (x, y) = true) l l' -> forallb p (combine l l') = true.
Proof.
  induction 1 as [|x y xs ys E _ IH]; simpl; auto. now rewrite E, IH.
Qed.

Lemma all_len2_unfold (k : nat) (x : tensor3) :
  all_len 2 k x <-> Forall (Forall (fun v => length v = k)) x.
Proof.
  reflexivity.
Qed.

Lemma all_len1_unfold (k : nat) (x : tensor2) :
  all_len 1 k x <-> Forall (fun v => length v = k) x.
Proof.
  reflexivity.
Qed.

Lemma same_outer2_unfold (x y : tensor3) :
  same_outer 2 x y <-> Forall2 (fun m m' : mat => length m = length m') x y.
Proof.
  simpl. split; intros E; eapply Forall2_impl; try exact E; simpl.
  - intros m m' E'. exact (Forall2_length E').
  - intros m m'. revert m'. induction m as [|r rs IH]; intros [|r' rs'] E'; simpl in E';
      try discriminate; constructor; auto.
Qed.

Lemma same_outer1_unfold (x y : tensor2) :
  same_outer 1 x y <-> length x = length y.
Proof.
  simpl. split; [apply Forall2_length|].
  revert y. induction x as [|r rs IH]; intros [|r' rs'] E; simpl in E;
    try discriminate; constructor; auto.
Qed.

Lemma batch_dot_nt_ok (k : nat) (a t : tensor3) :
  length a = length t -> all_len 2 k a -> all_len 2 k t ->
  batch_dot a t true = Ok (zipWith matmul_nt a t).
Proof.
  intros E Ha Ht. unfold batch_dot, batch_dot_shape_ok.
  rewrite E, Nat.eqb_refl. simpl. rewrite forallb_combine; [reflexivity|].
  apply all_len2_unfold in Ha, Ht.
  eapply Forall2_impl; [|exact (Forall2_of_Forall E Ha Ht)].
  intros m m' [Hm Hm']. simpl. apply forallb_forall. intros u Hu.
  apply forallb_forall. intros v Hv. apply Nat.eqb_eq.
  rewrite Forall_forall in Hm, Hm'. rewrite (Hm u Hu), (Hm' v Hv). reflexivity.
Qed.

Lemma batch_dot_nn_ok (w t : tensor3) :
  Forall2 (fun wm tm : mat => Forall (fun r : vec => length r = length tm) wm) w t ->
  batch_dot w t false = Ok (zipWith (fun a t' => matmul_nt a (transpose t')) w t).
Proof.
  intros E. unfold batch_dot, batch_dot_shape_ok.
  rewrite (Forall2_length E), Nat.eqb_refl. simpl. rewrite forallb_combine; [reflexivity|].
  eapply Forall2_impl; [|exact E]. intros wm tm Hw. simpl.
  apply forallb_forall. intros u Hu. apply Nat.eqb_eq.
  rewrite Forall_forall in Hw. auto.
Qed.

Lemma batch_dot_batch_mismatch (a t : tensor3) (tb : bool) :
  length a <> length t -> batch_dot a t tb = Err DimensionMismatch.
Proof.
  intros E. unfold batch_dot, batch_dot_shape_ok.
  apply Nat.eqb_neq in E. now rewrite E.
Qed.

Lemma concat3_ok (x y : tensor3) :
  same_outer 2 x y -> concat3 x y = Ok (zipWith (zipWith (@app R)) x y).
Proof.
  intros E. apply same_outer2_unfold in E. unfold concat3, concat3_shape_ok.
  rewrite (Forall2_length E), Nat.eqb_refl. simpl. rewrite forallb_combine; [reflexivity|].
  eapply Forall2_impl; [|exact E]. intros m m' Hm. simpl. now apply Nat.eqb_eq.
Qed.

Lemma concat2_ok (x y : tensor2) :
  length x = length y -> concat2 x y = Ok (zipWith (@app R) x y).
Proof.
  intros E. unfold concat2. now rewrite E, Nat.eqb_refl.
Qed.

(** The product of the softmax of the scores with [t]: every row of [a]
    aligned to the rows of the batch element of [t] it is paired with. *)
Lemma soft_align_rows (a t : tensor3) :
  length a = length t ->
  batch_dot (softmax (zipWith matmul_nt a t)) t false =
  Ok (zipWith (fun am tm => map (fun u => attend u tm) am) a t).
Proof.
  intros E. rewrite batch_dot_nn_ok.
  - f_equal. unfold softmax. rewrite map_zipWith, zipWith_zipWith_l.
    apply zipWith_ext_in. intros am tm _ _. apply matmul_softmax_attend.
  - unfold softmax. rewrite Forall2_map_l. apply Forall2_zipWith.
    revert t E. induction a as [|am a' IH]; intros [|tm t'] E; simpl in E; try discriminate;
      simpl; constructor; auto.
    simpl. apply Forall_map. apply Forall_forall. intros r Hr.
    unfold matmul_nt in Hr. apply in_map_iff in Hr as (u & <- & _).
    now rewrite softmax_vec_length, length_map.
Qed.

(** The product of the softmax of the transposed scores with [a]: every row of
    [t] aligned to the rows of its batch element of [a]. *)
Lemma soft_align_columns (a t : tensor3) :
  length a = length t -> nonempty a ->
  batch_dot (softmax (transpose_021 (zipWith matmul_nt a t))) a false =
  Ok (zipWith (fun am tm => map (fun v => attend v am) tm) a t).
Proof.
  intros E Hne.
  assert (Et : transpose_021 (zipWith matmul_nt a t) =
               zipWith (fun am tm => matmul_nt tm am) a t).
  { unfold transpose_021. rewrite map_zipWith. apply zipWith_ext_in.
    intros am tm Ham _. apply transpose_matmul_nt.
    unfold nonempty in Hne. rewrite Forall_forall in Hne. auto. }
  rewrite Et. rewrite batch_dot_nn_ok.
  - f_equal. unfold softmax. rewrite map_zipWith.
    clear Et Hne. revert t E. induction a as [|am a' IH]; intros [|tm t'] E; simpl in E;
      try discriminate; simpl; auto.
    f_equal; [apply matmul_softmax_attend | apply IH; lia].
  - unfold softmax. rewrite Forall2_map_l.
    clear Et Hne. revert t E. induction a as [|am a' IH]; intros [|tm t'] E; simpl in E;
      try discriminate; simpl; constructor; auto.
    apply Forall_map. apply Forall_forall. intros r Hr.
    unfold matmul_nt in Hr. apply in_map_iff in Hr as (u & <- & _).
    now rewrite softmax_vec_length, length_map.
Qed.

(** ** Intra-sentence attention *)

Lemma self_attend_rows (k : nat) (m : mat) :
  Forall (fun v => length v = k) m -> Forall (fun v => length v = k) (self_attend m).
Proof.
  intros Hm. unfold self_attend. apply Forall_map, Forall_forall. intros u Hu.
  rewrite attend_length. apply width_uniform; auto. intros ->. inversion Hu.
Qed.

(** The two products of [IntraSentenceAttention.hybrid_forward] on an array of
    vectors of one length. *)
Lemma intra_products (k : nat) (tilde_a : tensor3) :
  all_len 2 k tilde_a ->
  batch_dot tilde_a tilde_a true = Ok (zipWith matmul_nt tilde_a tilde_a) /\
  batch_dot (softmax (zipWith matmul_nt tilde_a tilde_a)) tilde_a false =
    Ok (map self_attend tilde_a).
Proof.
  intros Ha. split.
  - now apply batch_dot_nt_ok with (k := k).
  - rewrite soft_align_rows by reflexivity. now rewrite zipWith_diag.
Qed.

(** Whatever the dropout layers do, the block returns the self-attention of
    what its feed-forward stack returned, from the same engine state. *)
Lemma IntraSentenceAttention_after_stack (k : nat) (self : IntraSentenceAttention)
    (feature_a tilde_a : tensor3) (st st' : engine) :
  HybridSequential_forward 2 (intra_attn_emb self) feature_a st = Ok (tilde_a, st') ->
  all_len 2 k tilde_a ->
  IntraSentenceAttention_hybrid_forward self feature_a st = Ok (map self_attend tilde_a, st').
Proof.
  intros E Ha. destruct (intra_products k tilde_a Ha) as [E1 E2].
  unfold IntraSentenceAttention_hybrid_forward, bind. rewrite E.
  unfold lift. rewrite E1, E2. reflexivity.
Qed.

Lemma IntraSentenceAttention_returns (inp hid : nat) (self : IntraSentenceAttention)
    (x : tensor3) (st : engine) :
  stack_wf inp hid (intra_attn_emb self) -> all_len 2 inp x ->
  returns (IntraSentenceAttention_hybrid_forward self x) st
    (fun y st' => all_len 2 hid y /\ same_outer 2 x y /\
       (dropout_disabled (intra_attn_emb self) ->
        y = map (intra_example self) x /\ st' = st)).
Proof.
  intros Hwf Hx.
  destruct (@HybridSequential_forward_returns 2 inp hid (intra_attn_emb self) x st Hwf Hx)
    as (ta & st' & E & Hl & Ho & Hv).
  exists (map self_attend ta), st'. split.
  - now apply IntraSentenceAttention_after_stack with (k := hid).
  - split; [|split].
    + apply all_len2_unfold. apply Forall_map. apply all_len2_unfold in Hl.
      eapply Forall_impl; [|exact Hl]. apply self_attend_rows.
    + eapply same_outer_trans; [exact Ho|]. apply same_outer2_unfold.
      apply Forall2_map_r, Forall2_same, Forall_forall. intros m _.
      unfold self_attend. now rewrite length_map.
    + intros D. destruct (Hv D) as [-> ->]. split; [|reflexivity].
      simpl. rewrite map_map. apply map_ext. intros m. reflexivity.
Qed.

(** ** Decomposable attention *)

Lemma Forall_zipWith {A B C : Type} (P : C -> Prop) (fn : A -> B -> C) (l : list A) (l' : list B) :
  Forall2 (fun x y => P (fn x y)) l l' -> Forall P (zipWith fn l l').
Proof.
  induction 1; simpl; constructor; auto.
Qed.

Lemma Forall2_zipWith_l {A B C : Type} (P : A -> C -> Prop) (fn : A -> B -> C)
    (l : list A) (l' : list B) :
  Forall2 (fun x y => P x (fn x y)) l l' -> Forall2 P l (zipWith fn l l').
Proof.
  induction 1; simpl; constructor; auto.
Qed.

Lemma Forall2_zipWith_r {A B C : Type} (P : B -> C -> Prop) (fn : A -> B -> C)
    (l : list A) (l' : list B) :
  Forall2 (fun x y => P y (fn x y)) l l' -> Forall2 P l' (zipWith fn l l').
Proof.
  induction 1; simpl; constructor; auto.
Qed.

Lemma zipWith_app_map (p : vec -> vec) (m : mat) :
  zipWith (@app R) m (map p m) = map (fun u => u ++ p u) m.
Proof.
  now rewrite zipWith_map_r, zipWith_diag.
Qed.

Lemma DecomposableAttention_attention_ok (k : nat) (tilde_a tilde_b : tensor3) :
  length tilde_a = length tilde_b -> all_len 2 k tilde_a -> all_len 2 k tilde_b ->
  nonempty tilde_a ->
  DecomposableAttention_attention tilde_a tilde_b =
  Ok (zipWith matmul_nt tilde_a tilde_b,
      zipWith (fun am tm => map (fun u => attend u tm) am) tilde_a tilde_b,
      zipWith (fun am tm => map (fun v => attend v am) tm) tilde_a tilde_b).
Proof.
  intros E Ha Hb Hne. unfold DecomposableAttention_attention.
  rewrite (batch_dot_nt_ok k tilde_a tilde_b E Ha Hb).
  rewrite (soft_align_rows tilde_a tilde_b E).
  rewrite (soft_align_columns tilde_a tilde_b E Hne). reflexivity.
Qed.

Lemma DecomposableAttention_forward_factor (self : DecomposableAttention) (a b' : tensor3)
    (st : engine) :
  DecomposableAttention_hybrid_forward self a b' st =
  bind (HybridSequential_forward 2 (f self) a) (fun tilde_a =>
  bind (HybridSequential_forward 2 (f self) b') (fun tilde_b =>
  bind (lift (DecomposableAttention_attention tilde_a tilde_b)) (fun eba =>
    DecomposableAttention_compare_aggregate self tilde_a tilde_b (snd (fst eba)) (snd eba)))) st.
Proof.
  unfold DecomposableAttention_hybrid_forward, DecomposableAttention_compare_aggregate,
    DecomposableAttention_attention, bind, lift.
  destruct (HybridSequential_forward 2 (f self) a st) as [[ta st1]|]; [|reflexivity].
  destruct (HybridSequential_forward 2 (f self) b' st1) as [[tb st2]|]; [|reflexivity].
  destruct (batch_dot ta tb true) as [e|]; [|reflexivity].
  destruct (batch_dot (softmax e) tb false) as [beta|]; [|reflexivity].
  destruct (batch_dot (softmax (transpose_021 e)) ta false) as [alpha|]; reflexivity.
Qed.

Lemma pair_ok_intro (k : nat) (ta tb : tensor3) :
  length ta = length tb -> all_len 2 k ta -> all_len 2 k tb -> nonempty ta -> nonempty tb ->
  Forall2 (pair_ok k) ta tb.
Proof.
  intros E Ha Hb Na Nb. apply all_len2_unfold in Ha, Hb.
  apply (Forall2_of_Forall E).
  - clear E Hb Nb. induction ta; inversion Ha; inversion Na; subst; constructor; auto.
  - clear E Ha Na. induction tb; inversion Hb; inversion Nb; subst; constructor; auto.
Qed.

Lemma zipWith_zipWith_snd {A B C D : Type} (fn : B -> C -> D) (p : A -> B -> C)
    (l : list A) (l' : list B) :
  zipWith fn l' (zipWith p l l') = zipWith (fun x y => fn y (p x y)) l l'.
Proof.
  revert l'; induction l as [|x xs IH]; intros [|y ys]; simpl; auto.
  now rewrite IH.
Qed.

Lemma nonempty_same_outer (x y : tensor3) :
  same_outer 2 x y -> nonempty x -> nonempty y.
Proof.
  intros E. apply same_outer2_unfold in E. unfold nonempty.
  induction E as [|m m' x' y' Em _ IH]; intros N; inversion N; subst; constructor; auto.
  intros ->. destruct m; simpl in Em; congruence.
Qed.

Lemma mean_axis1_rows (k : nat) (x : tensor3) :
  all_len 2 k x -> nonempty x -> all_len 1 k (mean_axis1 x).
Proof.
  intros Hx N. apply all_len2_unfold in Hx. apply all_len1_unfold.
  unfold mean_axis1. apply Forall_map. unfold nonempty in N.
  induction x as [|m x' IH]; inversion Hx; inversion N; subst; constructor; auto.
  rewrite mean_rows_length. now apply width_uniform.
Qed.

Lemma compare_aggregate_returns (k C : nat) (self : DecomposableAttention)
    (ta tb : tensor3) (st : engine) :
  stack_wf (k * 2) k (g self) -> stack_wf (k * 2) C (h self) ->
  Forall2 (pair_ok k) ta tb ->
  returns (DecomposableAttention_compare_aggregate self ta tb
             (zipWith (fun am tm => map (fun u => attend u tm) am) ta tb)
             (zipWith (fun am tm => map (fun v => attend v am) tm) ta tb)) st
    (fun y st' => has_shape2 (length ta) C y /\
       (dropout_disabled (g self) -> dropout_disabled (h self) ->
        y = zipWith (compare_example self) ta tb /\ st' = st)).
Proof.
  intros Hg Hh Hp.
  pose proof (Forall2_length Hp) as Elen.
  set (c1 := zipWith (fun am tm : mat => map (fun u => u ++ attend u tm) am) ta tb).
  set (c2 := zipWith (fun am tm : mat => map (fun v => v ++ attend v am) tm) ta tb).
  assert (Ec1 : concat3 ta (zipWith (fun am tm => map (fun u => attend u tm) am) ta tb) = Ok c1).
  { rewrite concat3_ok.
    - f_equal. rewrite zipWith_zipWith_r. apply zipWith_ext_in.
      intros am tm _ _. apply zipWith_app_map.
    - apply same_outer2_unfold, Forall2_zipWith_l.
      eapply Forall2_impl; [|exact Hp]. intros am tm _. now rewrite length_map. }
  assert (Ec2 : concat3 tb (zipWith (fun am tm => map (fun v => attend v am) tm) ta tb) = Ok c2).
  { rewrite concat3_ok.
    - f_equal. rewrite zipWith_zipWith_snd. apply zipWith_ext_in.
      intros am tm _ _. apply zipWith_app_map.
    - apply same_outer2_unfold, Forall2_zipWith_r.
      eapply Forall2_impl; [|exact Hp]. intros am tm _. now rewrite length_map. }
  assert (Hc1 : all_len 2 (k * 2) c1 /\ nonempty c1).
  { split.
    - apply all_len2_unfold, Forall_zipWith. eapply Forall2_impl; [|exact Hp].
      intros am tm [[Ha _] [Hb Nb]]. apply Forall_map.
      eapply Forall_impl; [|exact Ha]. intros u Hu. simpl.
      rewrite length_app, attend_length, (width_uniform k tm Hb Nb), Hu. lia.
    - apply Forall_zipWith. eapply Forall2_impl; [|exact Hp].
      intros am tm [[_ Na] _]. destruct am; simpl; congruence. }
  assert (Hc2 : all_len 2 (k * 2) c2 /\ nonempty c2).
  { split.
    - apply all_len2_unfold, Forall_zipWith. eapply Forall2_impl; [|exact Hp].
      intros am tm [[Ha Na] [Hb _]]. apply Forall_map.
      eapply Forall_impl; [|exact Hb]. intros v Hv. simpl.
      rewrite length_app, attend_length, (width_uniform k am Ha Na), Hv. lia.
    - apply Forall_zipWith. eapply Forall2_impl; [|exact Hp].
      intros am tm [_ [_ Nb]]. destruct tm; simpl; congruence. }
  assert (Lc1 : length c1 = length ta).
  { unfold c1. rewrite zipWith_length. lia. }
  assert (Lc2 : length c2 = length ta).
  { unfold c2. rewrite zipWith_length. lia. }
  destruct Hc1 as [Hc1 Nc1], Hc2 as [Hc2 Nc2].
  unfold DecomposableAttention_compare_aggregate.
  apply returns_bind with (P := fun y st' => y = c1 /\ st' = st).
  { eapply returns_lift; [exact Ec1 | split; reflexivity]. }
  intros ? ? [-> ->].
  eapply returns_bind.
  { exact (HybridSequential_forward_returns 2 (k * 2) k (g self) c1 st Hg Hc1). }
  intros g1 st1 (Hg1 & Og1 & Vg1).
  apply returns_bind with (P := fun y st' => y = c2 /\ st' = st1).
  { eapply returns_lift; [exact Ec2 | split; reflexivity]. }
  intros ? ? [-> ->].
  eapply returns_bind.
  { exact (HybridSequential_forward_returns 2 (k * 2) k (g self) c2 st1 Hg Hc2). }
  intros g2 st2 (Hg2 & Og2 & Vg2).
  pose proof (mean_axis1_rows k g1 Hg1 (nonempty_same_outer c1 g1 Og1 Nc1)) as M1.
  pose proof (mean_axis1_rows k g2 Hg2 (nonempty_same_outer c2 g2 Og2 Nc2)) as M2.
  assert (L1 : length (mean_axis1 g1) = length ta).
  { unfold mean_axis1. rewrite length_map.
    apply same_outer2_unfold, Forall2_length in Og1.
    etransitivity; [symmetry; exact Og1 | exact Lc1]. }
  assert (L2 : length (mean_axis1 g2) = length ta).
  { unfold mean_axis1. rewrite length_map.
    apply same_outer2_unfold, Forall2_length in Og2.
    etransitivity; [symmetry; exact Og2 | exact Lc2]. }
  set (pooled := zipWith (@app R) (mean_axis1 g1) (mean_axis1 g2)).
  apply returns_bind with (P := fun y st' => y = pooled /\ st' = st2).
  { eapply returns_lift; [apply concat2_ok; congruence | split; reflexivity]. }
  intros ? ? [-> ->].
  assert (Hpool : all_len 1 (k * 2) pooled).
  { apply all_len1_unfold, Forall_zipWith. apply all_len1_unfold in M1, M2.
    assert (E12 : length (mean_axis1 g1) = length (mean_axis1 g2)) by congruence.
    eapply Forall2_impl; [|exact (Forall2_of_Forall E12 M1 M2)].
    intros v v' [Hv Hv']. simpl in *. rewrite length_app. lia. }
  eapply returns_bind.
  { exact (HybridSequential_forward_returns 1 (k * 2) C (h self) pooled st2 Hh Hpool). }
  intros y st3 (Hy & Oy & Vy).
  apply returns_ret. split.
  - split.
    + apply same_outer1_unfold in Oy. etransitivity; [symmetry; exact Oy|].
      unfold pooled. rewrite zipWith_length. lia.
    + exact Hy.
  - intros Dg Dh. destruct (Vg1 Dg) as [-> ->]. destruct (Vg2 Dg) as [-> ->].
    destruct (Vy Dh) as [-> ->]. split; [|reflexivity].
    unfold pooled, mean_axis1, c1, c2. simpl.
    rewrite !map_map, !map_zipWith, zipWith_zipWith.
    apply zipWith_ext_in. intros am tm _ _. unfold compare_example.
    now rewrite !map_map.
Qed.

Lemma returns_eq {A : Type} (c c' : M A) (st : engine) (Q : A -> engine -> Prop) :
  c st = c' st -> returns c' st Q -> returns c st Q.
Proof.
  unfold returns. now intros ->.
Qed.

Lemma DecomposableAttention_returns (inp k C : nat) (self : DecomposableAttention)
    (a b' : tensor3) (st : engine) :
  stack_wf inp k (f self) -> stack_wf (k * 2) k (g self) -> stack_wf (k * 2) C (h self) ->
  length a = length b' -> all_len 2 inp a -> all_len 2 inp b' -> nonempty a -> nonempty b' ->
  returns (DecomposableAttention_hybrid_forward self a b') st
    (fun y st' => has_shape2 (length a) C y /\
       (dropout_disabled (f self) -> dropout_disabled (g self) -> dropout_disabled (h self) ->
        y = zipWith (decomposable_example self) a b' /\ st' = st)).
Proof.
  intros Hf Hg Hh E Ha Hb Na Nb.
  eapply returns_eq; [apply DecomposableAttention_forward_factor|].
  eapply returns_bind.
  { exact (HybridSequential_forward_returns 2 inp k (f self) a st Hf Ha). }
  intros ta st1 (Hta & Ota & Vta).
  eapply returns_bind.
  { exact (HybridSequential_forward_returns 2 inp k (f self) b' st1 Hf Hb). }
  intros tb st2 (Htb & Otb & Vtb).
  assert (Eab : length ta = length tb).
  { apply same_outer2_unfold, Forall2_length in Ota, Otb. congruence. }
  pose proof (nonempty_same_outer a ta Ota Na) as Nta.
  pose proof (nonempty_same_outer b' tb Otb Nb) as Ntb.
  apply returns_bind with (P := fun eba st' =>
    snd (fst eba) = zipWith (fun am tm => map (fun u => attend u tm) am) ta tb /\
    snd eba = zipWith (fun am tm => map (fun v => attend v am) tm) ta tb /\ st' = st2).
  { eapply returns_lift; [exact (DecomposableAttention_attention_ok k ta tb Eab Hta Htb Nta)|].
    simpl. auto. }
  intros [[e beta] alpha] st3 (Eb & Eal & ->). simpl in Eb, Eal. subst beta alpha. simpl.
  eapply returns_weaken.
  { exact (compare_aggregate_returns k C self ta tb st2 Hg Hh
             (pair_ok_intro k ta tb Eab Hta Htb Nta Ntb)). }
  intros y st4 [[Ly Hy] Vy]. split.
  - split; [|exact Hy]. apply same_outer2_unfold, Forall2_length in Ota. congruence.
  - intros Df Dg Dh. destruct (Vta Df) as [-> ->]. destruct (Vtb Df) as [-> ->].
    destruct (Vy Dg Dh) as [-> ->]. split; [|reflexivity].
    simpl. rewrite zipWith_map. reflexivity.
Qed.

Lemma DecomposableAttention_batch_mismatch (inp k : nat) (self : DecomposableAttention)
    (a b' : tensor3) (st : engine) :
  stack_wf inp k (f self) -> all_len 2 inp a -> all_len 2 inp b' ->
  length a <> length b' ->
  DecomposableAttention_hybrid_forward self a b' st = Err DimensionMismatch.
Proof.
  intros Hf Ha Hb NE. rewrite DecomposableAttention_forward_factor.
  destruct (HybridSequential_forward_returns 2 inp k (f self) a st Hf Ha)
    as (ta & st1 & E1 & _ & Ota & _).
  destruct (HybridSequential_forward_returns 2 inp k (f self) b' st1 Hf Hb)
    as (tb & st2 & E2 & _ & Otb & _).
  unfold bind. rewrite E1, E2. unfold lift, DecomposableAttention_attention.
  rewrite batch_dot_batch_mismatch; [reflexivity|].
  apply same_outer2_unfold, Forall2_length in Ota, Otb. congruence.
Qed.

(** ** Stacks and parameters as the constructors build them *)

Lemma init_stack_wf (inp hid out : nat) (d : Dropout) (a1 a2 a3 : option Activation)
    (p : StackParams) :
  StackParams_shape inp hid out p ->
  stack_wf inp out
    [ Dropout_block d; Dense_block (Dense_init hid inp a1 (layer1 p));
      Dropout_block d; Dense_block (Dense_init hid hid a2 (layer2 p));
      Dense_block (Dense_init out hid a3 (layer3 p)) ].
Proof.
  intros ([[L1 _] B1] & [[L2 _] B2] & [[L3 _] B3]). simpl. auto 10.
Qed.

Lemma init_stack_disabled (d : Dropout) (d1 d2 d3 : Dense) :
  rate d = 0 ->
  dropout_disabled [ Dropout_block d; Dense_block d1; Dropout_block d; Dense_block d2;
                     Dense_block d3 ].
Proof.
  intros Hd. repeat constructor; assumption.
Qed.

(** ** Embedding *)

Lemma mapR_err_kind {A B : Type} (fn : A -> result B) (e0 : error) (l : list A) (e : error) :
  (forall x e', fn x = Err e' -> e' = e0) -> mapR fn l = Err e -> e = e0.
Proof.
  intros K. induction l as [|x xs IH]; simpl; [discriminate|].
  destruct (fn x) eqn:Ex.
  - destruct (mapR fn xs); [discriminate|]. intros E; inversion E; subst. now apply IH.
  - intros E; inversion E; subst. eapply K; eauto.
Qed.

Lemma mapR_err {A B : Type} (fn : A -> result B) (e0 : error) (l : list A) :
  (forall x e', fn x = Err e' -> e' = e0) ->
  Exists (fun x => exists e', fn x = Err e') l -> mapR fn l = Err e0.
Proof.
  intros K X. induction X as [x xs (e' & Ex) | x xs _ IH]; simpl.
  - rewrite Ex. f_equal. eapply K; eauto.
  - destruct (fn x) eqn:Ex.
    + now rewrite IH.
    + f_equal. eapply K; eauto.
Qed.

Lemma Embedding_forward_ok (e : Embedding) (x : list (list nat)) :
  length (emb_weight e) = input_dim e -> tokens_in_range (input_dim e) x ->
  Embedding_forward e x = Ok (map (map (fun i => nth i (emb_weight e) [])) x).
Proof.
  intros Hw Hx. unfold Embedding_forward. apply mapR_ok.
  eapply Forall_impl; [|exact Hx]. intros s Hs. apply mapR_ok.
  eapply Forall_impl; [|exact Hs]. intros i Hi. simpl in Hi.
  unfold Embedding_lookup. apply Nat.ltb_lt in Hi as Hi'. rewrite Hi'.
  rewrite (nth_error_nth' (emb_weight e) []); [reflexivity | lia].
Qed.

(** An index at or beyond [input_dim] makes the lookup of the whole array fail,
    with the index error. *)
Lemma Embedding_forward_oob (e : Embedding) (x : list (list nat)) :
  Exists (Exists (fun i => (input_dim e <= i)%nat)) x ->
  Embedding_forward e x = Err IndexOutOfBounds.
Proof.
  assert (K : forall i e', match Embedding_lookup e i with
                           | Some v => Ok v
                           | None => Err IndexOutOfBounds
                           end = Err e' -> e' = IndexOutOfBounds).
  { intros i e'. destruct (Embedding_lookup e i); intros E; inversion E; reflexivity. }
  intros X. unfold Embedding_forward. apply mapR_err.
  - intros s e' Es. eapply mapR_err_kind; [exact K | exact Es].
  - eapply Exists_impl; [|exact X]. intros s Xs. exists IndexOutOfBounds.
    apply mapR_err; [exact K|].
    eapply Exists_impl; [|exact Xs]. intros i Hi. simpl in Hi. exists IndexOutOfBounds.
    unfold Embedding_lookup. apply Nat.ltb_ge in Hi. now rewrite Hi.
Qed.

Lemma embedded_shape (V E : nat) (w : mat) (x : list (list nat)) :
  has_shape2 V E w -> tokens_in_range V x ->
  all_len 2 E (map (map (fun i => nth i w [])) x).
Proof.
  intros [Lw Hw] Hx. apply all_len2_unfold. apply Forall_map.
  eapply Forall_impl; [|exact Hx]. intros s Hs. apply Forall_map.
  eapply Forall_impl; [|exact Hs]. intros i Hi. simpl in Hi.
  rewrite Forall_forall in Hw. apply Hw. apply nth_In. lia.
Qed.

Lemma concat_rows (k1 k2 : nat) (x y : tensor3) :
  all_len 2 k1 x -> all_len 2 k2 y -> same_outer 2 x y ->
  all_len 2 (k1 + k2) (zipWith (zipWith (@app R)) x y).
Proof.
  intros Hx Hy E. apply all_len2_unfold in Hx, Hy. apply same_outer2_unfold in E.
  apply all_len2_unfold, Forall_zipWith.
  pose proof (Forall2_of_Forall (Forall2_length E) Hx Hy) as F.
  eapply Forall2_impl; [|exact (Forall2_conj F E)].
  intros m m' [[Hm Hm'] Em]. simpl in *. apply Forall_zipWith.
  eapply Forall2_impl; [|exact (Forall2_of_Forall Em Hm Hm')].
  intros v v' [Hv Hv']. simpl in *. rewrite length_app. lia.
Qed.

(** ** The model *)

Lemma NLIModel_paths_agree (self : NLIModel) (x : list (list nat)) (st : engine) :
  NLIModel_sentence2_path self x st = NLIModel_sentence1_path self x st.
Proof.
  reflexivity.
Qed.

Lemma NLIModel_forward_factor (self : NLIModel) (sentence1 sentence2 : list (list nat))
    (st : engine) :
  NLIModel_hybrid_forward self sentence1 sentence2 st =
  bind (NLIModel_sentence1_path self sentence1) (fun feature1 =>
  bind (NLIModel_sentence2_path self sentence2) (fun feature2 =>
    DecomposableAttention_hybrid_forward (model self) feature1 feature2)) st.
Proof.
  unfold NLIModel_hybrid_forward, NLIModel_sentence1_path, NLIModel_sentence2_path,
    bind, lift.
  destruct (Embedding_forward (word_emb self) sentence1) as [e1|]; [|reflexivity].
  destruct (Dropout_forward 3 (dropout_layer self) e1 st) as [[d1 st1]|]; [|reflexivity].
  destruct (Dense_forward 2 (lin_proj self) d1) as [f1|]; [|reflexivity].
  destruct (IntraSentenceAttention_hybrid_forward (intra_attention self) f1 st1)
    as [[a1 st2]|]; [|reflexivity].
  destruct (concat3 f1 a1) as [c1|]; [|reflexivity].
  destruct (Embedding_forward (word_emb self) sentence2) as [e2|]; [|reflexivity].
  destruct (Dropout_forward 3 (dropout_layer self) e2 st2) as [[d2 st3]|]; [|reflexivity].
  destruct (Dense_forward 2 (lin_proj self) d2) as [f2|]; [|reflexivity].
  destruct (IntraSentenceAttention_hybrid_forward (intra_attention self) f2 st3)
    as [[a2 st4]|]; [|reflexivity].
  destruct (concat3 f2 a2) as [c2|]; [|reflexivity].
  destruct (DecomposableAttention_hybrid_forward (model self) c1 c2 st4) as [[y st5]|];
    reflexivity.
Qed.

Lemma NLIModel_project_returns (V E H : nat) (dropout : R) (p : NLIParams)
    (s : list (list nat)) (st : engine) :
  let self := NLIModel_init V E H dropout p in
  NLIParams_shape V E H p -> tokens_in_range V s ->
  returns (NLIModel_project self s) st
    (fun y st' => all_len 2 H y /\
       Forall2 (fun (sm : list nat) (m : list (list R)) => length sm = length m) s y /\
       (dropout = 0 -> y = map (project_example self) s /\ st' = st)).
Proof.
  intros self (Hemb & Hproj & _) Hs. unfold NLIModel_project.
  set (looked := map (map (fun i => nth i (word_emb_params p) [])) s).
  apply returns_bind with (P := fun y st' => y = looked /\ st' = st).
  { eapply returns_lift; [|split; reflexivity].
    apply (Embedding_forward_ok (word_emb self) s); [exact (proj1 Hemb) | exact Hs]. }
  intros ? ? [-> ->].
  eapply returns_bind; [exact (Dropout_forward_returns 3 (dropout_layer self) looked st)|].
  intros dropped st1 [Sd Vd].
  assert (Hd : all_len 2 E dropped).
  { eapply same_shape_all_len; [exact Sd|]. exact (embedded_shape V E _ s Hemb Hs). }
  eapply returns_lift; [exact (Dense_forward_ok 2 (lin_proj self) dropped Hd)|].
  split; [|split].
  - apply all_vectors_map, all_vectors_true. intros v.
    destruct Hproj as [[Lw _] Lb]. now apply Dense_fn_length.
  - apply same_shape_outer, same_outer2_unfold in Sd.
    simpl. rewrite Forall2_map_r.
    assert (Hl : Forall2 (fun (sm : list nat) (m : list (list R)) => length sm = length m)
                   s looked).
    { unfold looked. apply Forall2_map_r, Forall2_same, Forall_forall.
      intros sm _. now rewrite length_map. }
    clear - Hl Sd. revert dropped Sd.
    induction Hl as [|sm m s' l' Em _ IH]; intros dropped Sd; inversion Sd; subst;
      constructor; auto.
    rewrite length_map. congruence.
  - intros D0. destruct (Vd D0) as [-> ->]. split; [|reflexivity].
    unfold looked. simpl. rewrite map_map. apply map_ext. intros sm.
    unfold project_example. now rewrite map_map.
Qed.

Lemma NLIModel_path_factor (self : NLIModel) (s : list (list nat)) (st : engine) :
  NLIModel_sentence1_path self s st =
  bind (NLIModel_project self s) (fun feature =>
  bind (IntraSentenceAttention_hybrid_forward (intra_attention self) feature) (fun attended =>
    lift (concat3 feature attended))) st.
Proof.
  unfold NLIModel_sentence1_path, NLIModel_project, bind, lift.
  destruct (Embedding_forward (word_emb self) s) as [e1|]; [|reflexivity].
  destruct (Dropout_forward 3 (dropout_layer self) e1 st) as [[d1 st1]|]; [|reflexivity].
  destruct (Dense_forward 2 (lin_proj self) d1) as [f1|]; reflexivity.
Qed.

Lemma NLIModel_path_returns (V E H : nat) (dropout : R) (p : NLIParams)
    (s : list (list nat)) (st : engine) :
  let self := NLIModel_init V E H dropout p in
  NLIParams_shape V E H p -> tokens_in_range V s ->
  returns (NLIModel_sentence1_path self s) st
    (fun y st' => all_len 2 (H * 2) y /\
       Forall2 (fun (sm : list nat) (m : list (list R)) => length sm = length m) s y /\
       (dropout = 0 -> y = map (encode_example self) s /\ st' = st)).
Proof.
  intros self Hp Hs.
  eapply returns_eq; [apply NLIModel_path_factor|].
  eapply returns_bind; [exact (NLIModel_project_returns V E H dropout p s st Hp Hs)|].
  intros feat st1 (Hf & Of & Vf).
  destruct Hp as (_ & _ & Hintra & _).
  eapply returns_bind.
  { apply (IntraSentenceAttention_returns H H (intra_attention self) feat st1); [|exact Hf].
    apply init_stack_wf. exact Hintra. }
  intros att st2 (Ha & Oa & Va).
  eapply returns_lift; [exact (concat3_ok feat att Oa)|].
  split; [|split].
  - replace (H * 2)%nat with (H + H)%nat by lia. now apply concat_rows.
  - apply same_outer2_unfold in Oa.
    clear - Of Oa. revert att Oa.
    induction Of as [|sm m s' l' Em _ IH]; intros att Oa; inversion Oa; subst;
      simpl; constructor; auto.
    rewrite zipWith_length. lia.
  - intros D0. destruct (Vf D0) as [-> ->].
    destruct Va as [-> ->]; [apply init_stack_disabled; exact D0|].
    split; [|reflexivity].
    rewrite zipWith_map_r, zipWith_diag, map_map. apply map_ext. intros sm. reflexivity.
Qed.

Lemma nonempty_of_lengths {A B : Type} (x : list (list A)) (y : list (list B)) :
  Forall2 (fun m m' => length m = length m') x y -> nonempty x -> nonempty y.
Proof.
  unfold nonempty. induction 1 as [|m m' x' y' Em _ IH]; intros N; inversion N; subst;
    constructor; auto.
  intros ->. destruct m; simpl in Em; congruence.
Qed.

Lemma init_model_stacks (H : nat) (dropout : R) (p : DecomposableParams) :
  let self := DecomposableAttention_init (H * 2) H 3 dropout p in
  DecomposableParams_shape (H * 2) H 3 p ->
  stack_wf (H * 2) H (f self) /\ stack_wf (H * 2) H (g self) /\ stack_wf (H * 2) 3 (h self).
Proof.
  intros self (Hf & Hg & Hh). split; [|split]; apply init_stack_wf; assumption.
Qed.

Lemma init_model_disabled (inp H C : nat) (p : DecomposableParams) :
  let self := DecomposableAttention_init inp H C 0 p in
  dropout_disabled (f self) /\ dropout_disabled (g self) /\ dropout_disabled (h self).
Proof.
  intros self. split; [|split]; apply init_stack_disabled; reflexivity.
Qed.

(** On token arrays with indices in range, equal batch sizes and no empty
    sentence, the forward pass returns one row of three scores per batch
    element; with dropout disabled the rows are the scores of the pairs and
    the engine is untouched. *)
Lemma NLIModel_forward_returns (V E H : nat) (dropout : R) (p : NLIParams)
    (s1 s2 : list (list nat)) (st : engine) :
  let self := NLIModel_init V E H dropout p in
  NLIParams_shape V E H p -> tokens_in_range V s1 -> tokens_in_range V s2 ->
  length s1 = length s2 -> nonempty s1 -> nonempty s2 ->
  returns (NLIModel_hybrid_forward self s1 s2) st
    (fun y st' => has_shape2 (length s1) 3 y /\
       (dropout = 0 -> y = zipWith (NLI_example self) s1 s2 /\ st' = st)).
Proof.
  intros self Hp R1 R2 EB N1 N2.
  eapply returns_eq; [apply NLIModel_forward_factor|].
  eapply returns_bind; [exact (NLIModel_path_returns V E H dropout p s1 st Hp R1)|].
  intros f1 st1 (Hf1 & O1 & V1).
  eapply returns_bind; [exact (NLIModel_path_returns V E H dropout p s2 st1 Hp R2)|].
  intros f2 st2 (Hf2 & O2 & V2).
  destruct (init_model_stacks H dropout (model_params p)) as (Wf & Wg & Wh);
    [exact (proj2 (proj2 (proj2 Hp)))|].
  assert (EL : length f1 = length f2).
  { apply Forall2_length in O1, O2. congruence. }
  eapply returns_weaken.
  { apply (DecomposableAttention_returns (H * 2) H 3 (model self) f1 f2 st2); auto.
    - exact (nonempty_of_lengths s1 f1 O1 N1).
    - exact (nonempty_of_lengths s2 f2 O2 N2). }
  intros y st3 [[Ly Hy] Vy]. split.
  - split; [|exact Hy]. apply Forall2_length in O1. congruence.
  - intros D0. destruct (V1 D0) as [-> ->]. destruct (V2 D0) as [-> ->].
    subst dropout.
    destruct (init_model_disabled (H * 2) H 3 (model_params p)) as (Df & Dg & Dh).
    destruct (Vy Df Dg Dh) as [-> ->]. split; [|reflexivity].
    rewrite zipWith_map. reflexivity.
Qed.

Lemma NLIModel_forward_oob1 (self : NLIModel) (s1 s2 : list (list nat)) (st : engine) :
  Exists (Exists (fun i => (input_dim (word_emb self) <= i)%nat)) s1 ->
  NLIModel_hybrid_forward self s1 s2 st = Err IndexOutOfBounds.
Proof.
  intros X. unfold NLIModel_hybrid_forward, bind, lift.
  now rewrite (Embedding_forward_oob (word_emb self) s1 X).
Qed.

Lemma NLIModel_forward_oob2 (V E H : nat) (dropout : R) (p : NLIParams)
    (s1 s2 : list (list nat)) (st : engine) :
  let self := NLIModel_init V E H dropout p in
  NLIParams_shape V E H p -> tokens_in_range V s1 ->
  Exists (Exists (fun i => (V <= i)%nat)) s2 ->
  NLIModel_hybrid_forward self s1 s2 st = Err IndexOutOfBounds.
Proof.
  intros self Hp R1 X. rewrite NLIModel_forward_factor.
  destruct (NLIModel_path_returns V E H dropout p s1 st Hp R1) as (f1 & st1 & E1 & _).
  fold self in E1. unfold bind at 1. rewrite E1.
  unfold bind, NLIModel_sentence2_path, bind, lift.
  now rewrite (Embedding_forward_oob (word_emb self) s2 X).
Qed.

Lemma NLIModel_forward_batch_mismatch (V E H : nat) (dropout : R) (p : NLIParams)
    (s1 s2 : list (list nat)) (st : engine) :
  let self := NLIModel_init V E H dropout p in
  NLIParams_shape V E H p -> tokens_in_range V s1 -> tokens_in_range V s2 ->
  length s1 <> length s2 ->
  NLIModel_hybrid_forward self s1 s2 st = Err DimensionMismatch.
Proof.
  intros self Hp R1 R2 NE. rewrite NLIModel_forward_factor.
  destruct (NLIModel_path_returns V E H dropout p s1 st Hp R1)
    as (f1 & st1 & E1 & Hf1 & O1 & _).
  destruct (NLIModel_path_returns V E H dropout p s2 st1 Hp R2)
    as (f2 & st2 & E2 & Hf2 & O2 & _).
  fold self in E1, E2. unfold bind at 1. rewrite E1.
  unfold bind. rewrite NLIModel_paths_agree, E2.
  destruct (init_model_stacks H dropout (model_params p)) as (Wf & _);
    [exact (proj2 (proj2 (proj2 Hp)))|].
  apply (DecomposableAttention_batch_mismatch (H * 2) H (model self) f1 f2 st2); auto.
  apply Forall2_length in O1, O2. congruence.
Qed.

(** ** Runs that do not depend on the engine *)

Lemma state_independent_value {A : Type} (c : M A) (st st' : engine) :
  state_independent c -> value (c st) = value (c st').
Proof.
  intros (r & Hr). rewrite !Hr. unfold lift. destruct r; reflexivity.
Qed.

Lemma state_independent_ret {A : Type} (a : A) : state_independent (ret a).
Proof.
  exists (Ok a). reflexivity.
Qed.

Lemma state_independent_lift {A : Type} (r : result A) : state_independent (lift r).
Proof.
  exists r. reflexivity.
Qed.

Lemma state_independent_bind {A B : Type} (c : M A) (k : A -> M B) :
  state_independent c -> (forall a, state_independent (k a)) ->
  state_independent (bind c k).
Proof.
  intros (r & Hr) Hk. destruct r as [a|e].
  - destruct (Hk a) as (r' & Hr'). exists r'. intros st.
    unfold bind. rewrite Hr. simpl. apply Hr'.
  - exists (Err e). intros st. unfold bind. now rewrite Hr.
Qed.

Lemma state_independent_Dropout (n : nat) (d : Dropout) (x : tensor n) :
  rate d = 0 -> state_independent (Dropout_forward n d x).
Proof.
  intros Hd. exists (Ok x). intros st. unfold Dropout_forward.
  destruct (Rlt_dec 0 (rate d)); [lra | reflexivity].
Qed.

Lemma state_independent_stack (n : nat) (layers : HybridSequential) (x : tensor (S n)) :
  dropout_disabled layers -> state_independent (HybridSequential_forward n layers x).
Proof.
  revert x. induction layers as [|l ls IH]; intros x D; simpl.
  - apply state_independent_ret.
  - inversion D as [|? ? Hl D']; subst. apply state_independent_bind.
    + destruct l as [d|d]; simpl.
      * exact (state_independent_Dropout (S n) d x Hl).
      * apply state_independent_lift.
    + intros y. now apply IH.
Qed.

Ltac independent_steps :=
  repeat first
    [ apply state_independent_ret
    | apply state_independent_lift
    | apply state_independent_stack; assumption
    | match goal with
      | |- state_independent (Dropout_forward ?n ?d ?x) =>
          apply (state_independent_Dropout n d x); assumption
      end
    | apply state_independent_bind; [|intro] ].

Lemma state_independent_path (self : NLIModel) (x : list (list nat)) :
  rate (dropout_layer self) = 0 -> dropout_disabled (intra_attn_emb (intra_attention self)) ->
  state_independent (NLIModel_sentence1_path self x).
Proof.
  intros D0 Di. unfold NLIModel_sentence1_path. independent_steps.
Qed.

Lemma state_independent_model (V E H : nat) (p : NLIParams) (s1 s2 : list (list nat)) :
  state_independent (NLIModel_hybrid_forward (NLIModel_init V E H 0 p) s1 s2).
Proof.
  assert (D0 : rate (dropout_layer (NLIModel_init V E H 0 p)) = 0) by reflexivity.
  assert (Di : dropout_disabled (intra_attn_emb (intra_attention (NLIModel_init V E H 0 p))))
    by (apply init_stack_disabled; reflexivity).
  destruct (init_model_disabled (H * 2) H 3 (model_params p)) as (Df & Dg & Dh).
  unfold NLIModel_hybrid_forward. independent_steps.
Qed.

(** ** Which failures can arise where *)

Lemma shape_errors_ret {A : Type} (a : A) : shape_errors_only (ret a).
Proof.
  intros st e E. discriminate.
Qed.

Lemma shape_errors_lift {A : Type} (r : result A) :
  (forall e, r = Err e -> e = DimensionMismatch) -> shape_errors_only (lift r).
Proof.
  intros Hr st e E. unfold lift in E. destruct r; [discriminate|].
  inversion E; subst. now apply Hr.
Qed.

Lemma shape_errors_bind {A B : Type} (c : M A) (k : A -> M B) :
  shape_errors_only c -> (forall a, shape_errors_only (k a)) ->
  shape_errors_only (bind c k).
Proof.
  intros Hc Hk st e E. unfold bind in E. destruct (c st) as [[a st']|e'] eqn:Ec.
  - eapply Hk; eauto.
  - inversion E; subst. eapply Hc; eauto.
Qed.

Lemma shape_errors_Dropout (n : nat) (d : Dropout) (x : tensor n) :
  shape_errors_only (Dropout_forward n d x).
Proof.
  intros st e E. destruct (Dropout_forward_returns n d x st) as (y & st' & E' & _).
  congruence.
Qed.

Lemma Dense_forward_err (n : nat) (d : Dense) (x : tensor (S n)) (e : error) :
  Dense_forward n d x = Err e -> e = DimensionMismatch.
Proof.
  unfold Dense_forward. revert x e. induction n as [|n IH]; simpl; intros x e E.
  - unfold Dense_apply in E. destruct (Nat.eqb (length x) (in_units d)); congruence.
  - eapply mapR_err_kind; [|exact E]. intros y e' E'. eapply IH; eauto.
Qed.

Lemma batch_dot_err (a t : list (list (list R))) (tb : bool) (e : error) :
  batch_dot a t tb = Err e -> e = DimensionMismatch.
Proof.
  unfold batch_dot. destruct (batch_dot_shape_ok a t tb); congruence.
Qed.

Lemma concat3_err (x y : list (list (list R))) (e : error) :
  concat3 x y = Err e -> e = DimensionMismatch.
Proof.
  unfold concat3. destruct (concat3_shape_ok x y); congruence.
Qed.

Lemma concat2_err (x y : list (list R)) (e : error) :
  concat2 x y = Err e -> e = DimensionMismatch.
Proof.
  unfold concat2. destruct (Nat.eqb (length x) (length y)); congruence.
Qed.

Lemma shape_errors_stack (n : nat) (layers : HybridSequential) (x : tensor (S n)) :
  shape_errors_only (HybridSequential_forward n layers x).
Proof.
  revert x. induction layers as [|l ls IH]; intros x; simpl.
  - apply shape_errors_ret.
  - apply shape_errors_bind; [|exact IH]. destruct l as [d|d]; simpl.
    + exact (shape_errors_Dropout (S n) d x).
    + apply shape_errors_lift. apply Dense_forward_err.
Qed.

Ltac shape_error_steps :=
  repeat first
    [ apply shape_errors_ret
    | apply shape_errors_stack
    | match goal with
      | |- shape_errors_only (Dropout_forward ?n ?d ?x) => exact (shape_errors_Dropout n d x)
      | |- shape_errors_only (lift (batch_dot _ _ _)) =>
          apply shape_errors_lift, batch_dot_err
      | |- shape_errors_only (lift (concat3 _ _)) => apply shape_errors_lift, concat3_err
      | |- shape_errors_only (lift (concat2 _ _)) => apply shape_errors_lift, concat2_err
      | |- shape_errors_only (lift (Dense_forward _ _ _)) =>
          apply shape_errors_lift, Dense_forward_err
      | |- shape_errors_only (bind _ _) => apply shape_errors_bind; [|intro]
      end ].

Lemma shape_errors_intra (self : IntraSentenceAttention) (x : list (list (list R))) :
  shape_errors_only (IntraSentenceAttention_hybrid_forward self x).
Proof.
  unfold IntraSentenceAttention_hybrid_forward. shape_error_steps.
Qed.

Lemma shape_errors_decomposable (self : DecomposableAttention) (a b' : list (list (list R))) :
  shape_errors_only (DecomposableAttention_hybrid_forward self a b').
Proof.
  unfold DecomposableAttention_hybrid_forward. shape_error_steps.
Qed.

Lemma shape_errors_path (self : NLIModel) (s : list (list nat)) :
  length (emb_weight (word_emb self)) = input_dim (word_emb self) ->
  tokens_in_range (input_dim (word_emb self)) s ->
  shape_errors_only (NLIModel_sentence1_path self s).
Proof.
  intros Hw Hs. unfold NLIModel_sentence1_path.
  apply shape_errors_bind.
  - apply shape_errors_lift. intros e. now rewrite (Embedding_forward_ok (word_emb self) s Hw Hs).
  - intros emb. shape_error_steps. apply shape_errors_intra.
Qed.

Lemma shape_errors_model (self : NLIModel) (s1 s2 : list (list nat)) :
  length (emb_weight (word_emb self)) = input_dim (word_emb self) ->
  tokens_in_range (input_dim (word_emb self)) s1 ->
  tokens_in_range (input_dim (word_emb self)) s2 ->
  shape_errors_only (NLIModel_hybrid_forward self s1 s2).
Proof.
  intros Hw H1 H2 st e E. rewrite NLIModel_forward_factor in E. revert st e E.
  apply shape_errors_bind; [now apply shape_errors_path|]. intros f1.
  apply shape_errors_bind; [now apply shape_errors_path|]. intros f2.
  apply shape_errors_decomposable.
Qed.

Lemma tokens_in_range_dec (V : nat) (s : list (list nat)) :
  tokens_in_range V s \/ Exists (Exists (fun i => (V <= i)%nat)) s.
Proof.
  assert (Hrow : forall r : list nat,
            Forall (fun i => (i < V)%nat) r \/ Exists (fun i => (V <= i)%nat) r).
  { induction r as [|i r [IH|IH]]; auto.
    destruct (Nat.lt_ge_cases i V); auto. }
  unfold tokens_in_range. induction s as [|r s [IH|IH]]; auto.
  destruct (Hrow r); auto.
Qed.

(** ** Word order *)

Lemma stack_fn_length (layers : HybridSequential) (v : list R) :
  length (stack_fn layers v) = out_len layers (length v).
Proof.
  revert v. induction layers as [|[d|d] ls IH]; intros v; simpl; auto.
  rewrite IH. f_equal. unfold Dense_fn.
  now rewrite length_map, zipWith_length, length_map.
Qed.

Lemma stack_rows_uniform {A : Type} (layers : HybridSequential) (p : A -> list R) (l : list A) :
  fixed_width layers ->
  Forall (fun r => length r = out_len layers 0) (map (fun x => stack_fn layers (p x)) l).
Proof.
  intros Fw. apply Forall_map, Forall_forall. intros x _.
  rewrite stack_fn_length. apply Fw.
Qed.

Lemma init_stack_fixed_width (d : Dropout) (d1 d2 d3 : Dense) :
  fixed_width [ Dropout_block d; Dense_block d1; Dropout_block d; Dense_block d2;
                Dense_block d3 ].
Proof.
  intros n n'. reflexivity.
Qed.

Lemma compare_example_perm (k : nat) (self : DecomposableAttention)
    (ta ta' tb tb' : list (list R)) :
  fixed_width (g self) ->
  Forall (fun r => length r = k) ta -> Forall (fun r => length r = k) tb ->
  Permutation ta ta' -> Permutation tb tb' ->
  compare_example self ta' tb' = compare_example self ta tb.
Proof.
  intros Fg Ha Hb Pa Pb. unfold compare_example. f_equal. f_equal.
  - rewrite (map_ext _ (fun u => stack_fn (g self) (u ++ attend u tb)))
      by (intros u; now rewrite (attend_perm k u tb tb' Pb Hb)).
    symmetry. apply (mean_rows_perm (out_len (g self) 0)).
    + apply Permutation_map, Pa.
    + apply (stack_rows_uniform (g self) (fun u => u ++ attend u tb) ta Fg).
  - rewrite (map_ext _ (fun v => stack_fn (g self) (v ++ attend v ta)))
      by (intros v; now rewrite (attend_perm k v ta ta' Pa Ha)).
    symmetry. apply (mean_rows_perm (out_len (g self) 0)).
    + apply Permutation_map, Pb.
    + apply (stack_rows_uniform (g self) (fun v => v ++ attend v ta) tb Fg).
Qed.

Lemma decomposable_example_perm (self : DecomposableAttention) (a a' b0 b' : list (list R)) :
  fixed_width (f self) -> fixed_width (g self) ->
  Permutation a a' -> Permutation b0 b' ->
  decomposable_example self a' b' = decomposable_example self a b0.
Proof.
  intros Ff Fg Pa Pb. unfold decomposable_example.
  apply (compare_example_perm (out_len (f self) 0)); auto.
  - apply (stack_rows_uniform (f self) (fun v => v) a Ff).
  - apply (stack_rows_uniform (f self) (fun v => v) b0 Ff).
  - apply Permutation_map, Pa.
  - apply Permutation_map, Pb.
Qed.

Lemma encode_example_map (self : NLIModel) (x : list nat) :
  encode_example self x =
  map (fun i =>
         let v := Dense_fn (lin_proj self) (nth i (emb_weight (word_emb self)) []) in
         v ++ attend (stack_fn (intra_attn_emb (intra_attention self)) v)
                (map (stack_fn (intra_attn_emb (intra_attention self)))
                   (project_example self x))) x.
Proof.
  assert (G : forall (t : list (list R)) (fi : list R -> list R) (feat : list (list R)),
            zipWith (@app R) feat (map (fun u => attend u t) (map fi feat)) =
            map (fun v => v ++ attend (fi v) t) feat).
  { intros t fi feat. now rewrite map_map, zipWith_map_r, zipWith_diag. }
  unfold encode_example, intra_example, self_attend. rewrite G.
  generalize (map (stack_fn (intra_attn_emb (intra_attention self))) (project_example self x)).
  intros t. unfold project_example. rewrite map_map. reflexivity.
Qed.

Lemma encode_example_perm (self : NLIModel) (x x' : list nat) :
  fixed_width (intra_attn_emb (intra_attention self)) ->
  Permutation x x' -> Permutation (encode_example self x) (encode_example self x').
Proof.
  intros Fi P. rewrite !encode_example_map.
  assert (Pt : Permutation
                 (map (stack_fn (intra_attn_emb (intra_attention self))) (project_example self x))
                 (map (stack_fn (intra_attn_emb (intra_attention self))) (project_example self x'))).
  { unfold project_example. now apply Permutation_map, Permutation_map. }
  rewrite (map_ext
    (fun i => let v := Dense_fn (lin_proj self) (nth i (emb_weight (word_emb self)) []) in
       v ++ attend (stack_fn (intra_attn_emb (intra_attention self)) v)
              (map (stack_fn (intra_attn_emb (intra_attention self))) (project_example self x')))
    (fun i => let v := Dense_fn (lin_proj self) (nth i (emb_weight (word_emb self)) []) in
       v ++ attend (stack_fn (intra_attn_emb (intra_attention self)) v)
              (map (stack_fn (intra_attn_emb (intra_attention self))) (project_example self x)))).
  - apply Permutation_map, P.
  - intros i. simpl. f_equal. symmetry.
    apply (attend_perm (out_len (intra_attn_emb (intra_attention self)) 0)); [exact Pt|].
    apply (stack_rows_uniform _ (fun v => v) (project_example self x) Fi).
Qed.

Lemma NLI_example_perm (V E H : nat) (dropout : R) (p : NLIParams) (x1 x1' x2 x2' : list nat) :
  let self := NLIModel_init V E H dropout p in
  Permutation x1 x1' -> Permutation x2 x2' ->
  NLI_example self x1' x2' = NLI_example self x1 x2.
Proof.
  intros self P1 P2. unfold NLI_example.
  apply decomposable_example_perm.
  - apply init_stack_fixed_width.
  - apply init_stack_fixed_width.
  - apply encode_example_perm; [apply init_stack_fixed_width | exact P1].
  - apply encode_example_perm; [apply init_stack_fixed_width | exact P2].
Qed.

Lemma zipWith_related {A B C : Type} (P : A -> A -> Prop) (Q : B -> B -> Prop)
    (fn : A -> B -> C) (l1 l1' : list A) (l2 l2' : list B) :
  (forall x x' y y', P x x' -> Q y y' -> fn x' y' = fn x y) ->
  Forall2 P l1 l1' -> Forall2 Q l2 l2' -> zipWith fn l1' l2' = zipWith fn l1 l2.
Proof.
  intros Hfn F1. revert l2 l2'. induction F1 as [|x x' l1 l1' Px _ IH]; intros l2 l2' F2.
  - reflexivity.
  - destruct F2 as [|y y' l2 l2' Qy F2]; simpl; [reflexivity|].
    rewrite (Hfn x x' y y' Px Qy). f_equal. now apply IH.
Qed.

Lemma perm_tokens_in_range (V : nat) (s s' : list (list nat)) :
  Forall2 (@Permutation nat) s s' -> tokens_in_range V s -> tokens_in_range V s'.
Proof.
  unfold tokens_in_range. induction 1 as [|r r' s s' Pr _ IH]; intros Hs; [constructor|].
  inversion Hs; subst. constructor; auto.
  apply Forall_forall. intros i Hi. rewrite Forall_forall in H1. apply H1.
  eapply Permutation_in; [apply Permutation_sym, Pr | exact Hi].
Qed.

Lemma perm_tokens_out_of_range (V : nat) (s s' : list (list nat)) :
  Forall2 (@Permutation nat) s s' ->
  Exists (Exists (fun i => (V <= i)%nat)) s -> Exists (Exists (fun i => (V <= i)%nat)) s'.
Proof.
  induction 1 as [|r r' s s' Pr _ IH]; intros X; inversion X; subst.
  - apply Exists_cons_hd. apply Exists_exists in H0 as (i & Hi & Vi).
    apply Exists_exists. exists i. split; [|exact Vi].
    eapply Permutation_in; [exact Pr | exact Hi].
  - apply Exists_cons_tl. auto.
Qed.

Lemma perm_nonempty (s s' : list (list nat)) :
  Forall2 (@Permutation nat) s s' -> nonempty s -> nonempty s'.
Proof.
  unfold nonempty. induction 1 as [|r r' s s' Pr _ IH]; intros N; inversion N; subst;
    constructor; auto.
  intros ->. apply Permutation_sym, Permutation_nil in Pr. contradiction.
Qed.

(** With dropout disabled, reordering the tokens inside any sentences changes
    nothing of what the forward pass returns, failures included. *)
Lemma NLIModel_forward_perm (V E H : nat) (p : NLIParams)
    (s1 s1' s2 s2' : list (list nat)) (st : engine) :
  let self := NLIModel_init V E H 0 p in
  NLIParams_shape V E H p -> nonempty s1 -> nonempty s2 ->
  Forall2 (@Permutation nat) s1 s1' -> Forall2 (@Permutation nat) s2 s2' ->
  NLIModel_hybrid_forward self s1' s2' st = NLIModel_hybrid_forward self s1 s2 st.
Proof.
  intros self Hp N1 N2 P1 P2. subst self.
  destruct (tokens_in_range_dec V s1) as [R1|X1].
  2:{ rewrite (NLIModel_forward_oob1 (NLIModel_init V E H 0 p) s1 s2 st X1).
      apply NLIModel_forward_oob1. exact (perm_tokens_out_of_range V s1 s1' P1 X1). }
  pose proof (perm_tokens_in_range V s1 s1' P1 R1) as R1'.
  destruct (tokens_in_range_dec V s2) as [R2|X2].
  2:{ rewrite (NLIModel_forward_oob2 V E H 0 p s1 s2 st Hp R1 X2).
      apply NLIModel_forward_oob2; auto. exact (perm_tokens_out_of_range V s2 s2' P2 X2). }
  pose proof (perm_tokens_in_range V s2 s2' P2 R2) as R2'.
  pose proof (Forall2_length P1) as L1. pose proof (Forall2_length P2) as L2.
  destruct (Nat.eq_dec (length s1) (length s2)) as [EB|NB].
  2:{ rewrite (NLIModel_forward_batch_mismatch V E H 0 p s1 s2 st Hp R1 R2 NB).
      apply NLIModel_forward_batch_mismatch; auto. congruence. }
  destruct (NLIModel_forward_returns V E H 0 p s1 s2 st Hp R1 R2 EB N1 N2)
    as (y & st1 & Ey & _ & Vy).
  destruct (NLIModel_forward_returns V E H 0 p s1' s2' st Hp R1' R2')
    as (y' & st1' & Ey' & _ & Vy');
    [congruence | exact (perm_nonempty s1 s1' P1 N1) | exact (perm_nonempty s2 s2' P2 N2) |].
  destruct (Vy eq_refl) as [-> ->]. destruct (Vy' eq_refl) as [-> ->].
  cbv zeta in Ey, Ey'. rewrite Ey, Ey'. f_equal. f_equal.
  apply (zipWith_related (@Permutation nat) (@Permutation nat)); auto.
  intros x x' z z' Px Pz. apply NLI_example_perm; assumption.
Qed.

(** ** Entries *)

Lemma nth_map_in {A B : Type} (fn : A -> B) (l : list A) (i : nat) (d : B) (d' : A) :
  (i < length l)%nat -> nth i (map fn l) d = fn (nth i l d').
Proof.
  intros Hi. rewrite (nth_indep (map fn l) d (fn d')) by (now rewrite length_map).
  apply map_nth.
Qed.

Lemma nth_zipWith {A B C : Type} (fn : A -> B -> C) (l : list A) (l' : list B) (i : nat)
    (d : C) (da : A) (db : B) :
  (i < length l)%nat -> (i < length l')%nat ->
  nth i (zipWith fn l l') d = fn (nth i l da) (nth i l' db).
Proof.
  revert l l'. induction i as [|i IH]; intros [|x xs] [|y ys] Hl Hl'; simpl in *; try lia; auto.
  apply IH; lia.
Qed.

Lemma nth_map_seq {B : Type} (fn : nat -> B) (n i : nat) (d : B) :
  (i < n)%nat -> nth i (map fn (seq 0 n)) d = fn i.
Proof.
  intros Hi. rewrite (nth_map_in fn (seq 0 n) i d 0%nat) by (now rewrite length_seq).
  now rewrite seq_nth.
Qed.

Lemma big_sum_ext (n : nat) (p q : nat -> R) :
  (forall j, (j < n)%nat -> p j = q j) -> big_sum n p = big_sum n q.
Proof.
  intros E. unfold big_sum. f_equal. apply map_ext_in. intros j Hj.
  apply in_seq in Hj. apply E. lia.
Qed.

Lemma Rsum_map_big_sum {A : Type} (fn : A -> R) (l : list A) (d : A) :
  Rsum (map fn l) = big_sum (length l) (fun j => fn (nth j l d)).
Proof.
  unfold big_sum. now rewrite (map_nth_seq fn d l).
Qed.

Lemma zipWith_seq {A B C : Type} (fn : A -> B -> C) (l : list A) (l' : list B) (n : nat)
    (da : A) (db : B) :
  length l = n -> length l' = n ->
  zipWith fn l l' = map (fun k => fn (nth k l da) (nth k l' db)) (seq 0 n).
Proof.
  revert l l'. induction n as [|n IH]; intros [|x xs] [|y ys] Hl Hl'; simpl in *;
    try discriminate; auto.
  f_equal. rewrite <- seq_shift, map_map. apply IH; lia.
Qed.

Lemma dot_big_sum (H : nat) (u v : list R) :
  length u = H -> length v = H -> dot u v = big_sum H (fun k => nth k u 0 * nth k v 0).
Proof.
  intros Hu Hv. unfold dot, big_sum. now rewrite (zipWith_seq Rmult u v H 0 0 Hu Hv).
Qed.

Lemma nth_row_length {A : Type} (L H : nat) (m : list (list A)) (i : nat) :
  has_shape2 L H m -> (i < L)%nat -> length (nth i m []) = H.
Proof.
  intros [Lm Hm] Hi. rewrite Forall_forall in Hm. apply Hm, nth_In. lia.
Qed.

Lemma nth_batch_shape (B L H : nat) (x : list (list (list R))) (n : nat) :
  has_shape3 B L H x -> (n < B)%nat -> has_shape2 L H (nth n x []).
Proof.
  intros [Lx Hx] Hn. rewrite Forall_forall in Hx. apply Hx, nth_In. lia.
Qed.

(** Entry [k] of the soft alignment of [u] to the rows of [tm]. *)
Lemma attend_entry (L H : nat) (u : list R) (tm : list (list R)) (k : nat) :
  has_shape2 L H tm -> (k < H)%nat ->
  nth k (attend u tm) 0 =
  big_sum L (fun j =>
    exp (dot u (nth j tm [])) / big_sum L (fun j' => exp (dot u (nth j' tm [])))
    * nth k (nth j tm []) 0).
Proof.
  intros [Lt Ht] Hk. destruct tm as [|r rs].
  - simpl in Lt. subst L. destruct k; reflexivity.
  - rewrite attend_formula.
    rewrite (width_uniform H (r :: rs) Ht) by discriminate.
    rewrite nth_map_seq by exact Hk.
    rewrite (Rsum_map_big_sum _ (r :: rs) []), Lt.
    apply big_sum_ext. intros j _.
    now rewrite (Rsum_map_big_sum (fun r' => exp (dot u r')) (r :: rs) []), Lt.
Qed.

Lemma matmul_nt_entry (L1 L2 H : nat) (am tm : list (list R)) (i j : nat) :
  has_shape2 L1 H am -> has_shape2 L2 H tm -> (i < L1)%nat -> (j < L2)%nat ->
  nth j (nth i (matmul_nt am tm) []) 0 =
  big_sum H (fun k => nth k (nth i am []) 0 * nth k (nth j tm []) 0).
Proof.
  intros Ha Ht Hi Hj. unfold matmul_nt.
  rewrite (nth_map_in _ am i [] []) by (destruct Ha; lia).
  rewrite (nth_map_in _ tm j 0 []) by (destruct Ht; lia).
  apply dot_big_sum; eapply nth_row_length; eauto.
Qed.

Lemma dot_rows_score (L1 L2 H : nat) (am tm : list (list R)) (i j : nat) :
  has_shape2 L1 H am -> has_shape2 L2 H tm -> (i < L1)%nat -> (j < L2)%nat ->
  dot (nth i am []) (nth j tm []) =
  big_sum H (fun k => nth k (nth i am []) 0 * nth k (nth j tm []) 0).
Proof.
  intros Ha Ht Hi Hj. apply dot_big_sum; eapply nth_row_length; eauto.
Qed.

Lemma cross_rows_entry (L1 L2 H : nat) (am tm : list (list R)) (i k : nat) :
  has_shape2 L1 H am -> has_shape2 L2 H tm -> (i < L1)%nat -> (k < H)%nat ->
  nth k (nth i (map (fun u => attend u tm) am) []) 0 =
  big_sum L2 (fun j =>
    exp (big_sum H (fun k' => nth k' (nth i am []) 0 * nth k' (nth j tm []) 0)) /
    big_sum L2 (fun j' =>
      exp (big_sum H (fun k' => nth k' (nth i am []) 0 * nth k' (nth j' tm []) 0)))
    * nth k (nth j tm []) 0).
Proof.
  intros Ha Ht Hi Hk.
  rewrite (nth_map_in _ am i [] []) by (destruct Ha; lia).
  rewrite (attend_entry L2 H _ tm k Ht Hk).
  apply big_sum_ext. intros j Hj.
  rewrite (dot_rows_score L1 L2 H am tm i j Ha Ht Hi Hj). f_equal. f_equal.
  apply big_sum_ext. intros j' Hj'.
  now rewrite (dot_rows_score L1 L2 H am tm i j' Ha Ht Hi Hj').
Qed.

Lemma cross_cols_entry (L1 L2 H : nat) (am tm : list (list R)) (j k : nat) :
  has_shape2 L1 H am -> has_shape2 L2 H tm -> (j < L2)%nat -> (k < H)%nat ->
  nth k (nth j (map (fun v => attend v am) tm) []) 0 =
  big_sum L1 (fun i =>
    exp (big_sum H (fun k' => nth k' (nth i am []) 0 * nth k' (nth j tm []) 0)) /
    big_sum L1 (fun i' =>
      exp (big_sum H (fun k' => nth k' (nth i' am []) 0 * nth k' (nth j tm []) 0)))
    * nth k (nth i am []) 0).
Proof.
  intros Ha Ht Hj Hk.
  rewrite (nth_map_in _ tm j [] []) by (destruct Ht; lia).
  rewrite (attend_entry L1 H _ am k Ha Hk).
  apply big_sum_ext. intros i Hi.
  rewrite dot_comm, (dot_rows_score L1 L2 H am tm i j Ha Ht Hi Hj). f_equal. f_equal.
  apply big_sum_ext. intros i' Hi'.
  now rewrite dot_comm, (dot_rows_score L1 L2 H am tm i' j Ha Ht Hi' Hj).
Qed.

Lemma has_shape3_all_len (B L H : nat) (x : list (list (list R))) :
  has_shape3 B L H x -> all_len 2 H x.
Proof.
  intros [_ Hx]. apply all_len2_unfold. eapply Forall_impl; [|exact Hx].
  intros m [_ Hm]. exact Hm.
Qed.

Lemma has_shape3_nonempty (B L H : nat) (x : list (list (list R))) :
  has_shape3 B L H x -> (0 < L)%nat -> nonempty x.
Proof.
  intros [_ Hx] HL. unfold nonempty. eapply Forall_impl; [|exact Hx].
  intros m [Lm _] ->. simpl in Lm. lia.
Qed.

Lemma has_shape3_zipWith (B L1 L2 H L' H' : nat) (fn : list (list R) -> list (list R) -> list (list R))
    (x y : list (list (list R))) :
  has_shape3 B L1 H x -> has_shape3 B L2 H y ->
  (forall am tm, has_shape2 L1 H am -> has_shape2 L2 H tm -> has_shape2 L' H' (fn am tm)) ->
  has_shape3 B L' H' (zipWith fn x y).
Proof.
  intros [Lx Hx] [Ly Hy] Hfn. split.
  - rewrite zipWith_length. lia.
  - apply Forall_zipWith.
    assert (E : length x = length y) by congruence.
    eapply Forall2_impl; [|exact (Forall2_of_Forall E Hx Hy)].
    intros am tm [Ha Ht]. now apply Hfn.
Qed.

Lemma entry3_zipWith (B L1 L2 H : nat) (fn : list (list R) -> list (list R) -> list (list R))
    (x y : list (list (list R))) (n i k : nat) :
  has_shape3 B L1 H x -> has_shape3 B L2 H y -> (n < B)%nat ->
  entry3 (zipWith fn x y) n i k = nth k (nth i (fn (nth n x []) (nth n y [])) []) 0.
Proof.
  intros [Lx _] [Ly _] Hn. unfold entry3.
  now rewrite (nth_zipWith fn x y n [] [] []) by lia.
Qed.

(** The three arrays of the attention step on well-shaped arguments: their
    shapes, and each entry as the equations give it. *)
Lemma attention_entries (B L1 L2 H : nat) (ta tb : list (list (list R))) :
  has_shape3 B L1 H ta -> has_shape3 B L2 H tb -> (0 < L1)%nat -> (0 < L2)%nat ->
  exists e beta alpha,
    DecomposableAttention_attention ta tb = Ok (e, beta, alpha) /\
    (has_shape3 B L1 L2 e /\ has_shape3 B L1 H beta /\ has_shape3 B L2 H alpha) /\
    (forall n i j, (n < B)%nat -> (i < L1)%nat -> (j < L2)%nat ->
       entry3 e n i j = spec_score ta tb H n i j) /\
    (forall n i k, (n < B)%nat -> (i < L1)%nat -> (k < H)%nat ->
       entry3 beta n i k = spec_beta ta tb H L2 n i k) /\
    (forall n j k, (n < B)%nat -> (j < L2)%nat -> (k < H)%nat ->
       entry3 alpha n j k = spec_alpha ta tb H L1 n j k).
Proof.
  intros Ha Hb P1 P2.
  exists (zipWith matmul_nt ta tb),
         (zipWith (fun am tm => map (fun u => attend u tm) am) ta tb),
         (zipWith (fun am tm => map (fun v => attend v am) tm) ta tb).
  split; [|split; [|split; [|split]]].
  - apply (DecomposableAttention_attention_ok H).
    + destruct Ha, Hb. congruence.
    + exact (has_shape3_all_len B L1 H ta Ha).
    + exact (has_shape3_all_len B L2 H tb Hb).
    + exact (has_shape3_nonempty B L1 H ta Ha P1).
  - split; [|split].
    + apply (has_shape3_zipWith B L1 L2 H L1 L2 matmul_nt ta tb Ha Hb).
      intros am tm [La _] [Lt _]. unfold matmul_nt. split.
      * now rewrite length_map.
      * apply Forall_map, Forall_forall. intros u _. now rewrite length_map.
    + apply (has_shape3_zipWith B L1 L2 H L1 H _ ta tb Ha Hb).
      intros am tm [La _] [Lt Ht]. split.
      * now rewrite length_map.
      * apply Forall_map, Forall_forall. intros u _. rewrite attend_length.
        apply width_uniform; auto. intros ->. simpl in Lt. lia.
    + apply (has_shape3_zipWith B L1 L2 H L2 H _ ta tb Ha Hb).
      intros am tm [La Ham] [Lt _]. split.
      * now rewrite length_map.
      * apply Forall_map, Forall_forall. intros v _. rewrite attend_length.
        apply width_uniform; auto. intros ->. simpl in La. lia.
  - intros n i j Hn Hi Hj. rewrite (entry3_zipWith B L1 L2 H matmul_nt ta tb n i j Ha Hb Hn).
    apply (matmul_nt_entry L1 L2 H); auto.
    + exact (nth_batch_shape B L1 H ta n Ha Hn).
    + exact (nth_batch_shape B L2 H tb n Hb Hn).
  - intros n i k Hn Hi Hk. rewrite (entry3_zipWith B L1 L2 H _ ta tb n i k Ha Hb Hn).
    apply (cross_rows_entry L1 L2 H); auto.
    + exact (nth_batch_shape B L1 H ta n Ha Hn).
    + exact (nth_batch_shape B L2 H tb n Hb Hn).
  - intros n j k Hn Hj Hk. rewrite (entry3_zipWith B L1 L2 H _ ta tb n j k Ha Hb Hn).
    apply (cross_cols_entry L1 L2 H); auto.
    + exact (nth_batch_shape B L1 H ta n Ha Hn).
    + exact (nth_batch_shape B L2 H tb n Hb Hn).
Qed.

(** ** Attention weights *)

Lemma Forall_zipWith_in {A B C : Type} (P : C -> Prop) (fn : A -> B -> C)
    (l : list A) (l' : list B) :
  (forall x y, In x l -> In y l' -> P (fn x y)) -> Forall P (zipWith fn l l').
Proof.
  revert l'. induction l as [|x xs IH]; intros [|y ys] Hfn; simpl; constructor.
  - apply Hfn; simpl; auto.
  - apply IH. intros; apply Hfn; simpl; auto.
Qed.

Lemma batch_dot_inv (a t e : list (list (list R))) (tb : bool) :
  batch_dot a t tb = Ok e ->
  e = zipWith (fun am tm => matmul_nt am (if tb then tm else transpose tm)) a t.
Proof.
  unfold batch_dot. destruct (batch_dot_shape_ok a t tb); congruence.
Qed.

(** Softmax of the scores of [am] against a non-empty [tm]. *)
Lemma softmax_scores_rows (am tm : list (list R)) :
  tm <> [] -> Forall (fun row => Rsum row = 1) (map softmax_vec (matmul_nt am tm)).
Proof.
  intros Ht. unfold matmul_nt. rewrite map_map. apply Forall_map, Forall_forall.
  intros u _. apply softmax_vec_sum. destruct tm; simpl; congruence.
Qed.

(** Softmax of the transposed scores: a column exists only when [am] has a
    row, and then it has one entry per row of [am]. *)
Lemma softmax_transposed_rows (m : list (list R)) :
  Forall (fun row => Rsum row = 1) (map softmax_vec (transpose m)).
Proof.
  apply Forall_map. pose proof (transpose_rows m) as Hr.
  rewrite Forall_forall in *. intros c Hc. apply softmax_vec_sum.
  specialize (Hr c Hc). intros ->. simpl in Hr.
  destruct m; [|discriminate]. exact Hc.
Qed.

Lemma intra_weights_rows (ta w : list (list (list R))) :
  IntraSentenceAttention_weights ta = Ok w -> rows_sum_to_one w.
Proof.
  unfold IntraSentenceAttention_weights. destruct (batch_dot ta ta true) as [e|] eqn:E;
    [|discriminate].
  intros W; inversion W; subst w; clear W. apply batch_dot_inv in E. subst e.
  unfold rows_sum_to_one, softmax. apply Forall_map. rewrite zipWith_diag.
  apply Forall_map, Forall_forall. intros am _.
  unfold matmul_nt. rewrite map_map. apply Forall_map, Forall_forall.
  intros u Hu. apply softmax_vec_sum. destruct am; [inversion Hu | simpl; congruence].
Qed.

Lemma cross_weights_rows (ta tb w1 w2 : list (list (list R))) :
  nonempty tb ->
  DecomposableAttention_weights ta tb = Ok (w1, w2) ->
  rows_sum_to_one w1 /\ rows_sum_to_one w2.
Proof.
  intros Nb. unfold DecomposableAttention_weights.
  destruct (batch_dot ta tb true) as [e|] eqn:E; [|discriminate].
  intros W; inversion W; subst w1 w2; clear W. apply batch_dot_inv in E. subst e.
  unfold rows_sum_to_one, softmax, transpose_021. split.
  - apply Forall_map, Forall_zipWith_in. intros am tm _ Ht.
    change (Forall (fun row => Rsum row = 1) (map softmax_vec (matmul_nt am tm))).
    apply softmax_scores_rows. unfold nonempty in Nb. rewrite Forall_forall in Nb. auto.
  - rewrite map_map. apply Forall_map, Forall_forall. intros m _.
    apply softmax_transposed_rows.
Qed.

(** The weights named above are the arrays the forward passes multiply with:
    the intra-sentence block returns the product of its weights with
    [tilde_a], and the attention step of the decomposable block returns the
    products of its two weight arrays with [tilde_b] and with [tilde_a]. *)
Lemma IntraSentenceAttention_forward_weights (self : IntraSentenceAttention)
    (x : list (list (list R))) (st : engine) :
  IntraSentenceAttention_hybrid_forward self x st =
  bind (HybridSequential_forward 2 (intra_attn_emb self) x) (fun tilde_a =>
  bind (lift (IntraSentenceAttention_weights tilde_a)) (fun w =>
    lift (batch_dot w tilde_a false))) st.
Proof.
  unfold IntraSentenceAttention_hybrid_forward, IntraSentenceAttention_weights, bind, lift, ret.
  destruct (HybridSequential_forward 2 (intra_attn_emb self) x st) as [[ta st']|];
    [|reflexivity].
  destruct (batch_dot ta ta true) as [e|]; [|reflexivity]. simpl.
  destruct (batch_dot (softmax e) ta false); reflexivity.
Qed.

Lemma DecomposableAttention_attention_weights (tilde_a tilde_b : list (list (list R))) :
  result_map (fun eba => (snd (fst eba), snd eba))
    (DecomposableAttention_attention tilde_a tilde_b) =
  match DecomposableAttention_weights tilde_a tilde_b with
  | Err err => Err err
  | Ok (w1, w2) =>
      match batch_dot w1 tilde_b false with
      | Err err => Err err
      | Ok beta =>
          match batch_dot w2 tilde_a false with
          | Err err => Err err
          | Ok alpha => Ok (beta, alpha)
          end
      end
  end.
Proof.
  unfold DecomposableAttention_attention, DecomposableAttention_weights.
  destruct (batch_dot tilde_a tilde_b true) as [e|]; [|reflexivity]. simpl.
  destruct (batch_dot (softmax e) tilde_b false) as [beta|]; [|reflexivity].
  destruct (batch_dot (softmax (transpose_021 e)) tilde_a false); reflexivity.
Qed.

(** ** One position *)

Lemma attend_single (u : list R) : attend u [u] = u.
Proof.
  rewrite attend_formula. unfold width. simpl hd.
  transitivity (map (fun j => nth j u 0) (seq 0 (length u))).
  - apply map_ext. intros j. simpl. pose proof (exp_pos (dot u u)). field. lra.
  - rewrite (map_nth_seq (fun x => x) 0 u). apply map_id.
Qed.

Lemma self_attend_single (m : list (list R)) : length m = 1%nat -> self_attend m = m.
Proof.
  destruct m as [|u [|v m']]; simpl; try discriminate. intros _.
  unfold self_attend. simpl. now rewrite attend_single.
Qed.

Lemma IntraSentenceAttention_single_position (inp hid : nat) (self : IntraSentenceAttention)
    (x : list (list (list R))) (st : engine) :
  stack_wf inp hid (intra_attn_emb self) -> all_len 2 inp x ->
  Forall (fun m => length m = 1%nat) x ->
  IntraSentenceAttention_hybrid_forward self x st =
  HybridSequential_forward 2 (intra_attn_emb self) x st.
Proof.
  intros Hwf Hx H1.
  destruct (HybridSequential_forward_returns 2 inp hid (intra_attn_emb self) x st Hwf Hx)
    as (ta & st' & E & Hl & Ho & _).
  rewrite (IntraSentenceAttention_after_stack hid self x ta st st' E Hl), E.
  assert (Es : map self_attend ta = ta); [|now rewrite Es].
  rewrite <- (map_id ta) at 2. apply map_ext_in.
  intros m Hm. apply self_attend_single.
  apply same_outer2_unfold in Ho.
  clear - Ho H1 Hm. induction Ho as [|m0 m1 x' ta' Em _ IH]; [inversion Hm|].
  inversion H1; subst. destruct Hm as [<-|Hm]; [congruence | auto].
Qed.

(** ** Shapes of inputs *)

Lemma has_shape2_nonempty {A : Type} (B L : nat) (x : list (list A)) :
  has_shape2 B L x -> (0 < L)%nat -> nonempty x.
Proof.
  intros [_ Hx] HL. unfold nonempty. eapply Forall_impl; [|exact Hx].
  intros r Hr ->. simpl in Hr. lia.
Qed.

Lemma has_shape3_of_outer (B L inp H : nat) (x y : list (list (list R))) :
  has_shape3 B L inp x -> same_outer 2 x y -> all_len 2 H y -> has_shape3 B L H y.
Proof.
  intros [Lx Hx] Ho Hy. apply same_outer2_unfold in Ho. apply all_len2_unfold in Hy. split.
  - rewrite <- (Forall2_length Ho). exact Lx.
  - clear Lx. induction Ho as [|m m' x' y' Em _ IH]; [constructor|].
    inversion Hx as [|? ? [Lm _] Hx']; inversion Hy; subst. constructor; auto.
    split; [congruence | assumption].
Qed.

(** * The claims *)

(** C1 (as amended).  With dropout disabled and fixed parameters of the
    declared shapes, for every input without an empty sentence and every
    reordering of the tokens inside the sentences of either argument, the
    forward pass returns the same class scores (or the same failure), from any
    engine state: the model is invariant to within-sentence word order. *)
Theorem NLIModel_word_order_invariant (V E H : nat) (p : NLIParams)
    (s1 s1' s2 s2' : list (list nat)) (st st' : engine) :
  NLIParams_shape V E H p -> nonempty s1 -> nonempty s2 ->
  Forall2 (@Permutation nat) s1 s1' -> Forall2 (@Permutation nat) s2 s2' ->
  value (NLIModel_hybrid_forward (NLIModel_init V E H 0 p) s1' s2' st') =
  value (NLIModel_hybrid_forward (NLIModel_init V E H 0 p) s1 s2 st).
Proof.
  intros Hp N1 N2 P1 P2.
  rewrite (state_independent_value _ st' st (state_independent_model V E H p s1' s2')).
  f_equal. exact (NLIModel_forward_perm V E H p s1 s1' s2 s2' st Hp N1 N2 P1 P2).
Qed.

(** C2.  Cross-attention soft alignment: on inputs [a] of shape
    [[B, L1, inp_size]] and [b] of shape [[B, L2, inp_size]], the attend stack
    returns [tilde_a] and [tilde_b] of shapes [[B, L1, H]] and [[B, L2, H]];
    the score array [e] is the batched product of [tilde_a] with the transpose
    of [tilde_b], of shape [[B, L1, L2]]; [beta], of shape [[B, L1, H]],
    weighs the rows of [tilde_b] by the softmax of the rows of [e]; [alpha],
    of shape [[B, L2, H]], weighs the rows of [tilde_a] by the softmax of the
    columns of [e], normalised over the [L1] axis; and the forward pass goes
    on with these arrays. *)
Theorem DecomposableAttention_soft_alignment (inp H B L1 L2 : nat)
    (self : DecomposableAttention) (a b0 : list (list (list R))) (st : engine) :
  stack_wf inp H (f self) ->
  has_shape3 B L1 inp a -> has_shape3 B L2 inp b0 -> (0 < L1)%nat -> (0 < L2)%nat ->
  exists tilde_a st1 tilde_b st2 e beta alpha,
    HybridSequential_forward 2 (f self) a st = Ok (tilde_a, st1) /\
    HybridSequential_forward 2 (f self) b0 st1 = Ok (tilde_b, st2) /\
    has_shape3 B L1 H tilde_a /\ has_shape3 B L2 H tilde_b /\
    DecomposableAttention_attention tilde_a tilde_b = Ok (e, beta, alpha) /\
    (has_shape3 B L1 L2 e /\ has_shape3 B L1 H beta /\ has_shape3 B L2 H alpha) /\
    (forall n i j, (n < B)%nat -> (i < L1)%nat -> (j < L2)%nat ->
       entry3 e n i j = spec_score tilde_a tilde_b H n i j) /\
    (forall n i k, (n < B)%nat -> (i < L1)%nat -> (k < H)%nat ->
       entry3 beta n i k = spec_beta tilde_a tilde_b H L2 n i k) /\
    (forall n j k, (n < B)%nat -> (j < L2)%nat -> (k < H)%nat ->
       entry3 alpha n j k = spec_alpha tilde_a tilde_b H L1 n j k) /\
    DecomposableAttention_hybrid_forward self a b0 st =
      DecomposableAttention_compare_aggregate self tilde_a tilde_b beta alpha st2.
Proof.
  intros Hf Ha Hb P1 P2.
  destruct (HybridSequential_forward_returns 2 inp H (f self) a st Hf
              (has_shape3_all_len B L1 inp a Ha)) as (ta & st1 & E1 & Hta & Ota & _).
  destruct (HybridSequential_forward_returns 2 inp H (f self) b0 st1 Hf
              (has_shape3_all_len B L2 inp b0 Hb)) as (tb & st2 & E2 & Htb & Otb & _).
  pose proof (has_shape3_of_outer B L1 inp H a ta Ha Ota Hta) as Sa.
  pose proof (has_shape3_of_outer B L2 inp H b0 tb Hb Otb Htb) as Sb.
  destruct (attention_entries B L1 L2 H ta tb Sa Sb P1 P2)
    as (e & beta & alpha & Eatt & Hsh & He & Hbeta & Halpha).
  exists ta, st1, tb, st2, e, beta, alpha.
  repeat (split; [assumption|]).
  rewrite DecomposableAttention_forward_factor. unfold bind at 1. rewrite E1.
  unfold bind at 1. rewrite E2. unfold bind at 1, lift. rewrite Eatt. reflexivity.
Qed.

(** C3.  Row-stochastic attention weights: on arrays of the shapes the
    forward passes produce, with sentences of positive length, the weights
    [softmax(tilde_a . tilde_a^T)] of the intra-sentence attention and both
    weights [softmax(e)] and [softmax(e^T)] of the cross-sentence attention
    are computed, and every row of each sums to 1. *)
Theorem attention_weights_row_stochastic (B L1 L2 H : nat)
    (tilde_a tilde_b : list (list (list R))) :
  has_shape3 B L1 H tilde_a -> has_shape3 B L2 H tilde_b -> (0 < L2)%nat ->
  exists wi w1 w2,
    IntraSentenceAttention_weights tilde_a = Ok wi /\
    DecomposableAttention_weights tilde_a tilde_b = Ok (w1, w2) /\
    rows_sum_to_one wi /\ rows_sum_to_one w1 /\ rows_sum_to_one w2.
Proof.
  intros Ha Hb P2.
  pose proof (has_shape3_all_len B L1 H tilde_a Ha) as La.
  pose proof (has_shape3_all_len B L2 H tilde_b Hb) as Lb.
  assert (Ei : IntraSentenceAttention_weights tilde_a =
               Ok (softmax (zipWith matmul_nt tilde_a tilde_a))).
  { unfold IntraSentenceAttention_weights.
    now rewrite (batch_dot_nt_ok H tilde_a tilde_a eq_refl La La). }
  assert (Ec : DecomposableAttention_weights tilde_a tilde_b =
               Ok (softmax (zipWith matmul_nt tilde_a tilde_b),
                   softmax (transpose_021 (zipWith matmul_nt tilde_a tilde_b)))).
  { unfold DecomposableAttention_weights.
    rewrite (batch_dot_nt_ok H tilde_a tilde_b); auto. destruct Ha, Hb. congruence. }
  do 3 eexists. split; [exact Ei|]. split; [exact Ec|]. split.
  - exact (intra_weights_rows tilde_a _ Ei).
  - exact (cross_weights_rows tilde_a tilde_b _ _ (has_shape3_nonempty B L2 H tilde_b Hb P2) Ec).
Qed.

(** C4.  Output shape: for every batch size [B] and sentence lengths [L1] and
    [L2] (array axes are positive), on token indices below [vocab_size] the
    forward pass returns an array of shape [[B, 3]], whatever the dropout rate
    and the engine state. *)
Theorem NLIModel_output_shape (V E H : nat) (dropout : R) (p : NLIParams) (B L1 L2 : nat)
    (s1 s2 : list (list nat)) (st : engine) :
  NLIParams_shape V E H p ->
  has_shape2 B L1 s1 -> has_shape2 B L2 s2 -> (0 < L1)%nat -> (0 < L2)%nat ->
  tokens_in_range V s1 -> tokens_in_range V s2 ->
  exists y st',
    NLIModel_hybrid_forward (NLIModel_init V E H dropout p) s1 s2 st = Ok (y, st') /\
    has_shape2 B 3 y.
Proof.
  intros Hp S1 S2 P1 P2 R1 R2.
  destruct (NLIModel_forward_returns V E H dropout p s1 s2 st Hp R1 R2)
    as (y & st' & Ey & Hy & _).
  - destruct S1, S2. congruence.
  - exact (has_shape2_nonempty B L1 s1 S1 P1).
  - exact (has_shape2_nonempty B L2 s2 S2 P2).
  - exists y, st'. split; [exact Ey|]. destruct S1 as [<- _]. exact Hy.
Qed.

(** C5.  Weight sharing between the sentence paths: the forward pass runs the
    sentence-1 path on its first argument and the sentence-2 path on its
    second; both paths are the same continuation of the one stage
    [lin_proj(dropout_layer(word_emb(x)))], read from the same layers of the
    model, and with dropout disabled they return the same result on the same
    token array, from whichever engine states they are run. *)
Theorem NLIModel_sentence_paths_share_weights (V E H : nat) (p : NLIParams)
    (x : list (list nat)) (st st' : engine) :
  let self := NLIModel_init V E H 0 p in
  let continue feature :=
    bind (IntraSentenceAttention_hybrid_forward (intra_attention self) feature)
      (fun attended => lift (concat3 feature attended)) in
  (forall sentence1 sentence2 st0,
     NLIModel_hybrid_forward self sentence1 sentence2 st0 =
     bind (NLIModel_sentence1_path self sentence1) (fun feature1 =>
     bind (NLIModel_sentence2_path self sentence2) (fun feature2 =>
       DecomposableAttention_hybrid_forward (model self) feature1 feature2)) st0) /\
  NLIModel_sentence1_path self x st = bind (NLIModel_project self x) continue st /\
  NLIModel_sentence2_path self x st' = bind (NLIModel_project self x) continue st' /\
  value (NLIModel_project self x st) = value (NLIModel_project self x st') /\
  value (NLIModel_sentence1_path self x st) = value (NLIModel_sentence2_path self x st').
Proof.
  intros self continue.
  assert (D0 : rate (dropout_layer self) = 0) by reflexivity.
  assert (Di : dropout_disabled (intra_attn_emb (intra_attention self)))
    by (apply init_stack_disabled; reflexivity).
  split; [exact (NLIModel_forward_factor self)|].
  split; [exact (NLIModel_path_factor self x st)|].
  split; [exact (NLIModel_path_factor self x st')|].
  split.
  - apply state_independent_value. unfold NLIModel_project. independent_steps.
  - change (NLIModel_sentence2_path self x st') with (NLIModel_sentence1_path self x st').
    apply state_independent_value. now apply state_independent_path.
Qed.

(** C6.  Intra-sentence attention: the block's stack [F_intra] is dropout,
    dense with ReLU, dropout, dense with ReLU, dense; on a feature of shape
    [[B, L, inp_size]] the stack returns [tilde_a] of shape
    [[B, L, hidden_size]] (with dropout disabled, the three dense layers
    applied to every position on its own) and the block returns [alpha], of
    the same shape, with [alpha = softmax(tilde_a . tilde_a^T) . tilde_a] entry
    by entry.  The block returns [alpha] alone; it is [NLIModel] that
    concatenates it with the feature. *)
Theorem IntraSentenceAttention_algorithm (inp hid : nat) (dropout : R) (p : StackParams)
    (B L : nat) (feature : list (list (list R))) (st : engine) :
  let self := IntraSentenceAttention_init inp hid dropout p in
  StackParams_shape inp hid hid p -> has_shape3 B L inp feature ->
  intra_attn_emb self =
    [ Dropout_block {| rate := dropout |};
      Dense_block (Dense_init hid inp (Some relu_activation) (layer1 p));
      Dropout_block {| rate := dropout |};
      Dense_block (Dense_init hid hid (Some relu_activation) (layer2 p));
      Dense_block (Dense_init hid hid None (layer3 p)) ] /\
  (exists tilde_a alpha st',
     HybridSequential_forward 2 (intra_attn_emb self) feature st = Ok (tilde_a, st') /\
     has_shape3 B L hid tilde_a /\
     (dropout = 0 -> tilde_a = map_vectors 2 (stack_fn (intra_attn_emb self)) feature) /\
     IntraSentenceAttention_hybrid_forward self feature st = Ok (alpha, st') /\
     has_shape3 B L hid alpha /\
     forall n i k, (n < B)%nat -> (i < L)%nat -> (k < hid)%nat ->
       entry3 alpha n i k = spec_beta tilde_a tilde_a hid L n i k) /\
  (forall (m : NLIModel) (s : list (list nat)) (st0 : engine),
     NLIModel_sentence1_path m s st0 =
     bind (NLIModel_project m s) (fun feature1 =>
     bind (IntraSentenceAttention_hybrid_forward (intra_attention m) feature1)
       (fun attended1 => lift (concat3 feature1 attended1))) st0).
Proof.
  intros self Hp Hx. split; [reflexivity|]. split; [|apply NLIModel_path_factor].
  assert (Hwf : stack_wf inp hid (intra_attn_emb self)) by (apply init_stack_wf; exact Hp).
  destruct (HybridSequential_forward_returns 2 inp hid (intra_attn_emb self) feature st Hwf
              (has_shape3_all_len B L inp feature Hx)) as (ta & st' & E & Hl & Ho & Hv).
  pose proof (has_shape3_of_outer B L inp hid feature ta Hx Ho Hl) as Sa.
  exists ta, (map self_attend ta), st'.
  split; [exact E|]. split; [exact Sa|].
  split; [intros D0; apply Hv, init_stack_disabled; exact D0|].
  split; [exact (IntraSentenceAttention_after_stack hid self feature ta st st' E Hl)|].
  assert (Ez : map self_attend ta =
               zipWith (fun am tm => map (fun u => attend u tm) am) ta ta).
  { now rewrite zipWith_diag. }
  split.
  - rewrite Ez. apply (has_shape3_zipWith B L L hid L hid _ ta ta Sa Sa).
    intros am tm [La Ham] [Lt Ht]. split.
    + now rewrite length_map.
    + apply Forall_map, Forall_forall. intros u Hu. rewrite attend_length.
      apply width_uniform; auto. intros ->. simpl in Lt. subst L.
      destruct am; [inversion Hu | discriminate].
  - intros n i k Hn Hi Hk. rewrite Ez.
    rewrite (entry3_zipWith B L L hid _ ta ta n i k Sa Sa Hn).
    apply (cross_rows_entry L L hid); auto; exact (nth_batch_shape B L hid ta n Sa Hn).
Qed.

(** C7.  Determinism without dropout: with dropout probability 0 and fixed
    parameters, two invocations of the forward pass on the same inputs return
    the same result, whatever the training flag and the state of the random
    generator at each invocation. *)
Theorem NLIModel_deterministic_without_dropout (V E H : nat) (p : NLIParams)
    (s1 s2 : list (list nat)) (st st' : engine) :
  value (NLIModel_hybrid_forward (NLIModel_init V E H 0 p) s1 s2 st) =
  value (NLIModel_hybrid_forward (NLIModel_init V E H 0 p) s1 s2 st').
Proof.
  apply state_independent_value, state_independent_model.
Qed.

(** C8.  Out-of-range token index: with the lookup failing on an index at or
    beyond [vocab_size], the forward pass fails with the index error exactly
    on the inputs that hold such an index; the failure is the one of the
    embedding lookup of the sentence that holds it, and the model checks no
    bound itself: on indices in range no index error can arise. *)
Theorem NLIModel_out_of_range_token (V E H : nat) (dropout : R) (p : NLIParams)
    (s1 s2 : list (list nat)) (st : engine) :
  let self := NLIModel_init V E H dropout p in
  NLIParams_shape V E H p ->
  (NLIModel_hybrid_forward self s1 s2 st = Err IndexOutOfBounds <->
   Exists (Exists (fun i => (V <= i)%nat)) s1 \/ Exists (Exists (fun i => (V <= i)%nat)) s2) /\
  (Exists (Exists (fun i => (V <= i)%nat)) s1 ->
   Embedding_forward (word_emb self) s1 = Err IndexOutOfBounds) /\
  (Exists (Exists (fun i => (V <= i)%nat)) s2 ->
   Embedding_forward (word_emb self) s2 = Err IndexOutOfBounds).
Proof.
  intros self Hp. split; [|split].
  - split.
    + intros Eerr.
      destruct (tokens_in_range_dec V s1) as [R1|X1]; [|now left].
      destruct (tokens_in_range_dec V s2) as [R2|X2]; [|now right].
      exfalso.
      assert (Hw : length (emb_weight (word_emb self)) = input_dim (word_emb self))
        by exact (proj1 (proj1 Hp)).
      pose proof (shape_errors_model self s1 s2 Hw R1 R2 st IndexOutOfBounds Eerr).
      discriminate.
    + intros [X1|X2].
      * exact (NLIModel_forward_oob1 self s1 s2 st X1).
      * destruct (tokens_in_range_dec V s1) as [R1|X1].
        -- exact (NLIModel_forward_oob2 V E H dropout p s1 s2 st Hp R1 X2).
        -- exact (NLIModel_forward_oob1 self s1 s2 st X1).
  - exact (Embedding_forward_oob (word_emb self) s1).
  - exact (Embedding_forward_oob (word_emb self) s2).
Qed.

(** C9.  One position: on a feature of sequence length 1 the block returns
    exactly what its stack [F_intra] returns, since the single attention weight
    is 1.  This holds for the run from any engine state, whatever the dropout
    rate; with dropout disabled the result is [F_intra] applied to the
    feature. *)
Theorem IntraSentenceAttention_length_one (inp hid : nat) (dropout : R) (p : StackParams)
    (B : nat) (feature : list (list (list R))) (st : engine) :
  let self := IntraSentenceAttention_init inp hid dropout p in
  StackParams_shape inp hid hid p -> has_shape3 B 1 inp feature ->
  IntraSentenceAttention_hybrid_forward self feature st =
    HybridSequential_forward 2 (intra_attn_emb self) feature st /\
  (dropout = 0 ->
   IntraSentenceAttention_hybrid_forward self feature st =
     Ok (map_vectors 2 (stack_fn (intra_attn_emb self)) feature, st)).
Proof.
  intros self Hp Hx.
  assert (Hwf : stack_wf inp hid (intra_attn_emb self)) by (apply init_stack_wf; exact Hp).
  pose proof (has_shape3_all_len B 1 inp feature Hx) as Hl.
  assert (E1 : IntraSentenceAttention_hybrid_forward self feature st =
               HybridSequential_forward 2 (intra_attn_emb self) feature st).
  { apply (IntraSentenceAttention_single_position inp hid self feature st Hwf Hl).
    destruct Hx as [_ Hx]. eapply Forall_impl; [|exact Hx]. intros m [Lm _]. exact Lm. }
  split; [exact E1|]. intros D0. rewrite E1.
  destruct (HybridSequential_forward_returns 2 inp hid (intra_attn_emb self) feature st Hwf Hl)
    as (ta & st' & E & _ & _ & Hv).
  destruct Hv as [-> ->]; [apply init_stack_disabled; exact D0 | exact E].
Qed.

(** C10.  Batch noninterference: with dropout disabled, two valid inputs that
    agree at batch index [i] in both arguments yield outputs that agree at
    row [i], whatever the other batch elements (and the batch sizes) are. *)
Theorem NLIModel_batch_noninterference (V E H : nat) (p : NLIParams)
    (s1 s2 s1' s2' : list (list nat)) (i : nat) (st st' : engine) :
  let self := NLIModel_init V E H 0 p in
  NLIParams_shape V E H p -> valid_input V s1 s2 -> valid_input V s1' s2' ->
  nth_error s1 i = nth_error s1' i -> nth_error s2 i = nth_error s2' i ->
  exists y y',
    value (NLIModel_hybrid_forward self s1 s2 st) = Ok y /\
    value (NLIModel_hybrid_forward self s1' s2' st') = Ok y' /\
    nth_error y i = nth_error y' i.
Proof.
  intros self Hp (R1 & R2 & EB & N1 & N2) (R1' & R2' & EB' & N1' & N2') A1 A2.
  destruct (NLIModel_forward_returns V E H 0 p s1 s2 st Hp R1 R2 EB N1 N2)
    as (y & st1 & Ey & _ & Vy).
  destruct (NLIModel_forward_returns V E H 0 p s1' s2' st' Hp R1' R2' EB' N1' N2')
    as (y' & st1' & Ey' & _ & Vy').
  destruct (Vy eq_refl) as [-> _]. destruct (Vy' eq_refl) as [-> _].
  exists (zipWith (NLI_example self) s1 s2), (zipWith (NLI_example self) s1' s2').
  fold self in Ey, Ey'. rewrite Ey, Ey'.
  split; [reflexivity|]. split; [reflexivity|].
  now rewrite !nth_error_zipWith, A1, A2.
Qed.

(** * Further properties of the three blocks *)

(** ** Which inputs the blocks accept *)

Lemma bind_ok {A B : Type} (c : M A) (k : A -> M B) (st st' : engine) (a : A) :
  c st = Ok (a, st') -> bind c k st = k a st'.
Proof. intros E. unfold bind. now rewrite E. Qed.

Lemma bind_err {A B : Type} (c : M A) (k : A -> M B) (st : engine) (e : error) :
  c st = Err e -> bind c k st = Err e.
Proof. intros E. unfold bind. now rewrite E. Qed.

Lemma same_shape_sym (n : nat) (x y : tensor n) : same_shape n x y -> same_shape n y x.
Proof.
  revert x y. induction n as [|r IH]; intros x y; simpl; [auto|].
  induction 1; constructor; auto.
Qed.

Lemma all_len_dec (n k : nat) (x : tensor (S n)) : all_len n k x \/ ~ all_len n k x.
Proof.
  unfold all_len. revert x. induction n as [|r IH]; intros x; simpl.
  - destruct (Nat.eq_dec (length x) k); auto.
  - induction x as [|a x IHx]; [left; constructor|].
    destruct (IH a) as [Ha|Na]; [|right; intros F; inversion F; auto].
    destruct IHx as [Hx|Nx]; [left; constructor; auto|right; intros F; inversion F; auto].
Qed.

(** A dense layer returns only on vectors of [in_units] entries. *)
Lemma Dense_forward_ok_inv (n : nat) (d : Dense) (x y : tensor (S n)) :
  Dense_forward n d x = Ok y -> all_len n (in_units d) x.
Proof.
  unfold Dense_forward, all_len. revert x y. induction n as [|r IH]; intros x y; simpl.
  - unfold Dense_apply.
    destruct (Nat.eqb_spec (length x) (in_units d)); intros Hy; [assumption|discriminate].
  - revert y. induction x as [|a x IHx]; intros y Hy; simpl in *; [constructor|].
    destruct (on_vectors r (Dense_apply d) a) eqn:Ea; [|discriminate Hy].
    match type of Hy with
    | context [match ?m with _ => _ end] => destruct m eqn:Ex; [|discriminate Hy]
    end.
    constructor; [eapply IH; eauto | eapply IHx; eauto].
Qed.

(** A stack as the constructors build it, dropout then dense, rejects an
    array with a vector that has not [in_units] entries: dropout keeps the
    shape and the first dense layer fails. *)
Lemma stack_rejects_width (n : nat) (d0 : Dropout) (d1 : Dense) (ls : HybridSequential)
    (x : tensor (S n)) (st : engine) :
  ~ all_len n (in_units d1) x ->
  HybridSequential_forward n (Dropout_block d0 :: Dense_block d1 :: ls) x st =
  Err DimensionMismatch.
Proof.
  intros N. simpl.
  destruct (Dropout_forward_returns (S n) d0 x st) as (y & st' & Ey & Sy & _).
  rewrite (bind_ok _ _ st st' y Ey). apply bind_err. unfold lift.
  destruct (Dense_forward n d1 y) as [z|e] eqn:Ed.
  - exfalso. apply N. apply Dense_forward_ok_inv in Ed.
    exact (same_shape_all_len n (in_units d1) y x (same_shape_sym (S n) x y Sy) Ed).
  - apply Dense_forward_err in Ed. now subst.
Qed.

Lemma init_decomposable_stacks (inp hid C : nat) (dropout : R) (p : DecomposableParams) :
  let self := DecomposableAttention_init inp hid C dropout p in
  DecomposableParams_shape inp hid C p ->
  stack_wf inp hid (f self) /\ stack_wf (hid * 2) hid (g self) /\ stack_wf (hid * 2) C (h self).
Proof.
  intros self (Hf & Hg & Hh). split; [|split]; apply init_stack_wf; assumption.
Qed.

(** X1.  [NLIModel.hybrid_forward] accepts exactly the valid inputs: with
    parameters of the declared shapes and no empty sentence, the forward pass
    returns, whatever the dropout rate and the engine state, if and only if
    every token index is below [vocab_size] and both arguments have the same
    batch size. *)
Theorem NLIModel_accepts_exactly_valid_input (V E H : nat) (dropout : R) (p : NLIParams)
    (s1 s2 : list (list nat)) (st : engine) :
  NLIParams_shape V E H p -> nonempty s1 -> nonempty s2 ->
  ((exists y st',
      NLIModel_hybrid_forward (NLIModel_init V E H dropout p) s1 s2 st = Ok (y, st')) <->
   tokens_in_range V s1 /\ tokens_in_range V s2 /\ length s1 = length s2).
Proof.
  intros Hp N1 N2. split.
  - intros (y & st' & Ey).
    destruct (tokens_in_range_dec V s1) as [R1|X1].
    2:{ rewrite (NLIModel_forward_oob1 (NLIModel_init V E H dropout p) s1 s2 st X1) in Ey.
        discriminate Ey. }
    destruct (tokens_in_range_dec V s2) as [R2|X2].
    2:{ rewrite (NLIModel_forward_oob2 V E H dropout p s1 s2 st Hp R1 X2) in Ey.
        discriminate Ey. }
    destruct (Nat.eq_dec (length s1) (length s2)) as [EB|NB]; [auto|].
    rewrite (NLIModel_forward_batch_mismatch V E H dropout p s1 s2 st Hp R1 R2 NB) in Ey.
    discriminate Ey.
  - intros (R1 & R2 & EB).
    destruct (NLIModel_forward_returns V E H dropout p s1 s2 st Hp R1 R2 EB N1 N2)
      as (y & st' & Ey & _).
    exists y, st'. exact Ey.
Qed.

(** X2.  Batch sizes are compared nowhere in [NLIModel.hybrid_forward]
    itself: on arguments of different batch sizes with indices in range, both
    sentence paths return, the second one running from the engine state the
    first one left, each with the batch size of its argument; it is the
    decomposable attention block, called on the two results, that fails with
    a dimension mismatch, and this is the failure of the forward pass. *)
Theorem NLIModel_batch_size_mismatch (V E H : nat) (dropout : R) (p : NLIParams)
    (s1 s2 : list (list nat)) (st : engine) :
  let self := NLIModel_init V E H dropout p in
  NLIParams_shape V E H p -> tokens_in_range V s1 -> tokens_in_range V s2 ->
  length s1 <> length s2 ->
  exists feature1 st1 feature2 st2,
    NLIModel_sentence1_path self s1 st = Ok (feature1, st1) /\
    NLIModel_sentence2_path self s2 st1 = Ok (feature2, st2) /\
    length feature1 = length s1 /\ length feature2 = length s2 /\
    DecomposableAttention_hybrid_forward (model self) feature1 feature2 st2 =
      Err DimensionMismatch /\
    NLIModel_hybrid_forward self s1 s2 st = Err DimensionMismatch.
Proof.
  intros self Hp R1 R2 NE.
  destruct (NLIModel_path_returns V E H dropout p s1 st Hp R1)
    as (f1 & st1 & E1 & Hf1 & O1 & _).
  destruct (NLIModel_path_returns V E H dropout p s2 st1 Hp R2)
    as (f2 & st2 & E2 & Hf2 & O2 & _).
  fold self in E1, E2.
  assert (E2' : NLIModel_sentence2_path self s2 st1 = Ok (f2, st2)).
  { etransitivity; [apply NLIModel_paths_agree | exact E2]. }
  apply Forall2_length in O1, O2.
  destruct (init_model_stacks H dropout (model_params p)) as (Wf & _);
    [exact (proj2 (proj2 (proj2 Hp)))|].
  assert (ED : DecomposableAttention_hybrid_forward (model self) f1 f2 st2 =
               Err DimensionMismatch).
  { apply (DecomposableAttention_batch_mismatch (H * 2) H (model self) f1 f2 st2); auto.
    congruence. }
  exists f1, st1, f2, st2.
  repeat (split; [first [assumption | symmetry; assumption]|]).
  rewrite NLIModel_forward_factor.
  rewrite (bind_ok _ _ st st1 f1 E1). rewrite (bind_ok _ _ st1 st2 f2 E2'). exact ED.
Qed.

(** X3.  [DecomposableAttention.hybrid_forward] on a block built by
    [DecomposableAttention.__init__] with any [num_class]: when the vectors of
    both arguments have [inp_size] entries and the batch sizes agree, the
    forward pass returns an array of shape [[B, num_class]], whatever the
    dropout rate and the engine state; on every other input it fails with a
    dimension mismatch. *)
Theorem DecomposableAttention_input_check (inp hid C : nat) (dropout : R)
    (p : DecomposableParams) (a b0 : list (list (list R))) (st : engine) :
  let self := DecomposableAttention_init inp hid C dropout p in
  DecomposableParams_shape inp hid C p -> nonempty a -> nonempty b0 ->
  (all_len 2 inp a /\ all_len 2 inp b0 /\ length a = length b0 ->
   exists y st',
     DecomposableAttention_hybrid_forward self a b0 st = Ok (y, st') /\
     has_shape2 (length a) C y) /\
  (~ (all_len 2 inp a /\ all_len 2 inp b0 /\ length a = length b0) ->
   DecomposableAttention_hybrid_forward self a b0 st = Err DimensionMismatch).
Proof.
  intros self Hp Na Nb.
  destruct (init_decomposable_stacks inp hid C dropout p Hp) as (Wf & Wg & Wh).
  fold self in Wf, Wg, Wh. split.
  - intros (Ha & Hb & EB).
    destruct (DecomposableAttention_returns inp hid C self a b0 st Wf Wg Wh EB Ha Hb Na Nb)
      as (y & st' & Ey & Sy & _).
    exists y, st'. split; assumption.
  - intros N.
    destruct (all_len_dec 2 inp a) as [Ha|Xa].
    2:{ rewrite DecomposableAttention_forward_factor. apply bind_err.
        exact (stack_rejects_width 2 _
                 (Dense_init hid inp (Some relu_activation) (layer1 (f_params p))) _ a st Xa). }
    destruct (all_len_dec 2 inp b0) as [Hb|Xb].
    2:{ rewrite DecomposableAttention_forward_factor.
        destruct (HybridSequential_forward 2 (f self) a st) as [[ta st1]|e] eqn:Ea.
        - rewrite (bind_ok _ _ st st1 ta Ea). apply bind_err.
          exact (stack_rejects_width 2 _
                   (Dense_init hid inp (Some relu_activation) (layer1 (f_params p))) _ b0 st1 Xb).
        - rewrite (bind_err _ _ st e Ea). f_equal.
          exact (shape_errors_stack 2 (f self) a st e Ea). }
    destruct (Nat.eq_dec (length a) (length b0)) as [EB|NB]; [tauto|].
    exact (DecomposableAttention_batch_mismatch inp hid self a b0 st Wf Ha Hb NB).
Qed.

(** X4.  [IntraSentenceAttention.hybrid_forward] on a block built by
    [IntraSentenceAttention.__init__]: when every vector of the feature has
    [inp_size] entries, the forward pass returns an array with as many batch
    elements and positions as the feature and [hidden_size] entries per
    position; on every other feature it fails with a dimension mismatch. *)
Theorem IntraSentenceAttention_input_check (inp hid : nat) (dropout : R) (p : StackParams)
    (feature : list (list (list R))) (st : engine) :
  let self := IntraSentenceAttention_init inp hid dropout p in
  StackParams_shape inp hid hid p ->
  (all_len 2 inp feature ->
   exists alpha st',
     IntraSentenceAttention_hybrid_forward self feature st = Ok (alpha, st') /\
     all_len 2 hid alpha /\
     Forall2 (fun m m' : list (list R) => length m' = length m) feature alpha) /\
  (~ all_len 2 inp feature ->
   IntraSentenceAttention_hybrid_forward self feature st = Err DimensionMismatch).
Proof.
  intros self Hp. split.
  - intros Hx.
    destruct (IntraSentenceAttention_returns inp hid self feature st) as (y & st' & Ey & Hy & Oy & _);
      [apply init_stack_wf; exact Hp | exact Hx |].
    exists y, st'. split; [exact Ey|]. split; [exact Hy|].
    apply same_outer2_unfold in Oy. revert Oy. apply Forall2_impl. intros; congruence.
  - intros Xx. unfold IntraSentenceAttention_hybrid_forward. apply bind_err.
    exact (stack_rejects_width 2 _
             (Dense_init hid inp (Some relu_activation) (layer1 p)) _ feature st Xx).
Qed.

(** ** Outside training mode *)

Lemma evaluates_as_ret {A : Type} (a : A) : evaluates_as (ret a) (ret a).
Proof. exists (Ok a). split; reflexivity. Qed.

Lemma evaluates_as_lift {A : Type} (r : result A) : evaluates_as (lift r) (lift r).
Proof. exists r. split; reflexivity. Qed.

Lemma evaluates_as_bind {A B : Type} (c c0 : M A) (k k0 : A -> M B) :
  evaluates_as c c0 -> (forall a, evaluates_as (k a) (k0 a)) ->
  evaluates_as (bind c k) (bind c0 k0).
Proof.
  intros (r & H1 & H0) Hk. destruct r as [a|e].
  - destruct (Hk a) as (r' & K1 & K0). exists r'. split.
    + intros st T. unfold bind. rewrite (H1 st T). simpl. exact (K1 st T).
    + intros st. unfold bind. rewrite (H0 st). simpl. exact (K0 st).
  - exists (Err e). split.
    + intros st T. unfold bind. rewrite (H1 st T). reflexivity.
    + intros st. unfold bind. rewrite (H0 st). reflexivity.
Qed.

(** A dropout layer outside training mode is a dropout layer of rate 0. *)
Lemma evaluates_as_Dropout (n : nat) (d d0 : Dropout) (x : tensor n) :
  rate d0 = 0 -> evaluates_as (Dropout_forward n d x) (Dropout_forward n d0 x).
Proof.
  intros Z. exists (Ok x). split.
  - intros st T. unfold Dropout_forward, F_Dropout.
    destruct (Rlt_dec 0 (rate d)); [rewrite T|]; reflexivity.
  - intros st. unfold Dropout_forward. rewrite Z.
    destruct (Rlt_dec 0 0) as [L|_]; [exfalso; lra | reflexivity].
Qed.

Lemma evaluates_as_stack (n : nat) (layers layers0 : HybridSequential) (x : tensor (S n)) :
  same_dense_layers layers layers0 -> dropout_disabled layers0 ->
  evaluates_as (HybridSequential_forward n layers x) (HybridSequential_forward n layers0 x).
Proof.
  intros S0. revert x. induction S0 as [|l l0 ls ls0 Hl _ IH]; intros x D0; simpl.
  - apply evaluates_as_ret.
  - apply evaluates_as_bind.
    + destruct l as [d|d], l0 as [d0|d0]; try contradiction; simpl.
      * apply (evaluates_as_Dropout (S n) d d0 x). now inversion D0.
      * subst d0. apply evaluates_as_lift.
    + intros y. apply IH. exact (dropout_disabled_tail D0).
Qed.

Lemma init_stack_same_dense (d d' : Dropout) (d1 d2 d3 : Dense) :
  same_dense_layers
    [ Dropout_block d; Dense_block d1; Dropout_block d; Dense_block d2; Dense_block d3 ]
    [ Dropout_block d'; Dense_block d1; Dropout_block d'; Dense_block d2; Dense_block d3 ].
Proof. repeat constructor. Qed.

Ltac evaluation_steps :=
  repeat first
    [ apply evaluates_as_ret
    | apply evaluates_as_lift
    | apply evaluates_as_stack; [apply init_stack_same_dense | now apply init_stack_disabled]
    | match goal with
      | |- evaluates_as (Dropout_forward ?n ?d ?x) (Dropout_forward _ ?d0 _) =>
          exact (evaluates_as_Dropout n d d0 x eq_refl)
      | |- evaluates_as (bind _ _) (bind _ _) => apply evaluates_as_bind; [|intro]
      end ].

Lemma evaluates_as_intra (inp hid : nat) (dropout : R) (p : StackParams)
    (x : list (list (list R))) :
  evaluates_as
    (IntraSentenceAttention_hybrid_forward (IntraSentenceAttention_init inp hid dropout p) x)
    (IntraSentenceAttention_hybrid_forward (IntraSentenceAttention_init inp hid 0 p) x).
Proof. unfold IntraSentenceAttention_hybrid_forward. simpl. evaluation_steps. Qed.

Lemma evaluates_as_decomposable (inp hid C : nat) (dropout : R) (p : DecomposableParams)
    (a b0 : list (list (list R))) :
  evaluates_as
    (DecomposableAttention_hybrid_forward (DecomposableAttention_init inp hid C dropout p) a b0)
    (DecomposableAttention_hybrid_forward (DecomposableAttention_init inp hid C 0 p) a b0).
Proof. unfold DecomposableAttention_hybrid_forward. simpl. evaluation_steps. Qed.

Lemma evaluates_as_model (V E H : nat) (dropout : R) (p : NLIParams)
    (s1 s2 : list (list nat)) :
  evaluates_as
    (NLIModel_hybrid_forward (NLIModel_init V E H dropout p) s1 s2)
    (NLIModel_hybrid_forward (NLIModel_init V E H 0 p) s1 s2).
Proof.
  unfold NLIModel_hybrid_forward.
  cbn [NLIModel_init word_emb dropout_layer lin_proj intra_attention model].
  repeat first
    [ apply evaluates_as_ret
    | apply evaluates_as_lift
    | apply evaluates_as_intra
    | apply evaluates_as_decomposable
    | match goal with
      | |- evaluates_as (Dropout_forward ?n ?d ?x) (Dropout_forward _ ?d0 _) =>
          exact (evaluates_as_Dropout n d d0 x eq_refl)
      | |- evaluates_as (bind _ _) (bind _ _) => apply evaluates_as_bind; [|intro]
      end ].
Qed.

(** X5.  Outside training mode the dropout rate given to [NLIModel.__init__]
    has no effect: from an engine state whose training flag is off, the
    forward pass of the model built with any rate is the forward pass of the
    model built with rate 0 on the same parameters, on every input, failures
    included, and it leaves the engine as it found it. *)
Theorem NLIModel_evaluation_mode (V E H : nat) (dropout : R) (p : NLIParams)
    (s1 s2 : list (list nat)) (st : engine) :
  is_training st = false ->
  NLIModel_hybrid_forward (NLIModel_init V E H dropout p) s1 s2 st =
  NLIModel_hybrid_forward (NLIModel_init V E H 0 p) s1 s2 st /\
  (forall y st',
     NLIModel_hybrid_forward (NLIModel_init V E H dropout p) s1 s2 st = Ok (y, st') ->
     st' = st).
Proof.
  intros T. destruct (evaluates_as_model V E H dropout p s1 s2) as (r & H1 & H0).
  split.
  - rewrite (H1 st T), (H0 st). reflexivity.
  - intros y st'. rewrite (H1 st T). destruct r as [a|e]; simpl; intros Ey.
    + now inversion Ey.
    + discriminate Ey.
Qed.

(** ** Batches *)

Lemma zipWith_app {A B C : Type} (fn : A -> B -> C) (l1 l2 : list A) (l1' l2' : list B) :
  length l1 = length l1' ->
  zipWith fn (l1 ++ l2) (l1' ++ l2') = zipWith fn l1 l1' ++ zipWith fn l2 l2'.
Proof.
  revert l1'. induction l1 as [|x l1 IH]; intros [|y l1'] E; simpl in *;
    try discriminate E; [reflexivity|].
  f_equal. apply IH. now inversion E.
Qed.

Lemma zipWith_combine {A B C : Type} (fn : A -> B -> C) (l : list A) (l' : list B) :
  zipWith fn l l' = map (fun xy => fn (fst xy) (snd xy)) (combine l l').
Proof.
  revert l'. induction l as [|x l IH]; intros [|y l']; simpl; try reflexivity.
  f_equal. apply IH.
Qed.

Lemma combine_map_graph {A B : Type} (fn : A -> B) (l : list A) :
  combine l (map fn l) = map (fun x => (x, fn x)) l.
Proof. induction l as [|x l IH]; simpl; [reflexivity|]. f_equal. exact IH. Qed.

Lemma valid_input_app (V : nat) (s1 s2 t1 t2 : list (list nat)) :
  valid_input V s1 s2 -> valid_input V t1 t2 -> valid_input V (s1 ++ t1) (s2 ++ t2).
Proof.
  intros (R1 & R2 & EB & N1 & N2) (R1' & R2' & EB' & N1' & N2').
  unfold valid_input, tokens_in_range, nonempty in *.
  repeat split; try (apply Forall_app; split; assumption).
  rewrite !length_app. congruence.
Qed.

(** With dropout disabled the forward pass on a valid input is the list of the
    scores of its pairs, and the engine is left as it was. *)
Lemma NLIModel_forward_valid (V E H : nat) (p : NLIParams) (s1 s2 : list (list nat))
    (st : engine) :
  let self := NLIModel_init V E H 0 p in
  NLIParams_shape V E H p -> valid_input V s1 s2 ->
  NLIModel_hybrid_forward self s1 s2 st = Ok (zipWith (NLI_example self) s1 s2, st).
Proof.
  intros self Hp (R1 & R2 & EB & N1 & N2).
  destruct (NLIModel_forward_returns V E H 0 p s1 s2 st Hp R1 R2 EB N1 N2)
    as (y & st1 & Ey & _ & Vy).
  destruct (Vy eq_refl) as [-> ->]. exact Ey.
Qed.

(** X6.  With dropout disabled, [NLIModel.hybrid_forward] on a valid batch
    scores every pair of sentences on its own: it returns, for each batch
    index, the scores that the equations of the method give for the two
    sentences at that index, and it leaves the engine as it found it. *)
Theorem NLIModel_forward_per_pair (V E H : nat) (p : NLIParams) (s1 s2 : list (list nat))
    (st : engine) :
  let self := NLIModel_init V E H 0 p in
  NLIParams_shape V E H p -> valid_input V s1 s2 ->
  exists y,
    NLIModel_hybrid_forward self s1 s2 st = Ok (y, st) /\
    length y = length s1 /\
    forall i x1 x2, nth_error s1 i = Some x1 -> nth_error s2 i = Some x2 ->
      nth_error y i = Some (NLI_example self x1 x2).
Proof.
  intros self Hp Hv. exists (zipWith (NLI_example self) s1 s2).
  split; [exact (NLIModel_forward_valid V E H p s1 s2 st Hp Hv)|].
  split.
  - rewrite zipWith_length. destruct Hv as (_ & _ & EB & _). lia.
  - intros i x1 x2 E1 E2. now rewrite nth_error_zipWith, E1, E2.
Qed.

(** X7.  Batches compose: with dropout disabled, the forward pass on two
    valid batches put one after the other returns the scores of the first
    batch followed by the scores of the second. *)
Theorem NLIModel_batch_concatenation (V E H : nat) (p : NLIParams)
    (s1 s2 t1 t2 : list (list nat)) (st st' st'' : engine) :
  let self := NLIModel_init V E H 0 p in
  NLIParams_shape V E H p -> valid_input V s1 s2 -> valid_input V t1 t2 ->
  exists y z,
    value (NLIModel_hybrid_forward self s1 s2 st) = Ok y /\
    value (NLIModel_hybrid_forward self t1 t2 st') = Ok z /\
    value (NLIModel_hybrid_forward self (s1 ++ t1) (s2 ++ t2) st'') = Ok (y ++ z).
Proof.
  intros self Hp Hs Ht.
  exists (zipWith (NLI_example self) s1 s2), (zipWith (NLI_example self) t1 t2).
  unfold self.
  rewrite (NLIModel_forward_valid V E H p s1 s2 st Hp Hs).
  rewrite (NLIModel_forward_valid V E H p t1 t2 st' Hp Ht).
  rewrite (NLIModel_forward_valid V E H p _ _ st'' Hp (valid_input_app V s1 s2 t1 t2 Hs Ht)).
  split; [reflexivity|]. split; [reflexivity|]. unfold value. simpl. f_equal.
  apply zipWith_app. exact (proj1 (proj2 (proj2 Hs))).
Qed.

(** X8.  The order of the batch does not matter: with dropout disabled, when
    two valid batches hold the same pairs of sentences in another order,
    every pair gets the same scores in both, at the index where it stands. *)
Theorem NLIModel_batch_order (V E H : nat) (p : NLIParams)
    (s1 s2 s1' s2' : list (list nat)) (st st' : engine) :
  let self := NLIModel_init V E H 0 p in
  NLIParams_shape V E H p -> valid_input V s1 s2 -> valid_input V s1' s2' ->
  Permutation (combine s1 s2) (combine s1' s2') ->
  exists y y',
    value (NLIModel_hybrid_forward self s1 s2 st) = Ok y /\
    value (NLIModel_hybrid_forward self s1' s2' st') = Ok y' /\
    Permutation (combine (combine s1 s2) y) (combine (combine s1' s2') y').
Proof.
  intros self Hp Hs Hs' P.
  exists (zipWith (NLI_example self) s1 s2), (zipWith (NLI_example self) s1' s2').
  unfold self.
  rewrite (NLIModel_forward_valid V E H p s1 s2 st Hp Hs).
  rewrite (NLIModel_forward_valid V E H p s1' s2' st' Hp Hs').
  split; [reflexivity|]. split; [reflexivity|].
  rewrite !zipWith_combine, !combine_map_graph. apply Permutation_map. exact P.
Qed.

(** ** Positions *)

Lemma all_len2_perm (k : nat) (x x' : list (list (list R))) :
  Forall2 (@Permutation (list R)) x x' -> all_len 2 k x -> all_len 2 k x'.
Proof.
  intros P Hx. apply all_len2_unfold. apply all_len2_unfold in Hx.
  induction P as [|m m' x x' Pm _ IH]; [constructor|].
  inversion Hx; subst. constructor; [|auto].
  eapply Permutation_Forall; eauto.
Qed.

Lemma nonempty_perm {A : Type} (x x' : list (list A)) :
  Forall2 (@Permutation A) x x' -> nonempty x -> nonempty x'.
Proof.
  unfold nonempty. induction 1 as [|m m' x x' Pm _ IH]; intros N; [constructor|].
  inversion N; subst. constructor; [|auto].
  intros ->. apply Permutation_sym, Permutation_nil in Pm. contradiction.
Qed.

Lemma Forall2_perm_rows (k : nat) (x x' : list (list (list R))) :
  Forall2 (@Permutation (list R)) x x' -> all_len 2 k x ->
  Forall2 (fun m m' => Permutation m m' /\ Forall (fun r => length r = k) m) x x'.
Proof.
  intros P Hx. apply all_len2_unfold in Hx.
  induction P as [|m m' x x' Pm _ IH]; [constructor|].
  inversion Hx; subst. constructor; auto.
Qed.

Lemma Forall2_zipWith_both {A B C : Type} (P : A -> A -> Prop) (Q : B -> B -> Prop)
    (S : C -> C -> Prop) (fn : A -> B -> C) (l1 l1' : list A) (l2 l2' : list B) :
  (forall x x' y y', P x x' -> Q y y' -> S (fn x y) (fn x' y')) ->
  Forall2 P l1 l1' -> Forall2 Q l2 l2' -> Forall2 S (zipWith fn l1 l2) (zipWith fn l1' l2').
Proof.
  intros Hfn F1. revert l2 l2'. induction F1 as [|x x' l1 l1' Px _ IH]; intros l2 l2' F2.
  - constructor.
  - destruct F2 as [|y y' l2 l2' Qy F2]; simpl; constructor; auto.
Qed.

(** The positions of [am] paired with their soft alignments to [tm]: a
    reordering of either list reorders the pairs and changes none. *)
Lemma aligned_pairs_perm (k : nat) (am am' tm tm' : list (list R)) :
  Permutation am am' -> Permutation tm tm' -> Forall (fun r => length r = k) tm ->
  Permutation (combine am (map (fun u => attend u tm) am))
              (combine am' (map (fun u => attend u tm') am')).
Proof.
  intros Pa Pt Ht. rewrite !combine_map_graph.
  rewrite (map_ext (fun u => (u, attend u tm')) (fun u => (u, attend u tm)))
    by (intros u; now rewrite (attend_perm k u tm tm' Pt Ht)).
  apply Permutation_map, Pa.
Qed.

(** X9.  [IntraSentenceAttention.hybrid_forward] knows no positions: with
    dropout disabled, when the positions of every batch element of the
    feature are reordered, every position still gets the vector it got
    before; the output is reordered in the same way and changed nowhere. *)
Theorem IntraSentenceAttention_position_equivariant (inp hid : nat) (p : StackParams)
    (feature feature' : list (list (list R))) (st st' : engine) :
  let self := IntraSentenceAttention_init inp hid 0 p in
  StackParams_shape inp hid hid p -> all_len 2 inp feature ->
  Forall2 (@Permutation (list R)) feature feature' ->
  exists alpha alpha',
    IntraSentenceAttention_hybrid_forward self feature st = Ok (alpha, st) /\
    IntraSentenceAttention_hybrid_forward self feature' st' = Ok (alpha', st') /\
    Forall2 (@Permutation (list R * list R))
      (zipWith (@combine (list R) (list R)) feature alpha)
      (zipWith (@combine (list R) (list R)) feature' alpha').
Proof.
  intros self Hp Hx P.
  assert (Wf : stack_wf inp hid (intra_attn_emb self)) by (apply init_stack_wf; exact Hp).
  assert (D0 : dropout_disabled (intra_attn_emb self)) by (now apply init_stack_disabled).
  destruct (IntraSentenceAttention_returns inp hid self feature st Wf Hx)
    as (y & st1 & Ey & _ & _ & Vy).
  destruct (IntraSentenceAttention_returns inp hid self feature' st' Wf
              (all_len2_perm inp feature feature' P Hx))
    as (y' & st1' & Ey' & _ & _ & Vy').
  destruct (Vy D0) as [-> ->]. destruct (Vy' D0) as [-> ->].
  exists (map (intra_example self) feature), (map (intra_example self) feature').
  split; [exact Ey|]. split; [exact Ey'|].
  rewrite !zipWith_map_r, !zipWith_diag.
  apply Forall2_map_l, Forall2_map_r. revert P. apply Forall2_impl. intros m m' Pm.
  unfold intra_example, self_attend. rewrite !map_map, !combine_map_graph.
  rewrite (map_ext
    (fun v => (v, attend (stack_fn (intra_attn_emb self) v)
                         (map (stack_fn (intra_attn_emb self)) m')))
    (fun v => (v, attend (stack_fn (intra_attn_emb self) v)
                         (map (stack_fn (intra_attn_emb self)) m)))).
  - apply Permutation_map, Pm.
  - intros v. f_equal. symmetry.
    apply (attend_perm (out_len (intra_attn_emb self) 0)).
    + apply Permutation_map, Pm.
    + apply (stack_rows_uniform (intra_attn_emb self) (fun u => u) m).
      apply init_stack_fixed_width.
Qed.

(** X10.  The soft alignments of [DecomposableAttention.hybrid_forward] know
    no positions: when the positions of [tilde_a] and of [tilde_b] are
    reordered, every position of [tilde_a] keeps its row of [beta] and every
    position of [tilde_b] keeps its row of [alpha]; reordering [tilde_b] alone
    leaves [beta] as it is, and reordering [tilde_a] alone leaves [alpha] as
    it is. *)
Theorem DecomposableAttention_alignment_reorder (B L1 L2 H : nat)
    (tilde_a tilde_b tilde_a' tilde_b' : list (list (list R))) :
  has_shape3 B L1 H tilde_a -> has_shape3 B L2 H tilde_b -> (0 < L1)%nat ->
  Forall2 (@Permutation (list R)) tilde_a tilde_a' ->
  Forall2 (@Permutation (list R)) tilde_b tilde_b' ->
  exists e beta alpha e' beta' alpha',
    DecomposableAttention_attention tilde_a tilde_b = Ok (e, beta, alpha) /\
    DecomposableAttention_attention tilde_a' tilde_b' = Ok (e', beta', alpha') /\
    Forall2 (@Permutation (list R * list R))
      (zipWith (@combine (list R) (list R)) tilde_a beta)
      (zipWith (@combine (list R) (list R)) tilde_a' beta') /\
    Forall2 (@Permutation (list R * list R))
      (zipWith (@combine (list R) (list R)) tilde_b alpha)
      (zipWith (@combine (list R) (list R)) tilde_b' alpha') /\
    (tilde_a' = tilde_a -> beta' = beta) /\
    (tilde_b' = tilde_b -> alpha' = alpha).
Proof.
  intros Ha Hb L1pos Pa Pb.
  assert (La : all_len 2 H tilde_a) by exact (has_shape3_all_len B L1 H tilde_a Ha).
  assert (Lb : all_len 2 H tilde_b) by exact (has_shape3_all_len B L2 H tilde_b Hb).
  assert (Na : nonempty tilde_a) by exact (has_shape3_nonempty B L1 H tilde_a Ha L1pos).
  assert (EB : length tilde_a = length tilde_b) by (destruct Ha, Hb; congruence).
  assert (EB' : length tilde_a' = length tilde_b').
  { apply Forall2_length in Pa, Pb. congruence. }
  pose proof (Forall2_perm_rows H tilde_a tilde_a' Pa La) as Ra.
  pose proof (Forall2_perm_rows H tilde_b tilde_b' Pb Lb) as Rb.
  do 6 eexists.
  split; [exact (DecomposableAttention_attention_ok H tilde_a tilde_b EB La Lb Na)|].
  split; [exact (DecomposableAttention_attention_ok H tilde_a' tilde_b' EB'
                   (all_len2_perm H _ _ Pa La) (all_len2_perm H _ _ Pb Lb)
                   (nonempty_perm _ _ Pa Na))|].
  split; [|split; [|split]].
  - rewrite !zipWith_zipWith_r.
    apply (Forall2_zipWith_both _ _ _ _ _ _ _ _
             (fun am am' tm tm' Pam Ptm =>
                aligned_pairs_perm H am am' tm tm' (proj1 Pam) (proj1 Ptm) (proj2 Ptm)) Ra Rb).
  - rewrite !zipWith_zipWith_snd.
    apply (Forall2_zipWith_both _ _ _ _ _ _ _ _
             (fun am am' tm tm' Pam Ptm =>
                aligned_pairs_perm H tm tm' am am' (proj1 Ptm) (proj1 Pam) (proj2 Pam)) Ra Rb).
  - intros ->.
    apply (zipWith_related (@eq (list (list R)))
             (fun tm tm' => Permutation tm tm' /\ Forall (fun r => length r = H) tm)).
    + intros am am' tm tm' <- [Pt Ht]. apply map_ext. intros u.
      symmetry. exact (attend_perm H u tm tm' Pt Ht).
    + apply Forall2_same, Forall_forall. reflexivity.
    + exact Rb.
  - intros ->.
    apply (zipWith_related
             (fun am am' => Permutation am am' /\ Forall (fun r => length r = H) am)
             (@eq (list (list R)))).
    + intros am am' tm tm' [Pam Ham] <-. apply map_ext. intros v.
      symmetry. exact (attend_perm H v am am' Pam Ham).
    + exact Ra.
    + apply Forall2_same, Forall_forall. reflexivity.
Qed.

Lemma zipWith_swap {A B C : Type} (fn : A -> B -> C) (l : list A) (l' : list B) :
  zipWith fn l l' = zipWith (fun y x => fn x y) l' l.
Proof.
  revert l'. induction l as [|x l IH]; intros [|y l']; simpl; try reflexivity.
  f_equal. apply IH.
Qed.

(** X11.  The attention step of [DecomposableAttention.hybrid_forward] treats
    its two arguments alike: with the arguments exchanged, the score array is
    transposed and [beta] and [alpha] change places. *)
Theorem DecomposableAttention_attention_exchange (B L1 L2 H : nat)
    (tilde_a tilde_b : list (list (list R))) :
  has_shape3 B L1 H tilde_a -> has_shape3 B L2 H tilde_b -> (0 < L1)%nat -> (0 < L2)%nat ->
  exists e beta alpha,
    DecomposableAttention_attention tilde_a tilde_b = Ok (e, beta, alpha) /\
    DecomposableAttention_attention tilde_b tilde_a = Ok (transpose_021 e, alpha, beta).
Proof.
  intros Ha Hb L1pos L2pos.
  assert (La : all_len 2 H tilde_a) by exact (has_shape3_all_len B L1 H tilde_a Ha).
  assert (Lb : all_len 2 H tilde_b) by exact (has_shape3_all_len B L2 H tilde_b Hb).
  assert (Na : nonempty tilde_a) by exact (has_shape3_nonempty B L1 H tilde_a Ha L1pos).
  assert (Nb : nonempty tilde_b) by exact (has_shape3_nonempty B L2 H tilde_b Hb L2pos).
  assert (EB : length tilde_a = length tilde_b) by (destruct Ha, Hb; congruence).
  do 3 eexists.
  split; [exact (DecomposableAttention_attention_ok H tilde_a tilde_b EB La Lb Na)|].
  rewrite (DecomposableAttention_attention_ok H tilde_b tilde_a (eq_sym EB) Lb La Nb).
  f_equal. f_equal; [f_equal|].
  - unfold transpose_021. rewrite map_zipWith, (zipWith_swap _ tilde_b tilde_a).
    apply zipWith_ext_in. intros am tm Iam _.
    symmetry. apply transpose_matmul_nt.
    unfold nonempty in Na. rewrite Forall_forall in Na. exact (Na am Iam).
  - apply zipWith_swap.
  - apply zipWith_swap.
Qed.

(** ** Weights and weighted sums *)

Lemma Rsum_ge_member (l : list R) (x : R) :
  Forall (fun y => 0 <= y) l -> In x l -> x <= Rsum l.
Proof.
  induction 1 as [|y l Hy F IH]; intros I; [inversion I|].
  assert (0 <= Rsum l) by (clear - F; induction F; simpl; lra).
  simpl. destruct I as [->|I]; [lra | specialize (IH I); lra].
Qed.

Lemma softmax_vec_entries (v : list R) : Forall (fun w => 0 < w <= 1) (softmax_vec v).
Proof.
  unfold softmax_vec. apply Forall_map, Forall_forall. intros x Hx.
  assert (Px : 0 < x).
  { apply in_map_iff in Hx. destruct Hx as (t & <- & _). apply exp_pos. }
  assert (Sx : x <= Rsum (map exp v)).
  { apply Rsum_ge_member; [|exact Hx].
    apply Forall_map, Forall_forall. intros t _. left. apply exp_pos. }
  split.
  - apply Rdiv_lt_0_compat; lra.
  - apply (Rmult_le_reg_r (Rsum (map exp v))); [lra|].
    unfold Rdiv. rewrite Rmult_assoc, Rinv_l by lra. lra.
Qed.

Lemma softmax_entries (x : list (list (list R))) :
  all_entries (fun w => 0 < w <= 1) (softmax x).
Proof.
  unfold all_entries, softmax. apply Forall_map, Forall_forall. intros m _.
  apply Forall_map, Forall_forall. intros r _. apply softmax_vec_entries.
Qed.

Lemma has_shape3_map (B L K L' K' : nat) (fn : list (list R) -> list (list R))
    (x : list (list (list R))) :
  has_shape3 B L K x ->
  (forall m, has_shape2 L K m -> has_shape2 L' K' (fn m)) ->
  has_shape3 B L' K' (map fn x).
Proof.
  intros [Lx Hx] Hfn. split; [now rewrite length_map|].
  apply Forall_map. revert Hx. apply Forall_impl. exact Hfn.
Qed.

Lemma softmax_shape (B L K : nat) (x : list (list (list R))) :
  has_shape3 B L K x -> has_shape3 B L K (softmax x).
Proof.
  intros Hx. apply (has_shape3_map B L K L K _ x Hx).
  intros m [Lm Hm]. split; [now rewrite length_map|].
  apply Forall_map. revert Hm. apply Forall_impl. intros r. now rewrite softmax_vec_length.
Qed.

Lemma matmul_nt_shape (L1 L2 H : nat) (am tm : list (list R)) :
  has_shape2 L1 H am -> has_shape2 L2 H tm -> has_shape2 L1 L2 (matmul_nt am tm).
Proof.
  intros [La _] [Lt _]. unfold matmul_nt. split; [now rewrite length_map|].
  apply Forall_map, Forall_forall. intros u _. now rewrite length_map.
Qed.

Lemma transpose_shape (L1 L2 : nat) (m : list (list R)) :
  has_shape2 L1 L2 m -> (0 < L1)%nat -> has_shape2 L2 L1 (transpose m).
Proof.
  intros [Lm Hm] P. split.
  - rewrite transpose_length. apply width_uniform; [exact Hm|].
    intros ->. simpl in Lm. lia.
  - rewrite <- Lm. apply transpose_rows.
Qed.

(** X12.  Nothing is masked: the three arrays of attention weights, of the
    intra-sentence block and of the decomposable block, hold one weight for
    every pair of positions, and every weight is strictly positive and at
    most 1, so that every position takes part in every weighted sum. *)
Theorem attention_weights_positive (B L1 L2 H : nat)
    (tilde_a tilde_b : list (list (list R))) :
  has_shape3 B L1 H tilde_a -> has_shape3 B L2 H tilde_b -> (0 < L1)%nat ->
  exists wi w1 w2,
    IntraSentenceAttention_weights tilde_a = Ok wi /\
    DecomposableAttention_weights tilde_a tilde_b = Ok (w1, w2) /\
    (has_shape3 B L1 L1 wi /\ has_shape3 B L1 L2 w1 /\ has_shape3 B L2 L1 w2) /\
    all_entries (fun w => 0 < w <= 1) wi /\
    all_entries (fun w => 0 < w <= 1) w1 /\
    all_entries (fun w => 0 < w <= 1) w2.
Proof.
  intros Ha Hb P1.
  pose proof (has_shape3_all_len B L1 H tilde_a Ha) as La.
  pose proof (has_shape3_all_len B L2 H tilde_b Hb) as Lb.
  assert (Ei : IntraSentenceAttention_weights tilde_a =
               Ok (softmax (zipWith matmul_nt tilde_a tilde_a))).
  { unfold IntraSentenceAttention_weights.
    now rewrite (batch_dot_nt_ok H tilde_a tilde_a eq_refl La La). }
  assert (Ec : DecomposableAttention_weights tilde_a tilde_b =
               Ok (softmax (zipWith matmul_nt tilde_a tilde_b),
                   softmax (transpose_021 (zipWith matmul_nt tilde_a tilde_b)))).
  { unfold DecomposableAttention_weights.
    rewrite (batch_dot_nt_ok H tilde_a tilde_b); auto. destruct Ha, Hb. congruence. }
  assert (Si : has_shape3 B L1 L1 (zipWith matmul_nt tilde_a tilde_a)).
  { apply (has_shape3_zipWith B L1 L1 H L1 L1 matmul_nt tilde_a tilde_a Ha Ha).
    apply matmul_nt_shape. }
  assert (Sc : has_shape3 B L1 L2 (zipWith matmul_nt tilde_a tilde_b)).
  { apply (has_shape3_zipWith B L1 L2 H L1 L2 matmul_nt tilde_a tilde_b Ha Hb).
    apply matmul_nt_shape. }
  do 3 eexists. split; [exact Ei|]. split; [exact Ec|]. split; [split; [|split]|].
  - apply softmax_shape, Si.
  - apply softmax_shape, Sc.
  - apply softmax_shape. unfold transpose_021.
    apply (has_shape3_map B L1 L2 L2 L1 transpose _ Sc).
    intros m Hm. apply transpose_shape; assumption.
  - split; [|split]; apply softmax_entries.
Qed.

Lemma weighted_sum_between {A : Type} (w x : A -> R) (lo hi : R) (l : list A) :
  Forall (fun r => 0 <= w r) l -> Forall (fun r => lo <= x r <= hi) l ->
  lo * Rsum (map w l) <= Rsum (map (fun r => w r * x r) l) <= hi * Rsum (map w l).
Proof.
  intros Hw Hx. induction l as [|a l IH]; simpl; [lra|].
  inversion Hw; inversion Hx; subst. specialize (IH ltac:(assumption) ltac:(assumption)).
  nra.
Qed.

(** A soft alignment is a weighted mean of the rows: each of its entries lies
    between the least and the greatest entry of its column. *)
Lemma attend_between (L H : nat) (u : list R) (tm : list (list R)) (k : nat) (lo hi : R) :
  has_shape2 L H tm -> (0 < L)%nat -> (k < H)%nat ->
  (forall j, (j < L)%nat -> lo <= nth k (nth j tm []) 0 <= hi) ->
  lo <= nth k (attend u tm) 0 <= hi.
Proof.
  intros [Lt Ht] PL Hk Hb.
  assert (Nt : tm <> []) by (intros ->; simpl in Lt; lia).
  rewrite attend_formula, (width_uniform H tm Ht Nt), (nth_map_seq _ H k 0 Hk).
  set (Z := Rsum (map (fun r' => exp (dot u r')) tm)).
  assert (PZ : 0 < Z).
  { unfold Z. rewrite <- (map_map (dot u) exp). apply Rsum_exp_pos.
    destruct tm; [congruence | discriminate]. }
  pose proof (weighted_sum_between (fun r => exp (dot u r) / Z) (fun r => nth k r 0) lo hi tm)
    as W.
  assert (S1 : Rsum (map (fun r => exp (dot u r) / Z) tm) = 1).
  { rewrite Rsum_map_div. fold Z. field. lra. }
  rewrite S1, !Rmult_1_r in W. apply W.
  - apply Forall_forall. intros r _. left. apply Rdiv_lt_0_compat; [apply exp_pos | exact PZ].
  - apply Forall_forall. intros r Ir. destruct (In_nth _ _ [] Ir) as (j & Hj & <-).
    apply Hb. lia.
Qed.

(** X13.  [IntraSentenceAttention.hybrid_forward] returns weighted means: the
    block returns, whatever the dropout rate, and every entry of [alpha] lies
    between any two bounds that hold, in the same batch element and the same
    column, for the entries of [tilde_a] at all positions. *)
Theorem IntraSentenceAttention_output_between (inp hid : nat) (dropout : R) (p : StackParams)
    (B L : nat) (feature : list (list (list R))) (st : engine) :
  let self := IntraSentenceAttention_init inp hid dropout p in
  StackParams_shape inp hid hid p -> has_shape3 B L inp feature ->
  exists tilde_a alpha st',
    HybridSequential_forward 2 (intra_attn_emb self) feature st = Ok (tilde_a, st') /\
    IntraSentenceAttention_hybrid_forward self feature st = Ok (alpha, st') /\
    forall n k lo hi, (n < B)%nat -> (k < hid)%nat ->
      (forall j, (j < L)%nat -> lo <= entry3 tilde_a n j k <= hi) ->
      forall i, (i < L)%nat -> lo <= entry3 alpha n i k <= hi.
Proof.
  intros self Hp Hx.
  assert (Wf : stack_wf inp hid (intra_attn_emb self)) by (apply init_stack_wf; exact Hp).
  destruct (HybridSequential_forward_returns 2 inp hid (intra_attn_emb self) feature st Wf
              (has_shape3_all_len B L inp feature Hx))
    as (ta & st' & E & Hl & Ho & _).
  pose proof (has_shape3_of_outer B L inp hid feature ta Hx Ho Hl) as Hta.
  exists ta, (map self_attend ta), st'. split; [exact E|].
  split; [exact (IntraSentenceAttention_after_stack hid self feature ta st st' E Hl)|].
  intros n k lo hi Hn Hk Hb i Hi.
  pose proof (nth_batch_shape B L hid ta n Hta Hn) as Hm.
  unfold entry3 in *.
  rewrite (nth_map_in self_attend ta n [] []) by (destruct Hta; lia).
  unfold self_attend. rewrite (nth_map_in _ (nth n ta []) i [] []) by (destruct Hm; lia).
  apply (attend_between L hid); auto. lia.
Qed.

(** X14.  The soft alignments of [DecomposableAttention.hybrid_forward] are
    weighted means: every entry of [beta] lies between any two bounds that
    hold, in the same batch element and column, for the entries of [tilde_b]
    at all positions, and every entry of [alpha] between any two bounds that
    hold for the entries of [tilde_a]. *)
Theorem DecomposableAttention_alignment_between (B L1 L2 H : nat)
    (tilde_a tilde_b : list (list (list R))) :
  has_shape3 B L1 H tilde_a -> has_shape3 B L2 H tilde_b -> (0 < L1)%nat -> (0 < L2)%nat ->
  exists e beta alpha,
    DecomposableAttention_attention tilde_a tilde_b = Ok (e, beta, alpha) /\
    (forall n k lo hi, (n < B)%nat -> (k < H)%nat ->
       (forall j, (j < L2)%nat -> lo <= entry3 tilde_b n j k <= hi) ->
       forall i, (i < L1)%nat -> lo <= entry3 beta n i k <= hi) /\
    (forall n k lo hi, (n < B)%nat -> (k < H)%nat ->
       (forall i, (i < L1)%nat -> lo <= entry3 tilde_a n i k <= hi) ->
       forall j, (j < L2)%nat -> lo <= entry3 alpha n j k <= hi).
Proof.
  intros Ha Hb P1 P2.
  exists (zipWith matmul_nt tilde_a tilde_b),
         (zipWith (fun am tm => map (fun u => attend u tm) am) tilde_a tilde_b),
         (zipWith (fun am tm => map (fun v => attend v am) tm) tilde_a tilde_b).
  split; [|split].
  - apply (DecomposableAttention_attention_ok H).
    + destruct Ha, Hb. congruence.
    + exact (has_shape3_all_len B L1 H tilde_a Ha).
    + exact (has_shape3_all_len B L2 H tilde_b Hb).
    + exact (has_shape3_nonempty B L1 H tilde_a Ha P1).
  - intros n k lo hi Hn Hk Hbd i Hi.
    rewrite (entry3_zipWith B L1 L2 H _ tilde_a tilde_b n i k Ha Hb Hn).
    pose proof (nth_batch_shape B L1 H tilde_a n Ha Hn) as Hma.
    pose proof (nth_batch_shape B L2 H tilde_b n Hb Hn) as Hmb.
    rewrite (nth_map_in _ (nth n tilde_a []) i [] []) by (destruct Hma; lia).
    apply (attend_between L2 H); auto.
  - intros n k lo hi Hn Hk Hbd j Hj.
    rewrite (entry3_zipWith B L1 L2 H _ tilde_a tilde_b n j k Ha Hb Hn).
    pose proof (nth_batch_shape B L1 H tilde_a n Ha Hn) as Hma.
    pose proof (nth_batch_shape B L2 H tilde_b n Hb Hn) as Hmb.
    rewrite (nth_map_in _ (nth n tilde_b []) j [] []) by (destruct Hmb; lia).
    apply (attend_between L1 H); auto.
Qed.

Lemma attend_one_row (u v : list R) : attend u [v] = v.
Proof.
  rewrite attend_formula. unfold width. simpl hd.
  transitivity (map (fun j => nth j v 0) (seq 0 (length v))).
  - apply map_ext. intros j. simpl. pose proof (exp_pos (dot u v)). field. lra.
  - rewrite (map_nth_seq (fun x => x) 0 v). apply map_id.
Qed.

(** X15.  A sentence of one token: when [tilde_b] has one position, every row
    of [beta] is that one row of [tilde_b], and when [tilde_a] has one
    position, every row of [alpha] is that one row of [tilde_a]; the single
    attention weight is 1. *)
Theorem DecomposableAttention_one_token (B L1 L2 H : nat)
    (tilde_a tilde_b : list (list (list R))) :
  has_shape3 B L1 H tilde_a -> has_shape3 B L2 H tilde_b -> (0 < L1)%nat -> (0 < L2)%nat ->
  exists e beta alpha,
    DecomposableAttention_attention tilde_a tilde_b = Ok (e, beta, alpha) /\
    (L2 = 1%nat -> forall n i k, (n < B)%nat -> (i < L1)%nat ->
       entry3 beta n i k = entry3 tilde_b n 0 k) /\
    (L1 = 1%nat -> forall n j k, (n < B)%nat -> (j < L2)%nat ->
       entry3 alpha n j k = entry3 tilde_a n 0 k).
Proof.
  intros Ha Hb P1 P2.
  exists (zipWith matmul_nt tilde_a tilde_b),
         (zipWith (fun am tm => map (fun u => attend u tm) am) tilde_a tilde_b),
         (zipWith (fun am tm => map (fun v => attend v am) tm) tilde_a tilde_b).
  split; [|split].
  - apply (DecomposableAttention_attention_ok H).
    + destruct Ha, Hb. congruence.
    + exact (has_shape3_all_len B L1 H tilde_a Ha).
    + exact (has_shape3_all_len B L2 H tilde_b Hb).
    + exact (has_shape3_nonempty B L1 H tilde_a Ha P1).
  - intros -> n i k Hn Hi.
    rewrite (entry3_zipWith B L1 1 H _ tilde_a tilde_b n i k Ha Hb Hn).
    pose proof (nth_batch_shape B L1 H tilde_a n Ha Hn) as [Lma _].
    pose proof (nth_batch_shape B 1 H tilde_b n Hb Hn) as [Lmb _].
    rewrite (nth_map_in _ (nth n tilde_a []) i [] []) by lia.
    unfold entry3. destruct (nth n tilde_b []) as [|v [|v' tm]]; try discriminate Lmb.
    now rewrite attend_one_row.
  - intros -> n j k Hn Hj.
    rewrite (entry3_zipWith B 1 L2 H _ tilde_a tilde_b n j k Ha Hb Hn).
    pose proof (nth_batch_shape B 1 H tilde_a n Ha Hn) as [Lma _].
    pose proof (nth_batch_shape B L2 H tilde_b n Hb Hn) as [Lmb _].
    rewrite (nth_map_in _ (nth n tilde_b []) j [] []) by lia.
    unfold entry3. destruct (nth n tilde_a []) as [|u [|u' am]]; try discriminate Lma.
    now rewrite attend_one_row.
Qed.

(** ** The representation of a sentence *)

Lemma relu_nonneg (x : R) : 0 <= relu x.
Proof. unfold relu. apply Rmax_r. Qed.

Lemma Dense_fn_relu_nonneg (d : Dense) (v : list R) :
  activation d = Some relu_activation -> Forall (fun x => 0 <= x) (Dense_fn d v).
Proof.
  intros Ea. unfold Dense_fn. rewrite Ea. apply Forall_map, Forall_forall.
  intros z _. apply relu_nonneg.
Qed.

Lemma Dense_forward_relu_nonneg (n : nat) (d : Dense) (x y : tensor (S n)) :
  activation d = Some relu_activation -> Dense_forward n d x = Ok y ->
  all_vectors n (Forall (fun z => 0 <= z)) y.
Proof.
  intros Ea Ey. pose proof (Dense_forward_ok_inv n d x y Ey) as Hx.
  rewrite (Dense_forward_ok n d x Hx) in Ey. inversion Ey; subst.
  apply all_vectors_map, all_vectors_true. intros v. now apply Dense_fn_relu_nonneg.
Qed.

Lemma NLIModel_project_dense (self : NLIModel) (s : list (list nat)) (st st' : engine)
    (y : list (list (list R))) :
  NLIModel_project self s st = Ok (y, st') ->
  exists dropped, Dense_forward 2 (lin_proj self) dropped = Ok y.
Proof.
  unfold NLIModel_project, bind, lift.
  destruct (Embedding_forward (word_emb self) s) as [e1|]; [|discriminate].
  destruct (Dropout_forward 3 (dropout_layer self) e1 st) as [[d1 st1]|]; [|discriminate].
  destruct (Dense_forward 2 (lin_proj self) d1) as [f1|] eqn:Ed; [|discriminate].
  intros Ey. inversion Ey; subst. exists d1. exact Ed.
Qed.

Lemma has_shape3_of_tokens (B L H : nat) (s : list (list nat)) (y : list (list (list R))) :
  has_shape2 B L s ->
  Forall2 (fun (sm : list nat) (m : list (list R)) => length sm = length m) s y ->
  all_len 2 H y -> has_shape3 B L H y.
Proof.
  intros [Ls Hs] O Hy. apply all_len2_unfold in Hy. split.
  - apply Forall2_length in O. congruence.
  - clear Ls. induction O as [|sm m s' y' Em _ IH]; [constructor|].
    inversion Hs; inversion Hy; subst. constructor; [|auto].
    split; [congruence | assumption].
Qed.

(** X16.  The representation of a sentence in [NLIModel.hybrid_forward]: on
    [[B, L]] token indices below [vocab_size], whatever the dropout rate and
    the engine state, the projection returns a feature of shape
    [[B, L, hidden_size]] without a negative entry (it ends in a ReLU), the
    intra-sentence attention returns an array of the same shape, and the
    sentence path returns, position by position, the feature vector followed
    by the attended vector, of shape [[B, L, 2 * hidden_size]]. *)
Theorem NLIModel_sentence_representation (V E H : nat) (dropout : R) (p : NLIParams)
    (B L : nat) (s : list (list nat)) (st : engine) :
  let self := NLIModel_init V E H dropout p in
  NLIParams_shape V E H p -> has_shape2 B L s -> tokens_in_range V s ->
  exists feature st1 attended st2,
    NLIModel_project self s st = Ok (feature, st1) /\
    IntraSentenceAttention_hybrid_forward (intra_attention self) feature st1 =
      Ok (attended, st2) /\
    NLIModel_sentence1_path self s st =
      Ok (zipWith (zipWith (@app R)) feature attended, st2) /\
    has_shape3 B L H feature /\ has_shape3 B L H attended /\
    has_shape3 B L (H * 2) (zipWith (zipWith (@app R)) feature attended) /\
    all_entries (fun x => 0 <= x) feature.
Proof.
  intros self Hp Hs Rs.
  destruct (NLIModel_project_returns V E H dropout p s st Hp Rs)
    as (feat & st1 & Ef & Hf & Of & _).
  fold self in Ef.
  assert (Wi : stack_wf H H (intra_attn_emb (intra_attention self))).
  { apply init_stack_wf. exact (proj1 (proj2 (proj2 Hp))). }
  destruct (IntraSentenceAttention_returns H H (intra_attention self) feat st1 Wi Hf)
    as (att & st2 & Ea & Ha & Oa & _).
  pose proof (has_shape3_of_tokens B L H s feat Hs Of Hf) as Sf.
  exists feat, st1, att, st2.
  split; [exact Ef|]. split; [exact Ea|]. split; [|split; [|split; [|split]]].
  - rewrite NLIModel_path_factor.
    rewrite (bind_ok _ _ st st1 feat Ef). rewrite (bind_ok _ _ st1 st2 att Ea).
    unfold lift. now rewrite (concat3_ok feat att Oa).
  - exact Sf.
  - exact (has_shape3_of_outer B L H H feat att Sf Oa Ha).
  - apply (has_shape3_of_tokens B L (H * 2) s _ Hs).
    + apply same_outer2_unfold in Oa.
      clear - Of Oa. revert att Oa.
      induction Of as [|sm m s' l' Em _ IH]; intros att Oa; inversion Oa; subst;
        simpl; constructor; auto.
      rewrite zipWith_length. lia.
    + replace (H * 2)%nat with (H + H)%nat by lia. now apply concat_rows.
  - destruct (NLIModel_project_dense self s st st1 feat Ef) as (dropped & Ed).
    exact (Dense_forward_relu_nonneg 2 (lin_proj self) dropped feat eq_refl Ed).
Qed.

(** ** A sentence said twice *)

Lemma Rsum_app (l l' : list R) : Rsum (l ++ l') = Rsum l + Rsum l'.
Proof. induction l as [|x l IH]; simpl; [lra|]. rewrite IH. lra. Qed.

Lemma width_app_self (m : list (list R)) : width (m ++ m) = width m.
Proof. destruct m; reflexivity. Qed.

Lemma Rsum_map_scaled {A : Type} (w x : A -> R) (c : R) (l : list A) :
  Rsum (map (fun r => w r / c * x r) l) = Rsum (map (fun r => w r * x r) l) / c.
Proof.
  rewrite <- Rsum_map_div. f_equal. apply map_ext. intros r. unfold Rdiv. ring.
Qed.

(** The rows of [t] taken twice weigh as the rows of [t]: both the weights and
    their sum double. *)
Lemma attend_double (u : list R) (t : list (list R)) : attend u (t ++ t) = attend u t.
Proof.
  rewrite !attend_formula, width_app_self. apply map_ext. intros j.
  rewrite !map_app, !Rsum_app, !Rsum_map_scaled.
  destruct t as [|r0 t']; [simpl; unfold Rdiv; ring|].
  set (t := r0 :: t').
  assert (PZ : 0 < Rsum (map (fun r' => exp (dot u r')) t)).
  { rewrite <- (map_map (dot u) exp). apply Rsum_exp_pos. discriminate. }
  field. split; lra.
Qed.

Lemma mean_rows_double (m : list (list R)) : mean_rows (m ++ m) = mean_rows m.
Proof.
  unfold mean_rows, transpose. rewrite width_app_self, !map_map.
  apply map_ext. intros j. unfold column.
  rewrite map_app, Rsum_app, length_app, plus_INR.
  destruct m as [|r0 m']; [simpl; unfold Rdiv; ring|].
  assert (PL : 0 < INR (length (r0 :: m'))) by (apply lt_0_INR; simpl; lia).
  field. lra.
Qed.

Lemma compare_example_double (self : DecomposableAttention) (ta tb : list (list R)) :
  compare_example self (ta ++ ta) tb = compare_example self ta tb /\
  compare_example self ta (tb ++ tb) = compare_example self ta tb.
Proof.
  unfold compare_example. split; f_equal; f_equal.
  - rewrite map_app. apply mean_rows_double.
  - f_equal. apply map_ext. intros v. now rewrite attend_double.
  - f_equal. apply map_ext. intros u. now rewrite attend_double.
  - rewrite map_app. apply mean_rows_double.
Qed.

Lemma encode_example_double (self : NLIModel) (x : list nat) :
  encode_example self (x ++ x) = encode_example self x ++ encode_example self x.
Proof.
  rewrite !encode_example_map.
  assert (Ep : project_example self (x ++ x) =
               project_example self x ++ project_example self x).
  { unfold project_example. apply map_app. }
  rewrite Ep, !map_app.
  assert (Eh : forall l : list nat,
    map (fun i =>
           let v := Dense_fn (lin_proj self) (nth i (emb_weight (word_emb self)) []) in
           v ++ attend (stack_fn (intra_attn_emb (intra_attention self)) v)
                  (map (stack_fn (intra_attn_emb (intra_attention self)))
                       (project_example self x) ++
                   map (stack_fn (intra_attn_emb (intra_attention self)))
                       (project_example self x))) l =
    map (fun i =>
           let v := Dense_fn (lin_proj self) (nth i (emb_weight (word_emb self)) []) in
           v ++ attend (stack_fn (intra_attn_emb (intra_attention self)) v)
                  (map (stack_fn (intra_attn_emb (intra_attention self)))
                       (project_example self x))) l).
  { intros l. apply map_ext. intros i. simpl. now rewrite attend_double. }
  now rewrite Eh.
Qed.

Lemma NLI_example_double (self : NLIModel) (x1 x2 : list nat) :
  NLI_example self (x1 ++ x1) x2 = NLI_example self x1 x2 /\
  NLI_example self x1 (x2 ++ x2) = NLI_example self x1 x2.
Proof.
  unfold NLI_example, decomposable_example.
  rewrite !encode_example_double, !map_app. apply compare_example_double.
Qed.

Lemma valid_input_double (V : nat) (s1 s2 : list (list nat)) :
  valid_input V s1 s2 ->
  valid_input V (map (fun x => x ++ x) s1) s2 /\
  valid_input V s1 (map (fun x => x ++ x) s2).
Proof.
  intros (R1 & R2 & EB & N1 & N2).
  assert (Rd : forall s, tokens_in_range V s -> tokens_in_range V (map (fun x => x ++ x) s)).
  { intros s Rs. unfold tokens_in_range in *. apply Forall_map. revert Rs.
    apply Forall_impl. intros x Hx. apply Forall_app. split; exact Hx. }
  assert (Nd : forall s : list (list nat), nonempty s -> nonempty (map (fun x => x ++ x) s)).
  { intros s Ns. unfold nonempty in *. apply Forall_map. revert Ns.
    apply Forall_impl. intros x Hx Ex. apply app_eq_nil in Ex. tauto. }
  unfold valid_input. rewrite !length_map. repeat split; auto.
Qed.

Lemma zipWith_map_l {A A' B C : Type} (fn : A' -> B -> C) (p : A -> A')
    (l : list A) (l' : list B) :
  zipWith fn (map p l) l' = zipWith (fun x y => fn (p x) y) l l'.
Proof.
  revert l'. induction l as [|x l IH]; intros [|y l']; simpl; try reflexivity.
  f_equal. apply IH.
Qed.

(** X17.  The model counts no tokens: with dropout disabled, saying every
    sentence of either argument twice, one copy after the other, changes no
    class score. *)
Theorem NLIModel_sentence_said_twice (V E H : nat) (p : NLIParams) (s1 s2 : list (list nat))
    (st st1 st2 : engine) :
  let self := NLIModel_init V E H 0 p in
  NLIParams_shape V E H p -> valid_input V s1 s2 ->
  exists y,
    value (NLIModel_hybrid_forward self s1 s2 st) = Ok y /\
    value (NLIModel_hybrid_forward self (map (fun x => x ++ x) s1) s2 st1) = Ok y /\
    value (NLIModel_hybrid_forward self s1 (map (fun x => x ++ x) s2) st2) = Ok y.
Proof.
  intros self Hp Hv. destruct (valid_input_double V s1 s2 Hv) as [Hv1 Hv2].
  exists (zipWith (NLI_example self) s1 s2). unfold self.
  rewrite (NLIModel_forward_valid V E H p s1 s2 st Hp Hv).
  rewrite (NLIModel_forward_valid V E H p _ s2 st1 Hp Hv1).
  rewrite (NLIModel_forward_valid V E H p s1 _ st2 Hp Hv2).
  split; [reflexivity|]. unfold value. simpl. split; f_equal.
  - rewrite zipWith_map_l. apply zipWith_ext_in. intros x1 x2 _ _.
    exact (proj1 (NLI_example_double (NLIModel_init V E H 0 p) x1 x2)).
  - rewrite zipWith_map_r. apply zipWith_ext_in. intros x1 x2 _ _.
    exact (proj2 (NLI_example_double (NLIModel_init V E H 0 p) x1 x2)).
Qed.

(** ** Positions, for the decomposable block as a whole *)

(** X18.  [DecomposableAttention.hybrid_forward] pools over positions: with
    dropout disabled, reordering the positions inside the batch elements of
    either argument leaves the returned scores as they are. *)
Theorem DecomposableAttention_position_invariant (inp hid C : nat) (p : DecomposableParams)
    (a b0 a' b' : list (list (list R))) (st st' : engine) :
  let self := DecomposableAttention_init inp hid C 0 p in
  DecomposableParams_shape inp hid C p ->
  all_len 2 inp a -> all_len 2 inp b0 -> length a = length b0 ->
  nonempty a -> nonempty b0 ->
  Forall2 (@Permutation (list R)) a a' -> Forall2 (@Permutation (list R)) b0 b' ->
  exists y,
    DecomposableAttention_hybrid_forward self a b0 st = Ok (y, st) /\
    DecomposableAttention_hybrid_forward self a' b' st' = Ok (y, st').
Proof.
  intros self Hp Ha Hb EB Na Nb Pa Pb.
  destruct (init_decomposable_stacks inp hid C 0 p Hp) as (Wf & Wg & Wh).
  destruct (init_model_disabled inp hid C p) as (Df & Dg & Dh).
  fold self in Wf, Wg, Wh, Df, Dg, Dh.
  assert (EB' : length a' = length b').
  { apply Forall2_length in Pa, Pb. congruence. }
  destruct (DecomposableAttention_returns inp hid C self a b0 st Wf Wg Wh EB Ha Hb Na Nb)
    as (y & st1 & Ey & _ & Vy).
  destruct (DecomposableAttention_returns inp hid C self a' b' st' Wf Wg Wh EB'
              (all_len2_perm inp a a' Pa Ha) (all_len2_perm inp b0 b' Pb Hb)
              (nonempty_perm a a' Pa Na) (nonempty_perm b0 b' Pb Nb))
    as (y' & st1' & Ey' & _ & Vy').
  destruct (Vy Df Dg Dh) as [-> ->]. destruct (Vy' Df Dg Dh) as [-> ->].
  exists (zipWith (decomposable_example self) a b0). split; [exact Ey|].
  rewrite Ey'. f_equal. f_equal.
  apply (zipWith_related (@Permutation (list R)) (@Permutation (list R))); [|exact Pa|exact Pb].
  intros m m' t t' Pm Pt.
  apply decomposable_example_perm; try assumption; apply init_stack_fixed_width.
Qed.

End Engine.

Arguments value {RNG A} r.
Arguments bind {RNG A B} c k st.
Arguments lift {RNG A} r st.
Arguments Dropout_forward {RNG} bernoulli n d x st.
Arguments HybridSequential_forward {RNG} bernoulli n layers x st.
Arguments IntraSentenceAttention_hybrid_forward {RNG} bernoulli self feature_a st.
Arguments DecomposableAttention_hybrid_forward {RNG} bernoulli self a b st.
Arguments DecomposableAttention_compare_aggregate {RNG} bernoulli self
  tilde_a tilde_b beta alpha st.
Arguments NLIModel_hybrid_forward {RNG} bernoulli self sentence1 sentence2 st.
Arguments NLIModel_sentence1_path {RNG} bernoulli self sentence1 st.
Arguments NLIModel_sentence2_path {RNG} bernoulli self sentence2 st.
Arguments NLIModel_project {RNG} bernoulli self sentence st.

(** * Instances

    The statements above that carry hypotheses, applied to the small model,
    with the hypotheses discharged by computation. *)

(** Dropout with a positive rate reads the engine: in training mode the same
    entry is kept and scaled from one generator state and zeroed from another,
    and outside training mode it is returned as it is. *)
Example Dropout_forward_reads_engine :
  value (Dropout_forward Small.bernoulli 1 {| rate := 1 / 2 |} [1]
           {| is_training := true; rng := 0%nat |}) = Ok [2] /\
  value (Dropout_forward Small.bernoulli 1 {| rate := 1 / 2 |} [1]
           {| is_training := true; rng := 1%nat |}) = Ok [0] /\
  value (Dropout_forward Small.bernoulli 1 {| rate := 1 / 2 |} [1]
           {| is_training := false; rng := 1%nat |}) = Ok [1].
Proof.
  cbv [Dropout_forward rate].
  destruct (Rlt_dec 0 (1 / 2)) as [_|N]; [|exfalso; lra].
  repeat split; unfold value; simpl; try reflexivity; do 2 f_equal; field.
Qed.

(** Shape and range conditions on concrete arrays. *)
Ltac by_computation :=
  repeat first
    [ progress (cbv [NLIParams_shape DecomposableParams_shape StackParams_shape
                     DenseParams_shape has_shape3 has_shape2 valid_input tokens_in_range
                     nonempty])
    | progress simpl
    | split
    | reflexivity
    | discriminate
    | lia
    | constructor ].

Lemma NLIModel_word_order_invariant_witness :
  Forall2 (@Permutation nat) [[0; 1]; [1; 1]]%nat [[1; 0]; [1; 1]]%nat /\
  value (NLIModel_hybrid_forward Small.bernoulli (NLIModel_init 2 1 1 0 Small.params)
           [[1; 0]; [1; 1]]%nat [[1]; [0]]%nat Small.st1) =
  value (NLIModel_hybrid_forward Small.bernoulli (NLIModel_init 2 1 1 0 Small.params)
           [[0; 1]; [1; 1]]%nat [[1]; [0]]%nat Small.st0).
Proof.
  assert (P1 : Forall2 (@Permutation nat) [[0; 1]; [1; 1]]%nat [[1; 0]; [1; 1]]%nat).
  { constructor; [apply perm_swap|]. constructor; [apply Permutation_refl | constructor]. }
  assert (P2 : Forall2 (@Permutation nat) [[1]; [0]]%nat [[1]; [0]]%nat).
  { constructor; [apply Permutation_refl|]. constructor; [apply Permutation_refl | constructor]. }
  split; [exact P1|].
  apply (@NLIModel_word_order_invariant nat Small.bernoulli 2 1 1 Small.params
           [[0; 1]; [1; 1]]%nat [[1; 0]; [1; 1]]%nat [[1]; [0]]%nat [[1]; [0]]%nat
           Small.st0 Small.st1); [by_computation | by_computation | by_computation | exact P1 | exact P2].
Defined.

(** The claim C1 as stated, refuted: no parameters, input and reordering of
    tokens inside sentences make the class scores change when dropout is
    disabled. *)
Lemma NLIModel_word_order_sensitivity_refuted :
  ~ (exists (RNG : Type) (bernoulli : R -> RNG -> bool * RNG) (V E H : nat) (p : NLIParams)
            (s1 s1' s2 s2' : list (list nat)) (st : engine_state RNG),
       NLIParams_shape V E H p /\ nonempty s1 /\ nonempty s2 /\
       Forall2 (@Permutation nat) s1 s1' /\ Forall2 (@Permutation nat) s2 s2' /\
       value (NLIModel_hybrid_forward bernoulli (NLIModel_init V E H 0 p) s1' s2' st) <>
       value (NLIModel_hybrid_forward bernoulli (NLIModel_init V E H 0 p) s1 s2 st)).
Proof.
  intros (RNG & bernoulli & V & E & H & p & s1 & s1' & s2 & s2' & st &
          Hp & N1 & N2 & P1 & P2 & Hne).
  apply Hne. f_equal.
  exact (@NLIModel_forward_perm RNG bernoulli V E H p s1 s1' s2 s2' st Hp N1 N2 P1 P2).
Qed.

Lemma DecomposableAttention_soft_alignment_witness :
  has_shape3 1 2 2 [[[1; 2]; [0; 1]]] /\ has_shape3 1 1 2 [[[3; 1]]] /\
  exists tilde_a st1 tilde_b st2 e beta alpha,
    HybridSequential_forward Small.bernoulli 2 (f Small.attention) [[[1; 2]; [0; 1]]] Small.st0
      = Ok (tilde_a, st1) /\
    HybridSequential_forward Small.bernoulli 2 (f Small.attention) [[[3; 1]]] st1
      = Ok (tilde_b, st2) /\
    DecomposableAttention_attention tilde_a tilde_b = Ok (e, beta, alpha) /\
    has_shape3 1 2 1 e /\ has_shape3 1 2 1 beta /\ has_shape3 1 1 1 alpha /\
    entry3 alpha 0 0 0 = spec_alpha tilde_a tilde_b 1 2 0 0 0.
Proof.
  assert (Ha : has_shape3 1 2 2 [[[1; 2]; [0; 1]]]) by by_computation.
  assert (Hb : has_shape3 1 1 2 [[[3; 1]]]) by by_computation.
  split; [exact Ha|]. split; [exact Hb|].
  destruct (@DecomposableAttention_soft_alignment nat Small.bernoulli 2 1 1 2 1
              Small.attention [[[1; 2]; [0; 1]]] [[[3; 1]]] Small.st0)
    as (ta & s1 & tb & s2 & e & beta & alpha & E1 & E2 & _ & _ & Eatt & (He & Hbeta & Halpha)
        & _ & _ & Hal & _); [by_computation | exact Ha | exact Hb | lia | lia |].
  exists ta, s1, tb, s2, e, beta, alpha.
  repeat (split; [assumption|]). apply Hal; lia.
Defined.

Lemma attention_weights_row_stochastic_witness :
  has_shape3 1 2 1 [[[1]; [3]]] /\ has_shape3 1 1 1 [[[2]]] /\
  exists wi w1 w2,
    IntraSentenceAttention_weights [[[1]; [3]]] = Ok wi /\
    DecomposableAttention_weights [[[1]; [3]]] [[[2]]] = Ok (w1, w2) /\
    rows_sum_to_one wi /\ rows_sum_to_one w1 /\ rows_sum_to_one w2.
Proof.
  assert (Ha : has_shape3 1 2 1 [[[1]; [3]]]) by by_computation.
  assert (Hb : has_shape3 1 1 1 [[[2]]]) by by_computation.
  split; [exact Ha|]. split; [exact Hb|].
  apply (attention_weights_row_stochastic 1 2 1 1 [[[1]; [3]]] [[[2]]] Ha Hb). lia.
Defined.

Lemma NLIModel_output_shape_witness :
  NLIParams_shape 2 1 1 Small.params /\
  exists y st',
    NLIModel_hybrid_forward Small.bernoulli (NLIModel_init 2 1 1 (1 / 2) Small.params)
      [[0; 1; 1]; [1; 0; 0]]%nat [[1]; [0]]%nat Small.st0 = Ok (y, st') /\
    has_shape2 2 3 y.
Proof.
  assert (Hp : NLIParams_shape 2 1 1 Small.params) by by_computation.
  split; [exact Hp|].
  apply (@NLIModel_output_shape nat Small.bernoulli 2 1 1 (1 / 2) Small.params 2 3 1
           [[0; 1; 1]; [1; 0; 0]]%nat [[1]; [0]]%nat Small.st0 Hp); by_computation.
Defined.

Lemma IntraSentenceAttention_algorithm_witness :
  StackParams_shape 1 1 1 (Small.stack 1 1 1) /\ has_shape3 1 2 1 [[[1]; [2]]] /\
  exists tilde_a alpha st',
    HybridSequential_forward Small.bernoulli 2
      (intra_attn_emb (IntraSentenceAttention_init 1 1 0 (Small.stack 1 1 1)))
      [[[1]; [2]]] Small.st0 = Ok (tilde_a, st') /\
    IntraSentenceAttention_hybrid_forward Small.bernoulli
      (IntraSentenceAttention_init 1 1 0 (Small.stack 1 1 1)) [[[1]; [2]]] Small.st0
      = Ok (alpha, st') /\
    has_shape3 1 2 1 alpha /\
    entry3 alpha 0 1 0 = spec_beta tilde_a tilde_a 1 2 0 1 0.
Proof.
  assert (Hp : StackParams_shape 1 1 1 (Small.stack 1 1 1)) by by_computation.
  assert (Hx : has_shape3 1 2 1 [[[1]; [2]]]) by by_computation.
  split; [exact Hp|]. split; [exact Hx|].
  destruct (@IntraSentenceAttention_algorithm nat Small.bernoulli 1 1 0 (Small.stack 1 1 1)
              1 2 [[[1]; [2]]] Small.st0 Hp Hx)
    as (_ & (ta & alpha & st' & E & _ & _ & Ef & Hs & Hal) & _).
  exists ta, alpha, st'. repeat (split; [assumption|]). apply Hal; lia.
Defined.

Lemma NLIModel_out_of_range_token_witness :
  NLIParams_shape 2 1 1 Small.params /\
  NLIModel_hybrid_forward Small.bernoulli (NLIModel_init 2 1 1 (1 / 2) Small.params)
    [[0; 1]]%nat [[1; 2]]%nat Small.st0 = Err IndexOutOfBounds.
Proof.
  assert (Hp : NLIParams_shape 2 1 1 Small.params) by by_computation.
  split; [exact Hp|].
  apply (proj1 (@NLIModel_out_of_range_token nat Small.bernoulli 2 1 1 (1 / 2) Small.params
                  [[0; 1]]%nat [[1; 2]]%nat Small.st0 Hp)).
  right. apply Exists_cons_hd, Exists_cons_tl, Exists_cons_hd. lia.
Defined.

Lemma IntraSentenceAttention_length_one_witness :
  StackParams_shape 1 1 1 (Small.stack 1 1 1) /\ has_shape3 2 1 1 [[[1]]; [[2]]] /\
  IntraSentenceAttention_hybrid_forward Small.bernoulli
    (IntraSentenceAttention_init 1 1 (1 / 2) (Small.stack 1 1 1)) [[[1]]; [[2]]] Small.st0 =
  HybridSequential_forward Small.bernoulli 2
    (intra_attn_emb (IntraSentenceAttention_init 1 1 (1 / 2) (Small.stack 1 1 1)))
    [[[1]]; [[2]]] Small.st0.
Proof.
  assert (Hp : StackParams_shape 1 1 1 (Small.stack 1 1 1)) by by_computation.
  assert (Hx : has_shape3 2 1 1 [[[1]]; [[2]]]) by by_computation.
  split; [exact Hp|]. split; [exact Hx|].
  exact (proj1 (@IntraSentenceAttention_length_one nat Small.bernoulli 1 1 (1 / 2)
                  (Small.stack 1 1 1) 2 [[[1]]; [[2]]] Small.st0 Hp Hx)).
Defined.

Lemma NLIModel_batch_noninterference_witness :
  valid_input 2 [[0; 1]; [1; 1]]%nat [[1]; [0]]%nat /\
  valid_input 2 [[0; 1]]%nat [[1]]%nat /\
  exists y y',
    value (NLIModel_hybrid_forward Small.bernoulli (NLIModel_init 2 1 1 0 Small.params)
             [[0; 1]; [1; 1]]%nat [[1]; [0]]%nat Small.st0) = Ok y /\
    value (NLIModel_hybrid_forward Small.bernoulli (NLIModel_init 2 1 1 0 Small.params)
             [[0; 1]]%nat [[1]]%nat Small.st1) = Ok y' /\
    nth_error y 0 = nth_error y' 0.
Proof.
  assert (Hp : NLIParams_shape 2 1 1 Small.params) by by_computation.
  assert (V1 : valid_input 2 [[0; 1]; [1; 1]]%nat [[1]; [0]]%nat) by by_computation.
  assert (V2 : valid_input 2 [[0; 1]]%nat [[1]]%nat) by by_computation.
  split; [exact V1|]. split; [exact V2|].
  exact (@NLIModel_batch_noninterference nat Small.bernoulli 2 1 1 Small.params
           [[0; 1]; [1; 1]]%nat [[1]; [0]]%nat [[0; 1]]%nat [[1]]%nat 0 Small.st0 Small.st1
           Hp V1 V2 eq_refl eq_refl).
Defined.

(** ** Instances of the further properties *)

Lemma NLIModel_accepts_exactly_valid_input_witness :
  NLIParams_shape 2 1 1 Small.params /\
  exists y st',
    NLIModel_hybrid_forward Small.bernoulli (NLIModel_init 2 1 1 (1 / 2) Small.params)
      [[0; 1]; [1; 1]]%nat [[1]; [0]]%nat Small.st0 = Ok (y, st').
Proof.
  assert (Hp : NLIParams_shape 2 1 1 Small.params) by by_computation.
  split; [exact Hp|].
  apply (proj2 (@NLIModel_accepts_exactly_valid_input nat Small.bernoulli 2 1 1 (1 / 2)
                  Small.params [[0; 1]; [1; 1]]%nat [[1]; [0]]%nat Small.st0 Hp
                  ltac:(by_computation) ltac:(by_computation))).
  by_computation.
Defined.

Lemma NLIModel_batch_size_mismatch_witness :
  NLIParams_shape 2 1 1 Small.params /\
  NLIModel_hybrid_forward Small.bernoulli (NLIModel_init 2 1 1 (1 / 2) Small.params)
    [[0; 1]]%nat [[1]; [0]]%nat Small.st0 = Err DimensionMismatch.
Proof.
  assert (Hp : NLIParams_shape 2 1 1 Small.params) by by_computation.
  split; [exact Hp|].
  destruct (@NLIModel_batch_size_mismatch nat Small.bernoulli 2 1 1 (1 / 2) Small.params
              [[0; 1]]%nat [[1]; [0]]%nat Small.st0 Hp)
    as (f1 & st1 & f2 & st2 & _ & _ & _ & _ & _ & Ey);
    [by_computation | by_computation | simpl; lia | exact Ey].
Defined.

Lemma DecomposableAttention_input_check_witness :
  DecomposableParams_shape 2 1 3 (model_params Small.params) /\
  (exists y st',
     DecomposableAttention_hybrid_forward Small.bernoulli
       (DecomposableAttention_init 2 1 3 (1 / 2) (model_params Small.params))
       [[[1; 2]; [0; 1]]] [[[3; 1]]] Small.st0 = Ok (y, st') /\
     has_shape2 1 3 y) /\
  DecomposableAttention_hybrid_forward Small.bernoulli
    (DecomposableAttention_init 2 1 3 (1 / 2) (model_params Small.params))
    [[[1; 2; 3]; [0; 1; 1]]] [[[3; 1]]] Small.st0 = Err DimensionMismatch.
Proof.
  assert (Hp : DecomposableParams_shape 2 1 3 (model_params Small.params)) by by_computation.
  split; [exact Hp|]. split.
  - apply (proj1 (@DecomposableAttention_input_check nat Small.bernoulli 2 1 3 (1 / 2)
                    (model_params Small.params) [[[1; 2]; [0; 1]]] [[[3; 1]]] Small.st0 Hp
                    ltac:(by_computation) ltac:(by_computation))).
    unfold all_len. simpl. by_computation.
  - apply (proj2 (@DecomposableAttention_input_check nat Small.bernoulli 2 1 3 (1 / 2)
                    (model_params Small.params) [[[1; 2; 3]; [0; 1; 1]]] [[[3; 1]]] Small.st0 Hp
                    ltac:(by_computation) ltac:(by_computation))).
    unfold all_len. simpl. intros [Ha _].
    inversion Ha as [|m x Hm _]. inversion Hm as [|v r Hv _]. simpl in Hv. lia.
Defined.

Lemma IntraSentenceAttention_input_check_witness :
  StackParams_shape 1 1 1 (Small.stack 1 1 1) /\
  IntraSentenceAttention_hybrid_forward Small.bernoulli
    (IntraSentenceAttention_init 1 1 (1 / 2) (Small.stack 1 1 1)) [[[1; 2]; [3; 4]]] Small.st0 =
  Err DimensionMismatch.
Proof.
  assert (Hp : StackParams_shape 1 1 1 (Small.stack 1 1 1)) by by_computation.
  split; [exact Hp|].
  apply (proj2 (@IntraSentenceAttention_input_check nat Small.bernoulli 1 1 (1 / 2)
                  (Small.stack 1 1 1) [[[1; 2]; [3; 4]]] Small.st0 Hp)).
  unfold all_len. simpl. intros Ha.
  inversion Ha as [|m x Hm _]. inversion Hm as [|v r Hv _]. simpl in Hv. lia.
Defined.

Lemma NLIModel_evaluation_mode_witness :
  is_training Small.st1 = false /\
  NLIModel_hybrid_forward Small.bernoulli (NLIModel_init 2 1 1 (1 / 2) Small.params)
    [[0; 1]; [1; 1]]%nat [[1]; [0]]%nat Small.st1 =
  NLIModel_hybrid_forward Small.bernoulli (NLIModel_init 2 1 1 0 Small.params)
    [[0; 1]; [1; 1]]%nat [[1]; [0]]%nat Small.st1.
Proof.
  split; [reflexivity|].
  exact (proj1 (@NLIModel_evaluation_mode nat Small.bernoulli 2 1 1 (1 / 2) Small.params
                  [[0; 1]; [1; 1]]%nat [[1]; [0]]%nat Small.st1 eq_refl)).
Defined.

Lemma NLIModel_forward_per_pair_witness :
  NLIParams_shape 2 1 1 Small.params /\
  valid_input 2 [[0; 1]; [1; 1]]%nat [[1]; [0]]%nat /\
  exists y,
    NLIModel_hybrid_forward Small.bernoulli (NLIModel_init 2 1 1 0 Small.params)
      [[0; 1]; [1; 1]]%nat [[1]; [0]]%nat Small.st0 = Ok (y, Small.st0) /\
    nth_error y 1 = Some (NLI_example (NLIModel_init 2 1 1 0 Small.params) [1; 1]%nat [0]%nat).
Proof.
  assert (Hp : NLIParams_shape 2 1 1 Small.params) by by_computation.
  assert (Hv : valid_input 2 [[0; 1]; [1; 1]]%nat [[1]; [0]]%nat) by by_computation.
  split; [exact Hp|]. split; [exact Hv|].
  destruct (@NLIModel_forward_per_pair nat Small.bernoulli 2 1 1 Small.params
              [[0; 1]; [1; 1]]%nat [[1]; [0]]%nat Small.st0 Hp Hv) as (y & Ey & _ & Hy).
  exists y. split; [exact Ey|]. apply Hy; reflexivity.
Defined.

Lemma NLIModel_batch_concatenation_witness :
  valid_input 2 [[0; 1]]%nat [[1]]%nat /\ valid_input 2 [[1; 1]]%nat [[0]]%nat /\
  exists y z,
    value (NLIModel_hybrid_forward Small.bernoulli (NLIModel_init 2 1 1 0 Small.params)
             [[0; 1]]%nat [[1]]%nat Small.st0) = Ok y /\
    value (NLIModel_hybrid_forward Small.bernoulli (NLIModel_init 2 1 1 0 Small.params)
             [[1; 1]]%nat [[0]]%nat Small.st1) = Ok z /\
    value (NLIModel_hybrid_forward Small.bernoulli (NLIModel_init 2 1 1 0 Small.params)
             [[0; 1]; [1; 1]]%nat [[1]; [0]]%nat Small.st0) = Ok (y ++ z).
Proof.
  assert (Hp : NLIParams_shape 2 1 1 Small.params) by by_computation.
  assert (V1 : valid_input 2 [[0; 1]]%nat [[1]]%nat) by by_computation.
  assert (V2 : valid_input 2 [[1; 1]]%nat [[0]]%nat) by by_computation.
  split; [exact V1|]. split; [exact V2|].
  exact (@NLIModel_batch_concatenation nat Small.bernoulli 2 1 1 Small.params
           [[0; 1]]%nat [[1]]%nat [[1; 1]]%nat [[0]]%nat Small.st0 Small.st1 Small.st0
           Hp V1 V2).
Defined.

Lemma NLIModel_batch_order_witness :
  valid_input 2 [[0; 1]; [1; 1]]%nat [[1]; [0]]%nat /\
  valid_input 2 [[1; 1]; [0; 1]]%nat [[0]; [1]]%nat /\
  exists y y',
    value (NLIModel_hybrid_forward Small.bernoulli (NLIModel_init 2 1 1 0 Small.params)
             [[0; 1]; [1; 1]]%nat [[1]; [0]]%nat Small.st0) = Ok y /\
    value (NLIModel_hybrid_forward Small.bernoulli (NLIModel_init 2 1 1 0 Small.params)
             [[1; 1]; [0; 1]]%nat [[0]; [1]]%nat Small.st1) = Ok y' /\
    Permutation (combine (combine [[0; 1]; [1; 1]]%nat [[1]; [0]]%nat) y)
                (combine (combine [[1; 1]; [0; 1]]%nat [[0]; [1]]%nat) y').
Proof.
  assert (Hp : NLIParams_shape 2 1 1 Small.params) by by_computation.
  assert (V1 : valid_input 2 [[0; 1]; [1; 1]]%nat [[1]; [0]]%nat) by by_computation.
  assert (V2 : valid_input 2 [[1; 1]; [0; 1]]%nat [[0]; [1]]%nat) by by_computation.
  split; [exact V1|]. split; [exact V2|].
  apply (@NLIModel_batch_order nat Small.bernoulli 2 1 1 Small.params
           [[0; 1]; [1; 1]]%nat [[1]; [0]]%nat [[1; 1]; [0; 1]]%nat [[0]; [1]]%nat
           Small.st0 Small.st1 Hp V1 V2).
  simpl. apply perm_swap.
Defined.

Lemma IntraSentenceAttention_position_equivariant_witness :
  StackParams_shape 1 1 1 (Small.stack 1 1 1) /\
  exists alpha alpha',
    IntraSentenceAttention_hybrid_forward Small.bernoulli
      (IntraSentenceAttention_init 1 1 0 (Small.stack 1 1 1)) [[[1]; [2]]] Small.st0 =
      Ok (alpha, Small.st0) /\
    IntraSentenceAttention_hybrid_forward Small.bernoulli
      (IntraSentenceAttention_init 1 1 0 (Small.stack 1 1 1)) [[[2]; [1]]] Small.st1 =
      Ok (alpha', Small.st1) /\
    Forall2 (@Permutation (list R * list R))
      (zipWith (@combine (list R) (list R)) [[[1]; [2]]] alpha)
      (zipWith (@combine (list R) (list R)) [[[2]; [1]]] alpha').
Proof.
  assert (Hp : StackParams_shape 1 1 1 (Small.stack 1 1 1)) by by_computation.
  split; [exact Hp|].
  apply (@IntraSentenceAttention_position_equivariant nat Small.bernoulli 1 1
           (Small.stack 1 1 1) [[[1]; [2]]] [[[2]; [1]]] Small.st0 Small.st1 Hp).
  - unfold all_len. simpl. by_computation.
  - constructor; [apply perm_swap | constructor].
Defined.

Lemma DecomposableAttention_alignment_reorder_witness :
  has_shape3 1 2 1 [[[1]; [3]]] /\ has_shape3 1 2 1 [[[2]; [5]]] /\
  exists e beta alpha e' beta' alpha',
    DecomposableAttention_attention [[[1]; [3]]] [[[2]; [5]]] = Ok (e, beta, alpha) /\
    DecomposableAttention_attention [[[1]; [3]]] [[[5]; [2]]] = Ok (e', beta', alpha') /\
    beta' = beta.
Proof.
  assert (Ha : has_shape3 1 2 1 [[[1]; [3]]]) by by_computation.
  assert (Hb : has_shape3 1 2 1 [[[2]; [5]]]) by by_computation.
  split; [exact Ha|]. split; [exact Hb|].
  destruct (DecomposableAttention_alignment_reorder 1 2 2 1
              [[[1]; [3]]] [[[2]; [5]]] [[[1]; [3]]] [[[5]; [2]]] Ha Hb)
    as (e & beta & alpha & e' & beta' & alpha' & E & E' & _ & _ & Hbeta & _).
  - lia.
  - constructor; [apply Permutation_refl | constructor].
  - constructor; [apply perm_swap | constructor].
  - exists e, beta, alpha, e', beta', alpha'.
    split; [exact E|]. split; [exact E'|]. apply Hbeta. reflexivity.
Defined.

Lemma DecomposableAttention_attention_exchange_witness :
  has_shape3 1 2 1 [[[1]; [3]]] /\ has_shape3 1 1 1 [[[2]]] /\
  exists e beta alpha,
    DecomposableAttention_attention [[[1]; [3]]] [[[2]]] = Ok (e, beta, alpha) /\
    DecomposableAttention_attention [[[2]]] [[[1]; [3]]] = Ok (transpose_021 e, alpha, beta).
Proof.
  assert (Ha : has_shape3 1 2 1 [[[1]; [3]]]) by by_computation.
  assert (Hb : has_shape3 1 1 1 [[[2]]]) by by_computation.
  split; [exact Ha|]. split; [exact Hb|].
  apply (DecomposableAttention_attention_exchange 1 2 1 1 [[[1]; [3]]] [[[2]]] Ha Hb); lia.
Defined.

Lemma attention_weights_positive_witness :
  has_shape3 1 2 1 [[[1]; [3]]] /\ has_shape3 1 1 1 [[[2]]] /\
  exists wi w1 w2,
    IntraSentenceAttention_weights [[[1]; [3]]] = Ok wi /\
    DecomposableAttention_weights [[[1]; [3]]] [[[2]]] = Ok (w1, w2) /\
    all_entries (fun w => 0 < w <= 1) wi /\
    all_entries (fun w => 0 < w <= 1) w1 /\
    all_entries (fun w => 0 < w <= 1) w2.
Proof.
  assert (Ha : has_shape3 1 2 1 [[[1]; [3]]]) by by_computation.
  assert (Hb : has_shape3 1 1 1 [[[2]]]) by by_computation.
  split; [exact Ha|]. split; [exact Hb|].
  destruct (attention_weights_positive 1 2 1 1 [[[1]; [3]]] [[[2]]] Ha Hb)
    as (wi & w1 & w2 & Ei & Ec & _ & Pw); [lia|].
  exists wi, w1, w2. split; [exact Ei|]. split; [exact Ec|]. exact Pw.
Defined.

Lemma IntraSentenceAttention_output_between_witness :
  StackParams_shape 1 1 1 (Small.stack 1 1 1) /\ has_shape3 1 2 1 [[[1]; [2]]] /\
  exists tilde_a alpha st',
    HybridSequential_forward Small.bernoulli 2
      (intra_attn_emb (IntraSentenceAttention_init 1 1 (1 / 2) (Small.stack 1 1 1)))
      [[[1]; [2]]] Small.st0 = Ok (tilde_a, st') /\
    IntraSentenceAttention_hybrid_forward Small.bernoulli
      (IntraSentenceAttention_init 1 1 (1 / 2) (Small.stack 1 1 1)) [[[1]; [2]]] Small.st0 =
      Ok (alpha, st') /\
    ((forall j, (j < 2)%nat -> 0 <= entry3 tilde_a 0 j 0 <= 8) ->
     0 <= entry3 alpha 0 1 0 <= 8).
Proof.
  assert (Hp : StackParams_shape 1 1 1 (Small.stack 1 1 1)) by by_computation.
  assert (Hx : has_shape3 1 2 1 [[[1]; [2]]]) by by_computation.
  split; [exact Hp|]. split; [exact Hx|].
  destruct (@IntraSentenceAttention_output_between nat Small.bernoulli 1 1 (1 / 2)
              (Small.stack 1 1 1) 1 2 [[[1]; [2]]] Small.st0 Hp Hx)
    as (ta & alpha & st' & E & Ef & Hb).
  exists ta, alpha, st'. split; [exact E|]. split; [exact Ef|].
  intros Hta. apply (Hb 0%nat 0%nat 0 8); [lia | lia | exact Hta | lia].
Defined.

Lemma DecomposableAttention_alignment_between_witness :
  has_shape3 1 2 1 [[[1]; [3]]] /\ has_shape3 1 2 1 [[[2]; [5]]] /\
  exists e beta alpha,
    DecomposableAttention_attention [[[1]; [3]]] [[[2]; [5]]] = Ok (e, beta, alpha) /\
    2 <= entry3 beta 0 1 0 <= 5.
Proof.
  assert (Ha : has_shape3 1 2 1 [[[1]; [3]]]) by by_computation.
  assert (Hb : has_shape3 1 2 1 [[[2]; [5]]]) by by_computation.
  split; [exact Ha|]. split; [exact Hb|].
  destruct (DecomposableAttention_alignment_between 1 2 2 1 [[[1]; [3]]] [[[2]; [5]]] Ha Hb)
    as (e & beta & alpha & E & Hbeta & _); [lia | lia |].
  exists e, beta, alpha. split; [exact E|].
  apply (Hbeta 0%nat 0%nat 2 5); [lia | lia | | lia].
  intros [|[|j]] Hj; [unfold entry3; simpl; lra | unfold entry3; simpl; lra | lia].
Defined.

Lemma DecomposableAttention_one_token_witness :
  has_shape3 1 2 1 [[[1]; [3]]] /\ has_shape3 1 1 1 [[[2]]] /\
  exists e beta alpha,
    DecomposableAttention_attention [[[1]; [3]]] [[[2]]] = Ok (e, beta, alpha) /\
    entry3 beta 0 1 0 = 2.
Proof.
  assert (Ha : has_shape3 1 2 1 [[[1]; [3]]]) by by_computation.
  assert (Hb : has_shape3 1 1 1 [[[2]]]) by by_computation.
  split; [exact Ha|]. split; [exact Hb|].
  destruct (DecomposableAttention_one_token 1 2 1 1 [[[1]; [3]]] [[[2]]] Ha Hb)
    as (e & beta & alpha & E & Hbeta & _); [lia | lia |].
  exists e, beta, alpha. split; [exact E|].
  rewrite (Hbeta eq_refl 0%nat 1%nat 0%nat); [reflexivity | lia | lia].
Defined.

Lemma NLIModel_sentence_representation_witness :
  NLIParams_shape 2 1 1 Small.params /\
  exists feature st1 attended st2,
    NLIModel_project Small.bernoulli (NLIModel_init 2 1 1 (1 / 2) Small.params)
      [[0; 1; 1]; [1; 0; 0]]%nat Small.st0 = Ok (feature, st1) /\
    NLIModel_sentence1_path Small.bernoulli (NLIModel_init 2 1 1 (1 / 2) Small.params)
      [[0; 1; 1]; [1; 0; 0]]%nat Small.st0 =
      Ok (zipWith (zipWith (@app R)) feature attended, st2) /\
    has_shape3 2 3 2 (zipWith (zipWith (@app R)) feature attended) /\
    all_entries (fun x => 0 <= x) feature.
Proof.
  assert (Hp : NLIParams_shape 2 1 1 Small.params) by by_computation.
  split; [exact Hp|].
  destruct (@NLIModel_sentence_representation nat Small.bernoulli 2 1 1 (1 / 2) Small.params
              2 3 [[0; 1; 1]; [1; 0; 0]]%nat Small.st0 Hp)
    as (feat & st1 & att & st2 & Ef & _ & Ep & _ & _ & Sh & Nn);
    [by_computation | by_computation |].
  exists feat, st1, att, st2. repeat (split; [assumption|]). exact Nn.
Defined.

Lemma NLIModel_sentence_said_twice_witness :
  valid_input 2 [[0; 1]; [1; 1]]%nat [[1]; [0]]%nat /\
  exists y,
    value (NLIModel_hybrid_forward Small.bernoulli (NLIModel_init 2 1 1 0 Small.params)
             [[0; 1]; [1; 1]]%nat [[1]; [0]]%nat Small.st0) = Ok y /\
    value (NLIModel_hybrid_forward Small.bernoulli (NLIModel_init 2 1 1 0 Small.params)
             [[0; 1; 0; 1]; [1; 1; 1; 1]]%nat [[1]; [0]]%nat Small.st1) = Ok y /\
    value (NLIModel_hybrid_forward Small.bernoulli (NLIModel_init 2 1 1 0 Small.params)
             [[0; 1]; [1; 1]]%nat [[1; 1]; [0; 0]]%nat Small.st0) = Ok y.
Proof.
  assert (Hp : NLIParams_shape 2 1 1 Small.params) by by_computation.
  assert (Hv : valid_input 2 [[0; 1]; [1; 1]]%nat [[1]; [0]]%nat) by by_computation.
  split; [exact Hv|].
  exact (@NLIModel_sentence_said_twice nat Small.bernoulli 2 1 1 Small.params
           [[0; 1]; [1; 1]]%nat [[1]; [0]]%nat Small.st0 Small.st1 Small.st0 Hp Hv).
Defined.

Lemma DecomposableAttention_position_invariant_witness :
  DecomposableParams_shape 2 1 3 (model_params Small.params) /\
  exists y,
    DecomposableAttention_hybrid_forward Small.bernoulli Small.attention
      [[[1; 2]; [0; 1]]] [[[3; 1]]] Small.st0 = Ok (y, Small.st0) /\
    DecomposableAttention_hybrid_forward Small.bernoulli Small.attention
      [[[0; 1]; [1; 2]]] [[[3; 1]]] Small.st1 = Ok (y, Small.st1).
Proof.
  assert (Hp : DecomposableParams_shape 2 1 3 (model_params Small.params)) by by_computation.
  split; [exact Hp|].
  apply (@DecomposableAttention_position_invariant nat Small.bernoulli 2 1 3
           (model_params Small.params) [[[1; 2]; [0; 1]]] [[[3; 1]]]
           [[[0; 1]; [1; 2]]] [[[3; 1]]] Small.st0 Small.st1 Hp).
  - unfold all_len. simpl. by_computation.
  - unfold all_len. simpl. by_computation.
  - reflexivity.
  - by_computation.
  - by_computation.
  - constructor; [apply perm_swap | constructor].
  - constructor; [apply Permutation_refl | constructor].
Defined.
